(** * sykr backend: identity keys, store upserts, fetch classification,
      checkpointed scrape runs

    A shallow embedding of [backend/db.py] and [backend/ats_scraper.py].

    Python [str] values that are processed character by character (URLs,
    error messages) are lists of code points below 256, written
    [list ascii]; identifiers, dictionary keys and stored text are
    [string].  Python dictionaries with a fixed set of keys are records,
    the job rows (whose keys depend on the arguments) are [gmap string value],
    and the set of completed company ids is a [gset string].

    Stateful code runs in a state-and-exception monad over a [world] that
    holds the store tables, the module globals of [db.py], the checkpoint
    file, the clock and scripted faults of the store and of the disk. *)

From Stdlib Require Import ZArith NArith List String Ascii Bool Lia.
From stdpp Require Import gmap strings list pretty.

Local Open Scope Z_scope.
Local Set Warnings "-register-all".

(** ** Python string primitives *)

Module Py.

Definition chars (s : string) : list ascii := list_ascii_of_string s.
Definition text (l : list ascii) : string := string_of_list_ascii l.
Definition code (c : ascii) : N := N_of_ascii c.

(** [str.lower] on code points below 256: A-Z and the Latin-1 capitals. *)
Definition lower_char (c : ascii) : ascii :=
  let n := code c in
  if (((65 <=? n) && (n <=? 90)) ||
      ((192 <=? n) && (n <=? 222) && negb (n =? 215)))%N
  then ascii_of_N (n + 32) else c.

Definition lower (s : list ascii) : list ascii := map lower_char s.

(** [str.isspace] on code points below 256. *)
Definition is_space (c : ascii) : bool :=
  let n := code c in
  (((9 <=? n) && (n <=? 13)) || ((28 <=? n) && (n <=? 32)) ||
   (n =? 133) || (n =? 160))%N.

Definition is_char (c : ascii) : ascii -> bool := Ascii.eqb c.

Fixpoint drop_while (p : ascii -> bool) (s : list ascii) : list ascii :=
  match s with
  | [] => []
  | c :: r => if p c then drop_while p r else s
  end.

Definition lstrip (p : ascii -> bool) (s : list ascii) : list ascii :=
  drop_while p s.
Definition rstrip (p : ascii -> bool) (s : list ascii) : list ascii :=
  rev (drop_while p (rev s)).
(** [s.strip()] *)
Definition strip (s : list ascii) : list ascii :=
  rstrip is_space (lstrip is_space s).

(** [c in s] for a one-character [c] *)
Definition contains (c : ascii) (s : list ascii) : bool := existsb (is_char c) s.

(** The longest prefix without a character satisfying [p], and the rest:
    [s[:i], s[i:]] for [i] the first index of such a character, or
    [s, ""] when there is none. *)
Fixpoint break (p : ascii -> bool) (s : list ascii) : list ascii * list ascii :=
  match s with
  | [] => ([], [])
  | c :: r => if p c then ([], s) else let '(a, b) := break p r in (c :: a, b)
  end.

(** [s.partition(c)]; the separator is reported as a flag. *)
Definition partition (c : ascii) (s : list ascii) : list ascii * bool * list ascii :=
  match break (is_char c) s with
  | (a, _ :: b) => (a, true, b)
  | (a, []) => (a, false, [])
  end.

(** [s.rpartition(c)]: split at the last [c]; [("", "", s)] without one. *)
Definition rpartition (c : ascii) (s : list ascii) : list ascii * bool * list ascii :=
  match break (is_char c) (rev s) with
  | (a, _ :: b) => (rev b, true, rev a)
  | (_, []) => ([], false, s)
  end.

Fixpoint starts_with (pre s : list ascii) : bool :=
  match pre, s with
  | [], _ => true
  | p :: pre', c :: s' => Ascii.eqb p c && starts_with pre' s'
  | _ :: _, [] => false
  end.

(** [needle in s] *)
Fixpoint is_infix (needle s : list ascii) : bool :=
  starts_with needle s ||
  match s with
  | [] => false
  | _ :: r => is_infix needle r
  end.

Definition truthy (s : list ascii) : bool :=
  match s with [] => false | _ => true end.

End Py.

(** ** [urllib.parse] (CPython 3.11), as far as [normalize_url] uses it *)

Module UrlLib.
Import Py.

Definition uses_netloc : list (list ascii) :=
  map chars [""; "ftp"; "http"; "gopher"; "nntp"; "telnet";
             "imap"; "wais"; "file"; "mms"; "https"; "shttp";
             "snews"; "prospero"; "rtsp"; "rtspu"; "rsync";
             "svn"; "svn+ssh"; "sftp"; "nfs"; "git"; "git+ssh";
             "ws"; "wss"]%string.

Definition uses_params : list (list ascii) :=
  map chars [""; "ftp"; "hdl"; "prospero"; "http"; "imap";
             "https"; "shttp"; "rtsp"; "rtspu"; "sip"; "sips";
             "mms"; "sftp"; "tel"]%string.

Definition is_alpha (c : ascii) : bool :=
  let n := code c in
  (((65 <=? n) && (n <=? 90)) || ((97 <=? n) && (n <=? 122)))%N.

Definition is_digit (c : ascii) : bool :=
  let n := code c in ((48 <=? n) && (n <=? 57))%N.

(** [c in scheme_chars] *)
Definition is_scheme_char (c : ascii) : bool :=
  is_alpha c || is_digit c || is_char "+" c || is_char "-" c || is_char "." c.

(** [c in _WHATWG_C0_CONTROL_OR_SPACE] *)
Definition is_c0_or_space (c : ascii) : bool := (code c <=? 32)%N.

(** [c in _UNSAFE_URL_BYTES_TO_REMOVE] *)
Definition is_unsafe (c : ascii) : bool :=
  is_char "009" c || is_char "013" c || is_char "010" c.

Definition remove_unsafe (s : list ascii) : list ascii :=
  List.filter (fun c => negb (is_unsafe c)) s.

Definition is_netloc_delim (c : ascii) : bool :=
  is_char "/" c || is_char "?" c || is_char "#" c.

(** [_splitnetloc(url, 2)], applied to [url[2:]] *)
Definition splitnetloc (s : list ascii) : list ascii * list ascii :=
  break is_netloc_delim s.

(** The scheme test of [urlsplit]: [i = url.find(':')], [i > 0], an ASCII
    letter first and scheme characters up to [i]. *)
Definition split_scheme (url : list ascii) : list ascii * list ascii :=
  match break (is_char ":") url with
  | (c :: pre, _ :: rest) =>
      if is_alpha c && forallb is_scheme_char (c :: pre)
      then (lower (c :: pre), rest)
      else ([], url)
  | _ => ([], url)
  end.

Record SplitResult := {
  sr_scheme : list ascii;
  sr_netloc : list ascii;
  sr_path : list ascii;
  sr_query : list ascii;
  sr_fragment : list ascii;
}.

Record ParseResult := {
  scheme : list ascii;
  netloc : list ascii;
  path : list ascii;
  params : list ascii;
  query : list ascii;
  fragment : list ascii;
}.

Section Parse.

(** [_check_bracketed_netloc], which validates a netloc holding both
    brackets with the [ipaddress] module (CPython 3.11.4 and later; earlier
    releases accept every such netloc).  [true] means that it returns
    without raising. *)
Variable check_bracketed_netloc : list ascii -> bool.

(** [urlsplit(url)]; [None] is [ValueError].  [_checknetloc] only raises
    on characters whose NFKC form holds a delimiter, and there is none
    below code point 256. *)
Definition urlsplit (url : list ascii) : option SplitResult :=
  let url := lstrip is_c0_or_space url in
  let url := remove_unsafe url in
  let '(scheme, url) := split_scheme url in
  let '(netloc, url) :=
    if starts_with (chars "//") url then splitnetloc (drop 2 url) else ([], url) in
  let lb := contains "[" netloc in
  let rb := contains "]" netloc in
  if (lb && negb rb) || (rb && negb lb) then None
  else if lb && rb && negb (check_bracketed_netloc netloc) then None
  else
    let '(url, fragment) :=
      match partition "#" url with (a, _, b) => (a, b) end in
    let '(url, query) :=
      match partition "?" url with (a, _, b) => (a, b) end in
    Some {| sr_scheme := scheme; sr_netloc := netloc; sr_path := url;
            sr_query := query; sr_fragment := fragment |}.

(** [_splitparams(url)] *)
Definition splitparams (url : list ascii) : list ascii * list ascii :=
  if contains "/" url then
    match rpartition "/" url with
    | (dir, _, seg) =>
        match partition ";" seg with
        | (a, true, b) => (dir ++ "/"%char :: a, b)
        | (_, false, _) => (url, [])
        end
    end
  else
    match partition ";" url with
    | (a, true, b) => (a, b)
    | (_, false, _) => (removelast url, url)
    end.

Definition urlparse (url : list ascii) : option ParseResult :=
  match urlsplit url with
  | None => None
  | Some r =>
      let '(url, params) :=
        if bool_decide (sr_scheme r ∈ uses_params) && contains ";" (sr_path r)
        then splitparams (sr_path r) else (sr_path r, []) in
      Some {| scheme := sr_scheme r; netloc := sr_netloc r; path := url;
              params := params; query := sr_query r;
              fragment := sr_fragment r |}
  end.

End Parse.

(** [_hostinfo[0]] *)
Definition hostinfo_hostname (netloc : list ascii) : list ascii :=
  match rpartition "@" netloc with
  | (_, _, hostinfo) =>
      match partition "[" hostinfo with
      | (_, true, bracketed) =>
          match partition "]" bracketed with (hostname, _, _) => hostname end
      | (_, false, _) =>
          match partition ":" hostinfo with (hostname, _, _) => hostname end
      end
  end.

(** The [hostname] property; [None] is Python's [None]. *)
Definition hostname (r : ParseResult) : option (list ascii) :=
  match hostinfo_hostname (netloc r) with
  | [] => None
  | h =>
      match partition "%" h with
      | (h, percent, zone) =>
          Some (lower h ++ (if percent then ["%"%char] else []) ++ zone)
      end
  end.

Definition urlunsplit (scheme netloc url query fragment : list ascii) : list ascii :=
  let url :=
    if truthy netloc ||
       (truthy scheme && bool_decide (scheme ∈ uses_netloc) &&
        negb (bool_decide (take 2 url = chars "//")))
    then
      let url :=
        if truthy url && negb (bool_decide (take 1 url = chars "/"))
        then "/"%char :: url else url in
      chars "//" ++ netloc ++ url
    else url in
  let url := if truthy scheme then scheme ++ ":"%char :: url else url in
  let url := if truthy query then url ++ "?"%char :: query else url in
  let url := if truthy fragment then url ++ "#"%char :: fragment else url in
  url.

Definition urlunparse (scheme netloc url params query fragment : list ascii) : list ascii :=
  let url := if truthy params then url ++ ";"%char :: params else url in
  urlunsplit scheme netloc url query fragment.

End UrlLib.

(** ** [hashlib.sha256] (FIPS 180-4) on 32-bit words held in [Z] *)

Module Sha256.

Definition w32 (x : Z) : Z := x mod 2 ^ 32.
Definition add32 (x y : Z) : Z := w32 (x + y).
Definition rotr (n x : Z) : Z :=
  Z.lor (Z.shiftr x n) (w32 (Z.shiftl x (32 - n))).
Definition not32 (x : Z) : Z := Z.lxor x (2 ^ 32 - 1).

Definition Ch (x y z : Z) : Z := Z.lxor (Z.land x y) (Z.land (not32 x) z).
Definition Maj (x y z : Z) : Z :=
  Z.lxor (Z.lxor (Z.land x y) (Z.land x z)) (Z.land y z).
Definition Sigma0 (x : Z) : Z := Z.lxor (Z.lxor (rotr 2 x) (rotr 13 x)) (rotr 22 x).
Definition Sigma1 (x : Z) : Z := Z.lxor (Z.lxor (rotr 6 x) (rotr 11 x)) (rotr 25 x).
Definition sigma0 (x : Z) : Z := Z.lxor (Z.lxor (rotr 7 x) (rotr 18 x)) (Z.shiftr x 3).
Definition sigma1 (x : Z) : Z := Z.lxor (Z.lxor (rotr 17 x) (rotr 19 x)) (Z.shiftr x 10).

(** The largest [r] below [2 ^ bits] with [r ^ k <= n], bit by bit. *)
Fixpoint root_bits (k : Z) (bits : nat) (n r : Z) : Z :=
  match bits with
  | O => r
  | S b =>
      let c := r + 2 ^ Z.of_nat b in
      if c ^ k <=? n then root_bits k b n c else root_bits k b n r
  end.

Definition is_prime (n : Z) : bool :=
  forallb (fun d => negb (n mod d =? 0)) (seqZ 2 (n - 2)).

(** The first sixty-four primes, 2 to 311. *)
Definition primes : list Z :=
  Eval vm_compute in List.filter is_prime (seqZ 2 310).

(** The round constants: the first 32 bits of the fractional parts of
    the cube roots of the primes. *)
Definition K : list Z :=
  Eval vm_compute in map (fun p => w32 (root_bits 3 40 (p * 2 ^ 96) 0)) primes.

(** The initial hash value: the first 32 bits of the fractional parts of
    the square roots of the first eight primes. *)
Definition H0 : list Z :=
  Eval vm_compute in
    map (fun p => w32 (root_bits 2 40 (p * 2 ^ 64) 0)) (take 8 primes).

(** Big-endian bytes of [x], [n] of them. *)
Fixpoint be_bytes (n : nat) (x : Z) : list Z :=
  match n with
  | O => []
  | S k => be_bytes k (x / 256) ++ [x mod 256]
  end.

Definition pad (msg : list Z) : list Z :=
  let len := Z.of_nat (length msg) in
  let zeros := Z.to_nat ((55 - len) mod 64) in
  msg ++ [0x80] ++ repeat 0 zeros ++ be_bytes 8 (8 * len).

Fixpoint be_words (n : nat) (bytes : list Z) : list Z :=
  match n, bytes with
  | S k, a :: b :: c :: d :: r =>
      (((a * 256 + b) * 256 + c) * 256 + d) :: be_words k r
  | _, _ => []
  end.

(** The message schedule, most recent word first: [w] holds
    W[t-1], W[t-2], ... and is extended by [n] words. *)
Fixpoint schedule (n : nat) (w : list Z) : list Z :=
  match n with
  | O => w
  | S k =>
      let at_ i := nth i w 0 in
      schedule k (add32 (add32 (sigma1 (at_ 1%nat)) (at_ 6%nat))
                        (add32 (sigma0 (at_ 14%nat)) (at_ 15%nat)) :: w)
  end.

Definition round (s : list Z) (kw : Z * Z) : list Z :=
  match s with
  | [a; b; c; d; e; f; g; h] =>
      let t1 := add32 (add32 (add32 h (Sigma1 e)) (add32 (Ch e f g) (fst kw))) (snd kw) in
      let t2 := add32 (Sigma0 a) (Maj a b c) in
      [add32 t1 t2; a; b; c; add32 d t1; e; f; g]
  | _ => s
  end.

Definition compress (h : list Z) (block : list Z) : list Z :=
  let w := rev (schedule 48 (rev (be_words 16 block))) in
  let s := fold_left round (combine K w) h in
  map (fun p => add32 (fst p) (snd p)) (combine h s).

Fixpoint blocks (n : nat) (h : list Z) (bytes : list Z) : list Z :=
  match n with
  | O => h
  | S k => blocks k (compress h (take 64 bytes)) (drop 64 bytes)
  end.

Definition digest (msg : list Z) : list Z :=
  let p := pad msg in
  flat_map (be_bytes 4) (blocks (length p / 64) H0 p).

Definition hex_digit (x : Z) : ascii :=
  ascii_of_N (Z.to_N (if x <? 10 then 48 + x else 87 + x)).

Definition hexdigest (msg : list Z) : list ascii :=
  flat_map (fun b => [hex_digit (b / 16); hex_digit (b mod 16)]) (digest msg).

End Sha256.

(** [s.encode("utf-8")] for code points below 256 *)
Definition utf8_encode (s : list ascii) : list Z :=
  flat_map (fun c =>
    let n := Z.of_N (Py.code c) in
    if n <? 128 then [n] else [192 + n / 64; 128 + n mod 64]) s.

(** ** URL hashing (deduplication) *)

Section Identity.
Import Py UrlLib.

Variable check_bracketed_netloc : list ascii -> bool.

(** [normalize_url(url)]; [None] when [urlparse] raises [ValueError]. *)
Definition normalize_url (url : list ascii) : option (list ascii) :=
  match urlparse check_bracketed_netloc (strip url) with
  | None => None
  | Some parsed =>
      let scheme := lower (if truthy (scheme parsed) then scheme parsed
                           else chars "https") in
      let host := lower (match hostname parsed with Some h => h | None => [] end) in
      let host := if starts_with (chars "www.") host then drop 4 host else host in
      let path := rstrip (is_char "/") (path parsed) in
      Some (urlunparse scheme host path [] [] [])
  end.

(** [hash_url(url)] *)
Definition hash_url (url : list ascii) : option (list ascii) :=
  match normalize_url url with
  | None => None
  | Some normalized => Some (Sha256.hexdigest (utf8_encode normalized))
  end.

End Identity.

(** ** Well-formed absolute URLs, for the statements about identity keys *)

Module UrlShape.
Import Py UrlLib.

Definition none_of (p : ascii -> bool) (s : list ascii) : bool :=
  forallb (fun c => negb (p c)) s.

(** [s] is empty or starts with a character satisfying [p]. *)
Definition stops_at (p : ascii -> bool) (s : list ascii) : bool :=
  match s with [] => true | c :: _ => p c end.

(** A visible character: not a C0 control, not white space. *)
Definition url_char (c : ascii) : bool :=
  negb (is_c0_or_space c) && negb (is_space c).

Definition host_char (c : ascii) : bool :=
  url_char c && negb (is_netloc_delim c) && negb (is_char "@" c) &&
  negb (is_char ":" c) && negb (is_char "[" c) && negb (is_char "]" c).



Definition wf_scheme (s : list ascii) : bool :=
  match s with
  | c :: _ => is_alpha c && forallb is_scheme_char s
  | [] => false
  end.



Definition wf_opt (ok : ascii -> bool) (o : option (list ascii)) : bool :=
  match o with Some x => forallb ok x | None => true end.

Definition opt_part (sep : ascii) (o : option (list ascii)) : list ascii :=
  match o with Some x => sep :: x | None => [] end.

(** [scheme://host/path?query#fragment] *)
Definition build (sch host path : list ascii) (q f : option (list ascii))
    : list ascii :=
  sch ++ chars "://" ++ host ++ path ++ opt_part "?" q ++ opt_part "#" f.


(** The characters that [hostname] cuts a netloc at, the userinfo
    separator apart: port colon and IPv6 brackets. *)
Definition is_host_mark (c : ascii) : bool :=
  is_char ":" c || is_char "[" c || is_char "]" c.

(** A netloc that [hostname] returns whole. *)
Definition bare_host (h : list ascii) : bool :=
  none_of is_netloc_delim h && none_of (is_char "@") h &&
  none_of is_host_mark h.

(** A path that [urlparse] returns whole, with empty parameters. *)
Definition plain_path (p : list ascii) : bool :=
  stops_at (is_char "/") p && none_of (is_char "?") p &&
  none_of (is_char "#") p && none_of (is_char ";") p.

(** [s] does not end in white space. *)
Definition ends_visible (s : list ascii) : bool :=
  stops_at (fun c => negb (is_space c)) (rev s).

(** What [urlparse] needs in order to cut
    [scheme://host/path?query#fragment] at the places where [build]
    joined it and [strip] to leave it alone. *)
Definition readable (sch host path : list ascii) (q f : option (list ascii)) : bool :=
  wf_scheme sch && bare_host host && plain_path path &&
  wf_opt (fun c => negb (is_char "#" c)) q &&
  none_of is_unsafe (build sch host path q f) &&
  ends_visible (build sch host path q f).


(** [host[4:]] when [host.startswith("www.")] *)
Definition strip_www (host : list ascii) : list ascii :=
  if starts_with (chars "www.") host then drop 4 host else host.

End UrlShape.

Section NormalParts.
Import Py UrlLib.

Variable check_bracketed_netloc : list ascii -> bool.

(** The locals [scheme], [host] and [path] of [normalize_url] at the
    point where it calls [urlunparse]. *)
Definition normal_parts (url : list ascii)
    : option (list ascii * list ascii * list ascii) :=
  match urlparse check_bracketed_netloc (strip url) with
  | None => None
  | Some parsed =>
      let scheme := lower (if truthy (scheme parsed) then scheme parsed
                           else chars "https") in
      let host := lower (match hostname parsed with Some h => h | None => [] end) in
      let host := if starts_with (chars "www.") host then drop 4 host else host in
      let path := rstrip (is_char "/") (path parsed) in
      Some (scheme, host, path)
  end.

End NormalParts.

(** The validator of CPython before 3.11.4, which accepts every netloc
    that holds both brackets. *)
Definition no_bracket_check : list ascii -> bool := fun _ => true.
(** ** Values, job rows and the state of the world *)

Inductive json :=
| JNull
| JBool (b : bool)
| JNum (n : Z)
| JStr (s : string)
| JArr (l : list json)
| JObj (l : list (string * json)).

(** A cell of a job row.  Timestamps ([datetime.now(...).isoformat()]) are
    kept as the clock reading they print. *)
Inductive value :=
| VBool (b : bool)
| VInt (n : Z)
| VStr (s : string)
| VTime (t : Z)
| VTags (l : list string)
| VRaw (d : list (string * json)).

(** [parsers.ParsedJob] *)
Record ParsedJob := {
  url : string;
  title : string;
  location : option string;
  description : option string;
  salary_min : option Z;
  salary_max : option Z;
  salary_currency : string;
  remote_type : string;
  seniority : option string;
  category : option string;
  tags : list string;
  posted_at : option string;
  raw_data : list (string * json);
}.

(** A row of table [companies], as returned by [select("*")]. *)
Record company := {
  c_id : string;
  c_slug : string;
  c_ats : string;
  c_api_url : option string;
  c_name : option string;
  c_verified : bool;
  c_last_scraped_at : option Z;
  c_job_count : option Z;
}.

(** A row of table [scrape_runs]. *)
Record scrape_run := {
  r_id : string;
  r_source : string;
  r_status : string;
  r_started_at : Z;
  r_company_count : Z;
  r_totals : option (Z * Z * Z);
  r_finished_at : option Z;
}.

(** The tables of the store; [s_next_id] numbers the rows it creates. *)
Record store := {
  s_jobs : list (gmap string value);
  s_companies : list company;
  s_runs : list scrape_run;
  s_next_id : nat;
}.

(** What [json.load] returns for the checkpoint file: a dictionary read
    with [.get], so every key may be missing. *)
Record checkpoint := {
  ck_completed_ids : option (list string);
  ck_run_id : option string;
  ck_total_jobs : option Z;
  ck_new_jobs : option Z;
  ck_errors : option Z;
  ck_updated_at : option Z;
}.

Definition empty_checkpoint : checkpoint :=
  {| ck_completed_ids := None; ck_run_id := None; ck_total_jobs := None;
     ck_new_jobs := None; ck_errors := None; ck_updated_at := None |}.

(** [CHECKPOINT_FILE] on disk. *)
Inductive file_state :=
| Absent
| Unreadable
| Document (c : checkpoint).

(** How an attempt to write or unlink the checkpoint file ends: it
    succeeds, [open] raises [OSError] and the file is as before, or the
    write raises [OSError] after [open] has truncated the file. *)
Inductive disk_outcome := DiskOk | OpenFails | WriteFails.

(** Everything the code reads or changes: the store, whether the
    Supabase settings are present, the globals [_client] and
    [_request_count] (clients are numbered as they are created), the
    outcomes of the coming store requests ([Some msg] is a request that
    raises), the sleeps and HTTP requests made so far, the clock, and the
    checkpoint file with the outcomes of the coming writes to it. *)
Record world := {
  w_store : store;
  w_configured : bool;
  w_client : option nat;
  w_request_count : Z;
  w_clients_created : nat;
  w_faults : list (option string);
  w_sleeps : list Z;
  w_requests : list string;
  w_clock : Z;
  w_file : file_state;
  w_disk : list disk_outcome;
}.

Definition set_store (s : store) (w : world) : world :=
  {| w_store := s; w_configured := w_configured w;
     w_client := w_client w; w_request_count := w_request_count w;
     w_clients_created := w_clients_created w; w_faults := w_faults w;
     w_sleeps := w_sleeps w; w_requests := w_requests w;
     w_clock := w_clock w; w_file := w_file w; w_disk := w_disk w |}.

Definition set_client (c : option nat) (created : nat) (w : world) : world :=
  {| w_store := w_store w; w_configured := w_configured w;
     w_client := c; w_request_count := w_request_count w;
     w_clients_created := created; w_faults := w_faults w;
     w_sleeps := w_sleeps w; w_requests := w_requests w;
     w_clock := w_clock w; w_file := w_file w; w_disk := w_disk w |}.

Definition set_request_count (n : Z) (w : world) : world :=
  {| w_store := w_store w; w_configured := w_configured w;
     w_client := w_client w; w_request_count := n;
     w_clients_created := w_clients_created w; w_faults := w_faults w;
     w_sleeps := w_sleeps w; w_requests := w_requests w;
     w_clock := w_clock w; w_file := w_file w; w_disk := w_disk w |}.

Definition set_faults (l : list (option string)) (w : world) : world :=
  {| w_store := w_store w; w_configured := w_configured w;
     w_client := w_client w; w_request_count := w_request_count w;
     w_clients_created := w_clients_created w; w_faults := l;
     w_sleeps := w_sleeps w; w_requests := w_requests w;
     w_clock := w_clock w; w_file := w_file w; w_disk := w_disk w |}.

Definition set_sleeps (l : list Z) (w : world) : world :=
  {| w_store := w_store w; w_configured := w_configured w;
     w_client := w_client w; w_request_count := w_request_count w;
     w_clients_created := w_clients_created w; w_faults := w_faults w;
     w_sleeps := l; w_requests := w_requests w;
     w_clock := w_clock w; w_file := w_file w; w_disk := w_disk w |}.

Definition set_requests (l : list string) (w : world) : world :=
  {| w_store := w_store w; w_configured := w_configured w;
     w_client := w_client w; w_request_count := w_request_count w;
     w_clients_created := w_clients_created w; w_faults := w_faults w;
     w_sleeps := w_sleeps w; w_requests := l;
     w_clock := w_clock w; w_file := w_file w; w_disk := w_disk w |}.

Definition set_clock (t : Z) (w : world) : world :=
  {| w_store := w_store w; w_configured := w_configured w;
     w_client := w_client w; w_request_count := w_request_count w;
     w_clients_created := w_clients_created w; w_faults := w_faults w;
     w_sleeps := w_sleeps w; w_requests := w_requests w;
     w_clock := t; w_file := w_file w; w_disk := w_disk w |}.

Definition set_file (f : file_state) (disk : list disk_outcome) (w : world) : world :=
  {| w_store := w_store w; w_configured := w_configured w;
     w_client := w_client w; w_request_count := w_request_count w;
     w_clients_created := w_clients_created w; w_faults := w_faults w;
     w_sleeps := w_sleeps w; w_requests := w_requests w;
     w_clock := w_clock w; w_file := f; w_disk := disk |}.

(** ** The monad of store code: state and exceptions

    An exception is kept as its message, [str(e)], the only part of it
    that the code looks at. *)

Inductive result (A : Type) :=
| Ok (a : A)
| Raise (e : string).
Arguments Ok {A} a.
Arguments Raise {A} e.

Definition M (A : Type) : Type := world -> result A * world.

Definition ret {A} (a : A) : M A := fun w => (Ok a, w).
Definition raise {A} (e : string) : M A := fun w => (Raise e, w).
Definition bind {A B} (m : M A) (k : A -> M B) : M B := fun w =>
  match m w with
  | (Ok a, w') => k a w'
  | (Raise e, w') => (Raise e, w')
  end.
(** [try: m  except Exception as e: h(e)] *)
Definition try_except {A} (m : M A) (h : string -> M A) : M A := fun w =>
  match m w with
  | (Ok a, w') => (Ok a, w')
  | (Raise e, w') => h e w'
  end.
Definition get {A} (f : world -> A) : M A := fun w => (Ok (f w), w).
Definition modify (f : world -> world) : M unit := fun w => (Ok tt, f w).

Notation "x <- m ;; k" := (bind m (fun x => k))
  (at level 90, m at level 89, right associativity).
Notation "m ;;; k" := (bind m (fun _ => k))
  (at level 90, right associativity).

(** ** [db.py]: client singleton and retry wrapper *)

Definition _MAX_REQUESTS_BEFORE_RESET : Z := 5000.

(** [create_client(...)] *)
Definition create_client : M nat := fun w =>
  let c := S (w_clients_created w) in (Ok c, set_client (Some c) c w).

(** The creation branch of [get_client]. *)
Definition fresh_client : M nat :=
  configured <- get w_configured ;;
  if negb configured
  then raise "SUPABASE_URL and SUPABASE_SERVICE_KEY must be set. Create a .env file or set environment variables."
  else c <- create_client ;; modify (set_request_count 0) ;;; ret c.

Definition get_client : M nat :=
  client <- get w_client ;;
  count <- get w_request_count ;;
  c <- match client with
       | Some c =>
           if _MAX_REQUESTS_BEFORE_RESET <=? count then fresh_client else ret c
       | None => fresh_client
       end ;;
  modify (fun w => set_request_count (w_request_count w + 1) w) ;;;
  ret c.

Definition connection_signatures : list (list ascii) :=
  map Py.chars ["connectionterminated"; "remoteprotocolerror";
                "connectionreset"; "connectionrefused"; "broken pipe"]%string.

Definition is_connection_error (e : string) : bool :=
  let err_str := Py.lower (Py.chars e) in
  existsb (fun k => Py.is_infix k err_str) connection_signatures.

(** [time.sleep(d)], in seconds *)
Definition sleep (d : Z) : M unit :=
  modify (fun w => set_sleeps (w_sleeps w ++ [d]) w).

(** The body of [for attempt in range(retries)]; falling off the end of
    the loop returns [None]. *)
Fixpoint retry_loop {A} (fn : M A) (retries delay : Z) (attempts : list Z)
    : M (option A) :=
  match attempts with
  | [] => ret None
  | attempt :: rest =>
      try_except (a <- fn ;; ret (Some a))
        (fun e =>
           if is_connection_error e && (attempt <? retries - 1)
           then
             sleep (delay * (attempt + 1)) ;;;
             modify (set_request_count _MAX_REQUESTS_BEFORE_RESET) ;;;
             retry_loop fn retries delay rest
           else raise e)
  end.

Definition _retry {A} (fn : M A) (retries delay : Z) : M (option A) :=
  retry_loop fn retries delay (seqZ 0 retries).

(** [.execute()]: the request fails with the scripted fault, if any, and
    otherwise runs on the tables.  A failed request leaves the tables as
    they are. *)
Definition execute {A} (op : store -> A * store) : M A := fun w =>
  match w_faults w with
  | Some msg :: rest => (Raise msg, set_faults rest w)
  | None :: rest =>
      let '(a, s) := op (w_store w) in (Ok a, set_store s (set_faults rest w))
  | [] => let '(a, s) := op (w_store w) in (Ok a, set_store s w)
  end.

(** [get_client().table(...)....execute()] *)
Definition request {A} (op : store -> A * store) : M A :=
  get_client ;;; execute op.

(** ** [db.py]: tables *)

Definition value_eqb (a b : value) : bool :=
  match a, b with
  | VBool x, VBool y => Bool.eqb x y
  | VInt x, VInt y => x =? y
  | VStr x, VStr y => String.eqb x y
  | VTime x, VTime y => x =? y
  | _, _ => false
  end.

Definition cell_is (k : string) (v : value) (row : gmap string value) : bool :=
  match row !! k with
  | Some v' => value_eqb v' v
  | None => false
  end.

Definition with_jobs (t : list (gmap string value)) (s : store) : store :=
  {| s_jobs := t; s_companies := s_companies s; s_runs := s_runs s;
     s_next_id := s_next_id s |}.

Definition with_companies (t : list company) (s : store) : store :=
  {| s_jobs := s_jobs s; s_companies := t; s_runs := s_runs s;
     s_next_id := s_next_id s |}.

Definition with_runs (t : list scrape_run) (s : store) : store :=
  {| s_jobs := s_jobs s; s_companies := s_companies s; s_runs := t;
     s_next_id := s_next_id s |}.

Definition with_next_id (n : nat) (s : store) : store :=
  {| s_jobs := s_jobs s; s_companies := s_companies s; s_runs := s_runs s;
     s_next_id := n |}.

(** [table("jobs").select("id").eq("url_hash", h)] *)
Definition select_job_ids (h : string) (s : store)
    : list (gmap string value) * store :=
  (map (fun row => match row !! "id" with
                   | Some v => {["id" := v]}
                   | None => ∅
                   end)
       (List.filter (cell_is "url_hash" (VStr h)) (s_jobs s)), s).

(** [table("jobs").insert(row)]: the store gives the row its [id]. *)
Definition insert_job (row : gmap string value) (s : store)
    : list (gmap string value) * store :=
  let row := <["id" := VStr (pretty (s_next_id s))]> row in
  ([row], with_next_id (S (s_next_id s)) (with_jobs (s_jobs s ++ [row]) s)).

(** [table("jobs").update(updates).eq("id", job_id)] *)
Definition update_job (updates : gmap string value) (job_id : value) (s : store)
    : list (gmap string value) * store :=
  let upd row := if cell_is "id" job_id row then updates ∪ row else row in
  (map (fun row => updates ∪ row) (List.filter (cell_is "id" job_id) (s_jobs s)),
   with_jobs (map upd (s_jobs s)) s).

Definition str_truthy (s : option string) : bool :=
  match s with
  | Some s => negb (String.eqb s "")
  | None => false
  end.

Definition strip_s (s : string) : string := Py.text (Py.strip (Py.chars s)).
Definition lower_s (s : string) : string := Py.text (Py.lower (Py.chars s)).

Definition set_if (b : bool) (k : string) (v : value)
    (row : gmap string value) : gmap string value :=
  if b then <[k := v]> row else row.

(** [if x is not None: row[k] = x] *)
Definition set_some {A} (o : option A) (k : string) (f : A -> value)
    (row : gmap string value) : gmap string value :=
  match o with
  | Some a => <[k := f a]> row
  | None => row
  end.

(** [if x: row[k] = ...] for a string [x] *)
Definition set_str (o : option string) (k : string) (f : string -> value)
    (row : gmap string value) : gmap string value :=
  match o with
  | Some a => if String.eqb a "" then row else <[k := f a]> row
  | None => row
  end.

(** The arguments of [upsert_job]. *)
Record job_args := {
  a_url : string;
  a_title : string;
  a_ats_source : string;
  a_company_name : option string;
  a_company_id : option string;
  a_location : option string;
  a_description : option string;
  a_salary_min : option Z;
  a_salary_max : option Z;
  a_remote_type : option string;
  a_seniority : option string;
  a_platform : option string;
  a_category : option string;
  a_tags : option (list string);
  a_easy_apply : bool;
  a_posted_at : option string;
  a_raw_data : option (list (string * json));
}.

Definition valid_remote_type (s : string) : bool :=
  existsb (String.eqb s) ["remote"; "onsite"; "hybrid"; "unknown"]%string.

(** [if x: row[k] = x] for a list or dictionary [x] *)
Definition set_list {A} (o : option (list A)) (k : string) (f : list A -> value)
    (row : gmap string value) : gmap string value :=
  match o with
  | Some (x :: l) => <[k := f (x :: l)]> row
  | _ => row
  end.

(** The [row] dictionary of the insert branch. *)
Definition new_row (a : job_args) (url_h : string) (now : Z) : gmap string value :=
  let row : gmap string value :=
    <["is_active" := VBool true]>
    (<["last_seen" := VTime now]>
    (<["first_seen" := VTime now]>
    (<["ats_source" := VStr (strip_s (lower_s (a_ats_source a)))]>
    (<["title" := VStr (strip_s (a_title a))]>
    (<["url" := VStr (strip_s (a_url a))]>
    (<["url_hash" := VStr url_h]> ∅)))))) in
  let row := set_str (a_company_name a) "company_name" (fun s => VStr (strip_s s)) row in
  let row := set_str (a_company_id a) "company_id" VStr row in
  let row := set_str (a_location a) "location" (fun s => VStr (strip_s s)) row in
  let row := set_str (a_description a) "description"
               (fun s => VStr (strip_s (String.substring 0 500 s))) row in
  let row := set_some (a_salary_min a) "salary_min" VInt row in
  let row := set_some (a_salary_max a) "salary_max" VInt row in
  let row := set_if (str_truthy (a_remote_type a) &&
                     valid_remote_type (default "" (a_remote_type a)))
               "remote_type" (VStr (default "" (a_remote_type a))) row in
  let row := set_str (a_seniority a) "seniority" VStr row in
  let row := set_str (a_platform a) "platform" VStr row in
  let row := set_str (a_category a) "category" VStr row in
  let row := set_list (a_tags a) "tags" VTags row in
  let row := set_if (a_easy_apply a) "easy_apply" (VBool true) row in
  let row := set_str (a_posted_at a) "posted_at" VStr row in
  let row := set_list (a_raw_data a) "raw_data" VRaw row in
  row.

(** The [updates] dictionary of the update branch. *)
Definition job_updates (a : job_args) (now : Z) : gmap string value :=
  let updates : gmap string value :=
    <["is_active" := VBool true]> (<["last_seen" := VTime now]> ∅) in
  let updates := set_str (a_company_id a) "company_id" VStr updates in
  let updates := set_some (a_salary_min a) "salary_min" VInt updates in
  let updates := set_some (a_salary_max a) "salary_max" VInt updates in
  updates.

(** [result.data], where [result] may be the [None] of an exhausted
    [_retry] loop: reading [.data] of [None] raises [AttributeError]. *)
Definition data_of {A} (r : option (list A)) : M (list A) :=
  match r with
  | Some d => ret d
  | None => raise "'NoneType' object has no attribute 'data'"
  end.

Section Db.

Variable check_bracketed_netloc : list ascii -> bool.

Definition hash_url_s (url : string) : M string :=
  match hash_url check_bracketed_netloc (Py.chars url) with
  | Some h => ret (Py.text h)
  | None => raise "Invalid IPv6 URL"
  end.

Definition upsert_job (a : job_args) : M (option (gmap string value) * bool) :=
  url_h <- hash_url_s (a_url a) ;;
  now <- get w_clock ;;
  existing <- _retry (request (select_job_ids url_h)) 3 1 ;;
  existing_data <- data_of existing ;;
  match existing_data with
  | [] =>
      try_except
        (result <- _retry (request (insert_job (new_row a url_h now))) 3 1 ;;
         data <- data_of result ;;
         ret (head data, true))
        (fun e => ret (None, false))
  | first :: _ =>
      match first !! "id" with
      | None => raise "KeyError: 'id'"
      | Some job_id =>
          try_except
            (result <- _retry (request (update_job (job_updates a now) job_id)) 3 1 ;;
             data <- data_of result ;;
             ret (head data, false))
            (fun e => ret (None, false))
      end
  end.

End Db.

(** ** [db.py]: companies and scrape runs *)

Definition opt_eqb (a : option string) (s : string) : bool :=
  match a with
  | Some x => String.eqb x s
  | None => false
  end.

(** [get_verified_companies(ats)] *)
Definition get_verified_companies (ats : option string) : M (list company) :=
  request (fun s =>
    (List.filter
       (fun c =>
          c_verified c &&
          match c_api_url c with Some _ => true | None => false end &&
          (if str_truthy ats
           then opt_eqb (option_map lower_s ats) (c_ats c)
           else true))
       (s_companies s), s)).

(** [update_company(company_id, updates)] with the three fields that
    [run_scraper] refreshes; a failure is logged and swallowed. *)
Definition update_company (company_id : string) (last_scraped_at job_count : Z)
    : M unit :=
  try_except
    (request (fun s =>
       (tt, with_companies
              (map (fun c =>
                 if String.eqb (c_id c) company_id
                 then {| c_id := c_id c; c_slug := c_slug c; c_ats := c_ats c;
                         c_api_url := c_api_url c; c_name := c_name c;
                         c_verified := true;
                         c_last_scraped_at := Some last_scraped_at;
                         c_job_count := Some job_count |}
                 else c) (s_companies s)) s)))
    (fun e => ret tt).

(** [get_job_count(active_only=False)] *)
Definition get_job_count : M Z :=
  request (fun s => (Z.of_nat (length (s_jobs s)), s)).

(** [start_scrape_run(source, config=...)] *)
Definition start_scrape_run (source : string) (company_count : Z) : M string :=
  now <- get w_clock ;;
  request (fun s =>
    let run_id := pretty (s_next_id s) in
    (run_id,
     with_next_id (S (s_next_id s))
       (with_runs (s_runs s ++ [{| r_id := run_id; r_source := source;
                                   r_status := "running"; r_started_at := now;
                                   r_company_count := company_count;
                                   r_totals := None; r_finished_at := None |}])
          s))).

(** [finish_scrape_run(run_id, total_found, new_found, errors, status)] *)
Definition finish_scrape_run (run_id : string) (total_found new_found errors : Z)
    (status : string) : M unit :=
  try_except
    (now <- get w_clock ;;
     request (fun s =>
       (tt, with_runs
              (map (fun r =>
                 if String.eqb (r_id r) run_id
                 then {| r_id := r_id r; r_source := r_source r;
                         r_status := status; r_started_at := r_started_at r;
                         r_company_count := r_company_count r;
                         r_totals := Some (total_found, new_found, errors);
                         r_finished_at := Some now |}
                 else r) (s_runs s)) s)))
    (fun e => ret tt).

(** ** [ats_scraper.py]: checkpoint file *)

Definition load_checkpoint : M checkpoint :=
  file <- get w_file ;;
  match file with
  | Document c => ret c
  | Unreadable => ret empty_checkpoint
  | Absent => ret empty_checkpoint
  end.

Definition save_checkpoint (data : checkpoint) : M unit :=
  modify (fun w =>
    match w_disk w with
    | [] => set_file (Document data) [] w
    | DiskOk :: rest => set_file (Document data) rest w
    | OpenFails :: rest => set_file (w_file w) rest w
    | WriteFails :: rest => set_file Unreadable rest w
    end).

Definition clear_checkpoint : M unit :=
  modify (fun w =>
    match w_disk w with
    | [] => set_file Absent [] w
    | DiskOk :: rest => set_file Absent rest w
    | OpenFails :: rest => set_file (w_file w) rest w
    | WriteFails :: rest => set_file (w_file w) rest w
    end).

(** ** [ats_scraper.py]: fetching one company *)

(** The keys of [PARSERS]. *)
Definition PARSERS : list string :=
  ["greenhouse"; "lever"; "ashby"; "workable"; "smartrecruiters";
   "recruitee"; "dover"; "breezy"; "bamboohr"; "teamtailor"; "pinpoint";
   "rippling"; "personio"; "freshteam"]%string.

(** What [await resp.json(content_type=None)] does with the body of a
    response: it returns a document, or it raises.  The body is read
    after the status line has arrived, so the read can still time out
    ([asyncio.TimeoutError]) or lose the connection (an
    [aiohttp.ClientError] such as [ClientPayloadError]); on text that is
    not JSON the decoder raises.  [e] is the message of the exception. *)
Inductive body :=
| Json (d : json)
| NotJson (e : string)
| ReadTimeout (e : string)
| ReadClientError (e : string).

(** [try: data = await resp.json(content_type=None)
     except Exception as e: ...]: the document, or the message of
    whatever was raised. *)
Definition read_json (b : body) : string + json :=
  match b with
  | Json d => inr d
  | NotJson e => inl e
  | ReadTimeout e => inl e
  | ReadClientError e => inl e
  end.

(** What [session.get] does for one URL: the response arrives with its
    status, or the request raises before there is one. *)
Inductive response :=
| Status (status : Z) (b : body)
| TimeoutError
| ClientError (e : string)
| OtherError (e : string).

(** The tuple returned by [scrape_company], and the requests it sent. *)
Record fetch_result := {
  fr_company_id : string;
  fr_slug : string;
  fr_jobs : list ParsedJob;
  fr_error : option string;
  fr_requests : list string;
}.

(** The counters and the completed set of [run_scraper]. *)
Record loop_state := {
  completed_ids : gset string;
  total_jobs : Z;
  new_jobs : Z;
  error_count : Z;
  companies_with_jobs : Z;
}.

Definition add_completed (company_id : string) (s : loop_state) : loop_state :=
  {| completed_ids := {[company_id]} ∪ completed_ids s;
     total_jobs := total_jobs s; new_jobs := new_jobs s;
     error_count := error_count s;
     companies_with_jobs := companies_with_jobs s |}.

Definition add_error (s : loop_state) : loop_state :=
  {| completed_ids := completed_ids s; total_jobs := total_jobs s;
     new_jobs := new_jobs s; error_count := error_count s + 1;
     companies_with_jobs := companies_with_jobs s |}.

Definition add_found (n : Z) (s : loop_state) : loop_state :=
  {| completed_ids := completed_ids s; total_jobs := total_jobs s + n;
     new_jobs := new_jobs s; error_count := error_count s;
     companies_with_jobs := companies_with_jobs s + 1 |}.

Definition set_new_jobs (n : Z) (s : loop_state) : loop_state :=
  {| completed_ids := completed_ids s; total_jobs := total_jobs s;
     new_jobs := n; error_count := error_count s;
     companies_with_jobs := companies_with_jobs s |}.

(** The dictionary handed to [save_checkpoint]. *)
Definition checkpoint_of (run_id : option string) (s : loop_state) (now : Z)
    : checkpoint :=
  {| ck_completed_ids := Some (elements (completed_ids s));
     ck_run_id := run_id;
     ck_total_jobs := Some (total_jobs s);
     ck_new_jobs := Some (new_jobs s);
     ck_errors := Some (error_count s);
     ck_updated_at := Some now |}.

Definition save_progress (run_id : option string) (s : loop_state) : M unit :=
  now <- get w_clock ;;
  save_checkpoint (checkpoint_of run_id s now).

Definition job_call (job : ParsedJob) (ats_source : string)
    (company_name : option string) (company_id : string) : job_args :=
  {| a_url := url job; a_title := title job; a_ats_source := ats_source;
     a_company_name := company_name; a_company_id := Some company_id;
     a_location := location job; a_description := description job;
     a_salary_min := salary_min job; a_salary_max := salary_max job;
     a_remote_type := Some (remote_type job); a_seniority := seniority job;
     a_platform := None; a_category := category job;
     a_tags := Some (tags job); a_easy_apply := false;
     a_posted_at := posted_at job; a_raw_data := Some (raw_data job) |}.

(** [next((c for c in remaining if c["id"] == company_id), None)] *)
Definition company_info_of (remaining : list company) (company_id : string)
    : option company :=
  List.find (fun c => String.eqb (c_id c) company_id) remaining.

(** [company_info.get("ats", "unknown") if company_info else "unknown"] *)
Definition ats_source_of (company_info : option company) : string :=
  match company_info with Some c => c_ats c | None => "unknown" end.

(** [company_info.get("name") if company_info else None] *)
Definition company_name_of (company_info : option company) : option string :=
  match company_info with Some c => c_name c | None => None end.

(** [companies[:limit]] *)
Definition py_take {A} (limit : Z) (l : list A) : list A :=
  if limit <? 0 then take (length l - Z.to_nat (- limit)) l
  else take (Z.to_nat limit) l.

(** The set-up of [run_scraper]: what was read from the checkpoint, the
    companies selected, and those of them that are left to scrape. *)
Record plan := {
  p_state : loop_state;
  p_run_id : option string;
  p_companies : list company;
  p_remaining : list company;
}.

Section Scraper.

Variable check_bracketed_netloc : list ascii -> bool.

(** [PARSERS[ats].parse_jobs(data, slug)]; [inl e] when the adapter raises. *)
Variable parse_jobs : string -> json -> string -> string + list ParsedJob.

(** The network: the response to a GET of each URL. *)
Variable net : string -> response.

Definition scrape_company (c : company) : fetch_result :=
  let company_id := c_id c in
  let slug := c_slug c in
  let ats := c_ats c in
  let done jobs error requests :=
    {| fr_company_id := company_id; fr_slug := slug; fr_jobs := jobs;
       fr_error := error; fr_requests := requests |} in
  if negb (str_truthy (c_api_url c)) then done [] (Some "no api_url") []
  else
    let api_url := default "" (c_api_url c) in
    if negb (bool_decide (ats ∈ PARSERS))
    then done [] (Some ("no parser for " +:+ ats)) []
    else
      match net api_url with
      | Status status b =>
          if status =? 200 then
            match read_json b with
            | inl e => done [] (Some ("json decode error: " +:+ e)) [api_url]
            | inr data =>
                match parse_jobs ats data slug with
                | inr jobs => done jobs None [api_url]
                | inl e => done [] (Some ("unexpected error: " +:+ e)) [api_url]
                end
            end
          else if status =? 404 then done [] None [api_url]
          else if status =? 429 then done [] (Some "rate limited (429)") [api_url]
          else done [] (Some ("HTTP " +:+ pretty status)) [api_url]
      | TimeoutError => done [] (Some "timeout") [api_url]
      | ClientError e => done [] (Some ("connection error: " +:+ e)) [api_url]
      | OtherError e => done [] (Some ("unexpected error: " +:+ e)) [api_url]
      end.

(** [await asyncio.gather] of the tasks: the results come in the order of the
    tasks, whatever the order of the requests on the wire. *)
Definition gather (remaining : list company) : M (list fetch_result) :=
  let results := map scrape_company remaining in
  modify (fun w => set_requests (w_requests w ++ flat_map fr_requests results) w) ;;;
  ret results.

(** ** [ats_scraper.py]: the run *)

(** [for job in parsed_jobs: ... upsert_job ...; if is_new: new_jobs += 1].
    The counter is a local variable, so its value survives an exception:
    the loop returns it together with the exception, if one escaped. *)
Fixpoint upsert_all (jobs : list ParsedJob) (ats_source : string)
    (company_name : option string) (company_id : string) (new_jobs : Z)
    (w : world) : Z * option string * world :=
  match jobs with
  | [] => (new_jobs, None, w)
  | job :: rest =>
      match upsert_job check_bracketed_netloc
              (job_call job ats_source company_name company_id) w with
      | (Ok (_, is_new), w') =>
          upsert_all rest ats_source company_name company_id
            (if is_new then new_jobs + 1 else new_jobs) w'
      | (Raise e, w') => (new_jobs, Some e, w')
      end
  end.

(** One iteration of [for company_id, slug, parsed_jobs, error in results]. *)
Definition apply_result (remaining : list company) (dry_run : bool)
    (run_id : option string) (r : fetch_result) (s : loop_state)
    : M loop_state :=
  let company_id := fr_company_id r in
  let parsed_jobs := fr_jobs r in
  if str_truthy (fr_error r) then
    ret (add_completed company_id (add_error s))
  else
    match parsed_jobs with
    | [] => ret (add_completed company_id s)
    | _ :: _ =>
        let s := add_found (Z.of_nat (length parsed_jobs)) s in
        let company_info := company_info_of remaining company_id in
        let company_name := company_name_of company_info in
        let ats_source := ats_source_of company_info in
        if dry_run then
          ret (add_completed company_id
                 (set_new_jobs (new_jobs s + Z.of_nat (length parsed_jobs)) s))
        else fun w =>
          match upsert_all parsed_jobs ats_source company_name company_id
                  (new_jobs s) w with
          | (n, None, w') =>
              (now <- get w_clock ;;
               update_company company_id now (Z.of_nat (length parsed_jobs)) ;;;
               let s := add_completed company_id (set_new_jobs n s) in
               (if Z.of_nat (size (completed_ids s)) mod 10 =? 0
                then save_progress run_id s
                else ret tt) ;;;
               ret s) w'
          | (n, Some e, w') =>
              (let s := add_error (set_new_jobs n s) in
               save_progress run_id s ;;;
               raise e) w'
          end
    end.

(** The [for] loop over [results]. *)
Fixpoint apply_results (remaining : list company) (dry_run : bool)
    (run_id : option string) (results : list fetch_result) (s : loop_state)
    : M loop_state :=
  match results with
  | [] => ret s
  | r :: rest =>
      s' <- apply_result remaining dry_run run_id r s ;;
      apply_results remaining dry_run run_id rest s'
  end.

(** The head of [run_scraper], from the checkpoint that was loaded to
    the list [remaining]. *)
Definition select_targets (checkpoint : checkpoint)
    (ats_filter company_filter : option string) (limit : option Z)
    (fresh : bool) : M (option plan) :=
  let completed : gset string :=
    list_to_set (default [] (ck_completed_ids checkpoint)) in
  let run_id := ck_run_id checkpoint in
  let prev_total := default 0 (ck_total_jobs checkpoint) in
  let prev_new := default 0 (ck_new_jobs checkpoint) in
  let prev_errors := default 0 (ck_errors checkpoint) in
  (if fresh then clear_checkpoint else ret tt) ;;;
  let completed := if fresh then ∅ else completed in
  let run_id := if fresh then None else run_id in
  let prev_total := if fresh then 0 else prev_total in
  let prev_new := if fresh then 0 else prev_new in
  let prev_errors := if fresh then 0 else prev_errors in
  companies <- get_verified_companies ats_filter ;;
  let companies :=
    if str_truthy company_filter
    then List.filter (fun c => opt_eqb (option_map lower_s company_filter) (c_slug c))
           companies
    else companies in
  let companies :=
    match limit with
    | Some n => if n =? 0 then companies else py_take n companies
    | None => companies
    end in
  match companies with
  | [] => ret None
  | _ :: _ =>
      let remaining :=
        List.filter (fun c => negb (bool_decide (c_id c ∈ completed))) companies in
      ret (Some {| p_state := {| completed_ids := completed;
                                 total_jobs := prev_total;
                                 new_jobs := prev_new;
                                 error_count := prev_errors;
                                 companies_with_jobs := 0 |};
                   p_run_id := run_id;
                   p_companies := companies;
                   p_remaining := remaining |})
  end.

(** The rest of [run_scraper]: the run log, the fetches, the loop and
    the summary, whose totals it returns. *)
Definition run_plan (dry_run : bool) (p : plan) : M loop_state :=
  run_id <- (if negb dry_run && negb (str_truthy (p_run_id p))
             then r <- start_scrape_run "ats_scraper"
                         (Z.of_nat (length (p_companies p))) ;;
                  ret (Some r)
             else ret (p_run_id p)) ;;
  results <- gather (p_remaining p) ;;
  s <- apply_results (p_remaining p) dry_run run_id results (p_state p) ;;
  (if negb dry_run then get_job_count ;;; ret tt else ret tt) ;;;
  (if negb dry_run && str_truthy run_id
   then finish_scrape_run (default "" run_id) (total_jobs s) (new_jobs s)
          (error_count s) "completed"
   else ret tt) ;;;
  clear_checkpoint ;;;
  ret s.

(** [run_scraper(...)]: [None] when there is no company to scrape. *)
Definition run_scraper (ats_filter company_filter : option string)
    (limit : option Z) (dry_run resume fresh : bool) : M (option loop_state) :=
  checkpoint <- (if resume && negb fresh then load_checkpoint
                 else ret empty_checkpoint) ;;
  p <- select_targets checkpoint ats_filter company_filter limit fresh ;;
  match p with
  | None => ret None
  | Some p => s <- run_plan dry_run p ;; ret (Some s)
  end.

End Scraper.

(** ** Vocabulary of the statements *)

(** A world in which the store answers: the settings are present and no
    fault is scripted. *)
Definition healthy (w : world) : Prop :=
  w_configured w = true /\ w_faults w = [].

(** The stored records with identity key [h]. *)
Definition rows_with (h : string) (s : store) : list (gmap string value) :=
  List.filter (cell_is "url_hash" (VStr h)) (s_jobs s).

(** The keys that the update branch of [upsert_job] may write. *)
Definition mutable_keys : list string :=
  ["last_seen"; "is_active"; "company_id"; "salary_min"; "salary_max"]%string.

(** A row after further observations of its record at the readings [ts]. *)
Definition refreshed_row (a : job_args) (row : gmap string value) (ts : list Z)
    : gmap string value :=
  fold_left (fun r t => job_updates a t ∪ r) ts row.

(** [is_new] of a call that returned. *)
Definition is_new_of {A} (r : result (A * bool)) : option bool :=
  match r with
  | Ok (_, b) => Some b
  | Raise _ => None
  end.

(** The number of connection-class faults at the head of a fault script. *)
Fixpoint leading_connection_faults (l : list (option string)) : nat :=
  match l with
  | Some e :: rest =>
      if is_connection_error e then S (leading_connection_faults rest) else O
  | _ => O
  end.

(** The world without its checkpoint file and disk script. *)
Definition erase_disk (w : world) : world := set_file Absent [] w.

(** The results that count as errors, and the records found. *)
Definition errors_in (results : list fetch_result) : Z :=
  Z.of_nat (length (List.filter (fun r => str_truthy (fr_error r)) results)).

Definition found_in (results : list fetch_result) : Z :=
  Z.of_nat (length (flat_map
    (fun r => if str_truthy (fr_error r) then [] else fr_jobs r) results)).

Section Applications.

Variable check_bracketed_netloc : list ascii -> bool.

(** [upsert_job(a)] called once at each of the given clock readings. *)
Fixpoint upsert_at (a : job_args) (times : list Z) (w : world)
    : list (result (option (gmap string value) * bool)) * world :=
  match times with
  | [] => ([], w)
  | t :: ts =>
      let '(r, w1) := upsert_job check_bracketed_netloc a (set_clock t w) in
      let '(rs, w2) := upsert_at a ts w1 in
      (r :: rs, w2)
  end.

End Applications.

(** The world after a call of [get_client]. *)
Definition after_get_client (w : world) : world := snd (get_client w).

(** The world in which a retried attempt starts: after the sleep and
    with [_request_count] forced to the reset threshold. *)
Definition before_retry (d : Z) (w : world) : world :=
  set_request_count _MAX_REQUESTS_BEFORE_RESET (set_sleeps (w_sleeps w ++ [d]) w).

(** Two worlds that agree on everything but the checkpoint file and the
    outcomes of the coming writes to it. *)
Definition same_but_disk (w1 w2 : world) : Prop :=
  erase_disk w1 = erase_disk w2.

(** A computation that neither reads the checkpoint file nor depends on
    how writes to it end. *)
Definition disk_blind {A} (m : M A) : Prop :=
  forall w1 w2, same_but_disk w1 w2 ->
    fst (m w1) = fst (m w2) /\ same_but_disk (snd (m w1)) (snd (m w2)).

(** The dictionary that [run_scraper] starts from: the checkpoint file
    when it resumes and the file is there and readable, and the empty
    dictionary otherwise. *)
Definition loaded_checkpoint (resume fresh : bool) (w : world) : checkpoint :=
  if resume && negb fresh then
    match w_file w with
    | Document c => c
    | Unreadable => empty_checkpoint
    | Absent => empty_checkpoint
    end
  else empty_checkpoint.

(** A computation that sends no HTTP request. *)
Definition quiet {A} (m : M A) : Prop :=
  forall w, w_requests (snd (m w)) = w_requests w.

(** ** Concrete inputs *)

Module Examples.
Import UrlShape.

Definition a_company (id slug ats : string) (api_url : option string) : company :=
  {| c_id := id; c_slug := slug; c_ats := ats; c_api_url := api_url;
     c_name := Some slug; c_verified := true;
     c_last_scraped_at := None; c_job_count := None |}.

Definition a_job (u t : string) : ParsedJob :=
  {| url := u; title := t; location := None; description := None;
     salary_min := None; salary_max := None; salary_currency := "USD";
     remote_type := "unknown"; seniority := None; category := None;
     tags := []; posted_at := None; raw_data := [] |}.

(** An adapter that reads a list of posting URLs. *)
Definition url_list_adapter (ats : string) (d : json) (slug : string)
    : string + list ParsedJob :=
  match d with
  | JArr l =>
      inr (flat_map (fun j => match j with
                              | JStr u => [a_job u "Engineer"]
                              | _ => []
                              end) l)
  | _ => inr []
  end.

(** A world with a working store and disk, and the given companies. *)
Definition a_world (companies : list company) : world :=
  {| w_store := {| s_jobs := []; s_companies := companies; s_runs := [];
                   s_next_id := 0 |};
     w_configured := true; w_client := None; w_request_count := 0;
     w_clients_created := 0; w_faults := []; w_sleeps := []; w_requests := [];
     w_clock := 100; w_file := Absent; w_disk := [] |}.

Definition fresh_state : loop_state :=
  {| completed_ids := ∅; total_jobs := 0; new_jobs := 0; error_count := 0;
     companies_with_jobs := 0 |}.

Definition posting : job_args :=
  {| a_url := "https://boards.example.com/acme/jobs/7?utm_source=feed";
     a_title := " Site Reliability Engineer ";
     a_ats_source := "Greenhouse";
     a_company_name := Some "Acme"; a_company_id := Some "c-1";
     a_location := Some "Remote"; a_description := None;
     a_salary_min := Some 120000; a_salary_max := None;
     a_remote_type := Some "remote"; a_seniority := None;
     a_platform := None; a_category := None; a_tags := Some [];
     a_easy_apply := false; a_posted_at := None; a_raw_data := Some [] |}.

Definition posting_key : list ascii :=
  Eval vm_compute in
    default [] (hash_url no_bracket_check (Py.chars (a_url posting))).

Definition lever_co : company :=
  a_company "c-1" "acme" "lever" (Some "https://api.lever.co/v0/postings/acme").
Definition no_endpoint_co : company := a_company "c-2" "bolt" "lever" (Some "").
Definition no_adapter_co : company :=
  a_company "c-3" "crate" "taleo" (Some "https://crate.taleo.net/jobs").

(** Every endpoint answers 404. *)
Definition net_404 (u : string) : response := Status 404 (NotJson "").

(** Every endpoint answers 429. *)
Definition net_429 (u : string) : response := Status 429 (NotJson "").

(** Every endpoint lists one posting, named after the endpoint. *)
Definition net_one_job (u : string) : response :=
  Status 200 (Json (JArr [JStr (u +:+ "/1")])).

(** Ten companies, numbered from 0, with a lever endpoint each. *)
Definition ten_companies : list company :=
  map (fun i : nat =>
         a_company ("c-" +:+ pretty i) ("co" +:+ pretty i) "lever"
           (Some ("https://api.lever.co/v0/postings/co" +:+ pretty i)))
      (seq 0 10).


(** A checkpoint written after the first four of the ten companies. *)
Definition a_checkpoint : checkpoint :=
  {| ck_completed_ids := Some ["c-0"; "c-1"; "c-2"; "c-3"]%string;
     ck_run_id := Some "run-9"%string;
     ck_total_jobs := Some 31; ck_new_jobs := Some 5; ck_errors := Some 1;
     ck_updated_at := Some 90 |}.

(** The first nine endpoints list one posting each; the tenth answers 429. *)
Definition net_tenth_fails (u : string) : response :=
  if String.eqb u "https://api.lever.co/v0/postings/co9"
  then Status 429 (NotJson "")
  else net_one_job u.

(** Every endpoint answers 200, and the read of the body then times out,
    or ends before the payload is complete. *)
Definition net_slow_body (u : string) : response := Status 200 (ReadTimeout "").
Definition net_cut_body (u : string) : response :=
  Status 200 (ReadClientError "Response payload is not completed").

(** No endpoint answers in time. *)
Definition net_timeout (u : string) : response := TimeoutError.

(** The lookup answers; the insert then fails three times with a
    connection error. *)
Definition insert_fails : list (option string) :=
  [None; Some "ConnectionReset by peer"; Some "ConnectionReset by peer";
   Some "ConnectionReset by peer"]%string.

(** Two connection errors, then an answer. *)
Definition two_resets : list (option string) :=
  [Some "ConnectionReset by peer";
   Some "RemoteProtocolError: server disconnected"; None]%string.

(** Three connection errors, then an answer. *)
Definition three_resets : list (option string) :=
  [Some "ConnectionReset by peer"; Some "ConnectionReset by peer";
   Some "ConnectionReset by peer"; None]%string.

End Examples.
(** ** Vocabulary of the further properties *)

(** [n] calls of [get_client] in a row. *)
Fixpoint get_client_times (n : nat) : M unit :=
  match n with
  | O => ret tt
  | S k => get_client ;;; get_client_times k
  end.

(** The calls served so far, counted from the clients created and the
    count of the current one. *)
Definition served (w : world) : Z :=
  5000 * Z.of_nat (w_clients_created w) + w_request_count w.

(** The state between two calls of [get_client] that find the settings. *)
Definition serving (w : world) : Prop :=
  w_configured w = true /\ w_client w = Some (w_clients_created w) /\
  1 <= w_request_count w <= 5000.

(** A digit of [hexdigest]. *)
Definition is_hex_digit (c : ascii) : bool :=
  existsb (Ascii.eqb c) (Py.chars "0123456789abcdef").

(** The identity keys in the jobs table, in row order. *)
Definition job_keys (s : store) : list string :=
  omap (fun row : gmap string value =>
          match row !! "url_hash" with
          | Some (VStr h) => Some h
          | _ => None
          end) (s_jobs s).

(** ** [db.py]: batches and cleanup *)

Section Batch.

Variable check_bracketed_netloc : list ascii -> bool.

(** The loop of [bulk_upsert_jobs] with its two counters; each
    dictionary of the batch is given as the arguments it holds. *)
Fixpoint bulk_loop (jobs : list job_args) (new_count updated_count : Z)
    : M (Z * Z) :=
  match jobs with
  | [] => ret (new_count, updated_count)
  | job :: rest =>
      r <- upsert_job check_bracketed_netloc job ;;
      if snd r then bulk_loop rest (new_count + 1) updated_count
      else bulk_loop rest new_count (updated_count + 1)
  end.

(** [bulk_upsert_jobs(jobs)] *)
Definition bulk_upsert_jobs (jobs : list job_args) : M (Z * Z) :=
  bulk_loop jobs 0 0.

End Batch.

(** Clock readings count microseconds from 1970-01-01T00:00:00 UTC;
    [datetime] reaches from year 1 to the end of year 9999. *)
Definition microseconds_per_hour : Z := 3600000000.
Definition microseconds_per_day : Z := 24 * microseconds_per_hour.
Definition datetime_min : Z := -62135596800000000.
Definition datetime_max : Z := 253402300799999999.

(** [timedelta(...)] of [us] microseconds: its days must fit a C [int]
    and must not exceed 999999999 in magnitude. *)
Definition timedelta (us : Z) : M Z :=
  let days := us / microseconds_per_day in
  if (days <? - 2 ^ 31) || (2 ^ 31 - 1 <? days)
  then raise "Python int too large to convert to C int"
  else if 999999999 <? Z.abs days
  then raise ("days=" +:+ pretty days +:+ "; must have magnitude <= 999999999")
  else ret us.

(** [now - delta] on [datetime] values *)
Definition datetime_sub (now delta : Z) : M Z :=
  let t := now - delta in
  if (t <? datetime_min) || (datetime_max <? t)
  then raise "date value out of range"
  else ret t.

(** [.lt(k, cutoff)] on a timestamp column; a row without the cell does
    not match. *)
Definition cell_before (k : string) (cutoff : Z) (row : gmap string value) : bool :=
  match row !! k with
  | Some (VTime t) => t <? cutoff
  | _ => false
  end.

(** [table("jobs").delete().lt("first_seen", cutoff)]: the deleted rows
    are returned. *)
Definition delete_jobs_before (cutoff : Z) (s : store)
    : list (gmap string value) * store :=
  (List.filter (cell_before "first_seen" cutoff) (s_jobs s),
   with_jobs (List.filter (fun row => negb (cell_before "first_seen" cutoff row))
                (s_jobs s)) s).

(** [delete_old_jobs(days)] *)
Definition delete_old_jobs (days : Z) : M Z :=
  now <- get w_clock ;;
  delta <- timedelta (days * microseconds_per_day) ;;
  cutoff <- datetime_sub now delta ;;
  try_except
    (data <- request (delete_jobs_before cutoff) ;;
     ret (Z.of_nat (length data)))
    (fun e => ret 0).

(** The filter [.eq("is_active", True).lt("last_seen", cutoff)] *)
Definition is_stale (cutoff : Z) (row : gmap string value) : bool :=
  cell_is "is_active" (VBool true) row && cell_before "last_seen" cutoff row.

(** A row after [.update({"is_active": False})] under that filter. *)
Definition deactivated (cutoff : Z) (row : gmap string value)
    : gmap string value :=
  if is_stale cutoff row then {["is_active" := VBool false]} ∪ row else row.

(** [table("jobs").update({"is_active": False}).eq("is_active", True)
    .lt("last_seen", cutoff)]: the updated rows are returned. *)
Definition deactivate_jobs_before (cutoff : Z) (s : store)
    : list (gmap string value) * store :=
  (map (deactivated cutoff) (List.filter (is_stale cutoff) (s_jobs s)),
   with_jobs (map (deactivated cutoff) (s_jobs s)) s).

(** [mark_inactive_jobs(hours)] *)
Definition mark_inactive_jobs (hours : Z) : M Z :=
  now <- get w_clock ;;
  delta <- timedelta (hours * microseconds_per_hour) ;;
  cutoff <- datetime_sub now delta ;;
  try_except
    (data <- request (deactivate_jobs_before cutoff) ;;
     ret (Z.of_nat (length data)))
    (fun e => ret 0).

(** ** [ats_scraper.py]: the command line *)

(** The namespace that [parse_args] returns. *)
Record cli_args := {
  arg_ats : option string;
  arg_company : option string;
  arg_limit : option Z;
  arg_dry_run : bool;
  arg_resume : bool;
  arg_fresh : bool;
}.

Section Cli.

Variable check_bracketed_netloc : list ascii -> bool.
Variable parse_jobs : string -> json -> string -> string + list ParsedJob.
Variable net : string -> response.

(** [main()], after the arguments were parsed. *)
Definition main (args : cli_args) : M (option loop_state) :=
  file <- get w_file ;;
  let checkpoint_exists :=
    match file with Absent => false | _ => true end in
  let auto_resume :=
    negb (arg_fresh args) && negb (arg_resume args) && checkpoint_exists in
  run_scraper check_bracketed_netloc parse_jobs net
    (arg_ats args) (arg_company args) (arg_limit args) (arg_dry_run args)
    (arg_resume args || auto_resume) (arg_fresh args).

End Cli.

(** ** [parsers/__init__.py]: labels inferred from the text of a posting *)

(** [any(k in t for k in keys)] *)
Definition any_in (keys : list string) (t : list ascii) : bool :=
  existsb (fun k => Py.is_infix (Py.chars k) t) keys.

(** [detect_remote_type(title, location, metadata)]; the last argument
    is the text [str(metadata or {})], of which only substrings are
    tested. *)
Definition detect_remote_type (title : string) (location : option string)
    (metadata_text : string) : string :=
  let location_or_empty := default "" location in
  let text := Py.lower (Py.chars (title +:+ " " +:+ location_or_empty)) in
  let meta_str := Py.lower (Py.chars metadata_text) in
  if any_in ["hybrid"] text || any_in ["hybrid"] meta_str then "hybrid"
  else if any_in ["remote"] text || any_in ["remote"] meta_str then "remote"
  else if any_in ["on-site"] text || any_in ["onsite"] text ||
          any_in ["in-office"] text then "onsite"
  else if any_in ["on-site"] meta_str || any_in ["onsite"] meta_str then "onsite"
  else "unknown".

(** [detect_seniority(title)] *)
Definition detect_seniority (title : string) : string :=
  let t := Py.lower (Py.chars title) in
  if any_in ["intern "; "internship"] t then "intern"
  else if any_in ["junior"; "jr."; "jr "; "entry level"; "entry-level";
                  "new grad"] t then "junior"
  else if any_in ["senior"; "sr."; "sr "; "lead"; "principal"; "staff"] t
  then "senior"
  else if any_in ["director"; "vp "; "vice president"; "head of"; "chief"] t
  then "director"
  else if any_in ["manager"; "engineering manager"] t then "manager"
  else "mid".

(** ** More vocabulary *)

(** The companies that [run_scraper] takes from the table [companies]:
    what [get_verified_companies(ats=ats_filter)] returns, of these the
    companies with the slug asked for, cut to [limit]. *)
Definition selected_companies (ats_filter company_filter : option string)
    (limit : option Z) (table : list company) : list company :=
  let companies :=
    List.filter
      (fun c =>
         c_verified c &&
         match c_api_url c with Some _ => true | None => false end &&
         (if str_truthy ats_filter
          then opt_eqb (option_map lower_s ats_filter) (c_ats c)
          else true))
      table in
  let companies :=
    if str_truthy company_filter
    then List.filter (fun c => opt_eqb (option_map lower_s company_filter) (c_slug c))
           companies
    else companies in
  match limit with
  | Some n => if n =? 0 then companies else py_take n companies
  | None => companies
  end.

(** The companies of a list whose id is not in [ids]. *)
Definition not_completed (ids : gset string) (companies : list company)
    : list company :=
  List.filter (fun c => negb (bool_decide (c_id c ∈ ids))) companies.

(** Every row of the jobs table has an [id]. *)
Definition rows_have_id (s : store) : Prop :=
  Forall (fun row : gmap string value => is_Some (row !! "id")) (s_jobs s).

(** The keys of [ks] that are not in [seen], each once, in the order in
    which they first occur. *)
Fixpoint fresh_keys (seen ks : list string) : list string :=
  match ks with
  | [] => []
  | k :: rest =>
      if bool_decide (k ∈ seen) then fresh_keys seen rest
      else k :: fresh_keys (seen ++ [k]) rest
  end.

(** A computation that keeps an invariant of the world, whether it
    returns or raises. *)
Definition preserves (I : world -> Prop) {A} (m : M A) : Prop :=
  forall w, I w -> I (snd (m w)).

(** An invariant that does not depend on the client, its request count
    and the sleeps, and that consuming a scripted fault cannot break. *)
Record frame_invariant (I : world -> Prop) : Prop := {
  fi_client : forall w c n, I w -> I (set_client c n w);
  fi_count : forall w n, I w -> I (set_request_count n w);
  fi_sleeps : forall w l, I w -> I (set_sleeps l w);
  fi_fault : forall w o rest, w_faults w = o :: rest -> I w -> I (set_faults rest w);
}.

(** ... that writes to the checkpoint file keep, that does not depend
    on the HTTP requests sent, or on the store but for its run log, or on
    the store at all. *)
Definition checkpoint_safe (I : world -> Prop) : Prop :=
  (forall data, preserves I (save_checkpoint data)) /\
  preserves I clear_checkpoint.
Definition file_free (I : world -> Prop) : Prop :=
  forall w f d, I w -> I (set_file f d w).
Definition requests_free (I : world -> Prop) : Prop :=
  forall w l, I w -> I (set_requests l w).
Definition runs_only (I : world -> Prop) : Prop :=
  forall w s', s_runs s' = s_runs (w_store w) -> I w -> I (set_store s' w).
Definition store_free (I : world -> Prop) : Prop :=
  forall w s', I w -> I (set_store s' w).

(** * Proofs *)

(** ** SHA-256 test vectors (FIPS 180-4, appendix B) *)

Module ShaFacts.

Example sha256_abc :
  Py.text (Sha256.hexdigest (utf8_encode (Py.chars "abc"))) =
  "ba7816bf8f01cfea414140de5dae2223b00361a396177a9cb410ff61f20015ad"%string.
Proof. vm_compute. reflexivity. Qed.

Example sha256_two_blocks :
  Py.text (Sha256.hexdigest (utf8_encode
    (Py.chars "abcdbcdecdefdefgefghfghighijhijkijkljklmklmnlmnomnopnopq"))) =
  "248d6a61d20638b8e5c026930c3e6039a33ce45964ff2167f6ecedd419db06c1"%string.
Proof. vm_compute. reflexivity. Qed.

Example round_constants :
  length Sha256.K = 64%nat /\ nth 0 Sha256.K 0 = 0x428a2f98 /\
  nth 63 Sha256.K 0 = 0xc67178f2 /\ nth 0 Sha256.H0 0 = 0x6a09e667.
Proof. repeat split; reflexivity. Qed.

End ShaFacts.



(** ** Characters *)

Module CharFacts.
Import Py UrlLib UrlShape.

Ltac by_cases_on c :=
  destruct c as [[] [] [] [] [] [] [] []]; vm_compute; try reflexivity;
  try discriminate; auto.

Lemma lower_char_idem c : lower_char (lower_char c) = lower_char c.
Proof. by_cases_on c. Qed.


Lemma scheme_char_not_colon c : is_scheme_char c = true -> is_char ":" c = false.
Proof. by_cases_on c. Qed.

Lemma scheme_char_lower c :
  is_scheme_char c = true -> is_scheme_char (lower_char c) = true.
Proof. by_cases_on c. Qed.

Lemma alpha_lower c : is_alpha c = true -> is_alpha (lower_char c) = true.
Proof. by_cases_on c. Qed.

Lemma host_char_lower c : host_char c = true -> host_char (lower_char c) = true.
Proof. by_cases_on c. Qed.


Lemma url_char_not_c0 c : url_char c = true -> is_c0_or_space c = false.
Proof. by_cases_on c. Qed.





Lemma host_char_not_delim c : host_char c = true -> is_netloc_delim c = false.
Proof. by_cases_on c. Qed.

Lemma host_char_not c : host_char c = true ->
  is_char "@" c = false /\ is_char ":" c = false /\
  is_char "[" c = false /\ is_char "]" c = false.
Proof. by_cases_on c. Qed.



Lemma alpha_not_blank c :
  is_alpha c = true -> is_c0_or_space c = false /\ is_space c = false.
Proof. by_cases_on c. Qed.

Lemma scheme_char_safe c : is_scheme_char c = true -> is_unsafe c = false.
Proof. by_cases_on c. Qed.

Lemma lower_char_unsafe c : is_unsafe (lower_char c) = is_unsafe c.
Proof. by_cases_on c. Qed.

Lemma lower_char_delim c : is_netloc_delim (lower_char c) = is_netloc_delim c.
Proof. by_cases_on c. Qed.

Lemma lower_char_at c : is_char "@" (lower_char c) = is_char "@" c.
Proof. by_cases_on c. Qed.

Lemma delim_cases c :
  is_netloc_delim c = true -> is_char "?" c = false -> is_char "#" c = false ->
  is_char "/" c = true.
Proof. by_cases_on c. Qed.


Lemma host_mark_not c : is_host_mark c = false ->
  is_char ":" c = false /\ is_char "[" c = false /\ is_char "]" c = false.
Proof. by_cases_on c. Qed.

End CharFacts.

(** ** Splitting and stripping *)

Module PyFacts.
Import Py UrlShape.

Lemma none_of_app p a b : none_of p (a ++ b) = none_of p a && none_of p b.
Proof. apply forallb_app. Qed.

Lemma none_of_weaken (p q : ascii -> bool) s :
  (forall c, q c = true -> p c = false) ->
  forallb q s = true -> none_of p s = true.
Proof.
  intros Hpq. induction s as [|c s IH]; simpl; [reflexivity|].
  intros [Hc Hs]%andb_prop. by rewrite (Hpq c Hc), IH.
Qed.


Lemma break_app p a b :
  none_of p a = true -> stops_at p b = true -> break p (a ++ b) = (a, b).
Proof.
  intros Ha Hb. induction a as [|c a IH]; simpl in *.
  - destruct b as [|c b]; simpl in *; [reflexivity|]. by rewrite Hb.
  - apply andb_prop in Ha as [Hc Ha].
    apply negb_true_iff in Hc. by rewrite Hc, (IH Ha).
Qed.

Lemma break_none p a : none_of p a = true -> break p a = (a, []).
Proof.
  intros Ha. rewrite <- (app_nil_r a) at 1. by apply break_app.
Qed.

(** What [break] returns, for every input. *)
Lemma break_spec p s a b :
  break p s = (a, b) ->
  s = a ++ b /\ none_of p a = true /\ stops_at p b = true.
Proof.
  revert a b. induction s as [|c s IH]; simpl; intros a b.
  - by intros [= <- <-].
  - destruct (p c) eqn:Hc.
    + intros [= <- <-]. simpl. by rewrite Hc.
    + destruct (break p s) as [a' b'] eqn:E. intros [= <- <-].
      destruct (IH _ _ eq_refl) as (-> & Ha & Hb). simpl.
      by rewrite Hc, Ha.
Qed.

Lemma partition_sep c a b :
  none_of (is_char c) a = true -> partition c (a ++ c :: b) = (a, true, b).
Proof.
  intros Ha. unfold partition. rewrite break_app; [done|done|].
  simpl. unfold is_char. apply Ascii.eqb_refl.
Qed.

Lemma partition_none c a :
  none_of (is_char c) a = true -> partition c a = (a, false, []).
Proof. intros Ha. unfold partition. by rewrite break_none. Qed.

(** [partition] cuts its argument and loses nothing but the separator. *)
Lemma partition_spec c s a flag b :
  partition c s = (a, flag, b) ->
  s = a ++ (if flag then [c] else []) ++ b /\ none_of (is_char c) a = true.
Proof.
  unfold partition. destruct (break (is_char c) s) as [a' b'] eqn:E.
  destruct (break_spec _ _ _ _ E) as (-> & Ha & Hb).
  destruct b' as [|c' b']; intros [= <- <- <-].
  - by rewrite !app_nil_r.
  - simpl in Hb. apply Ascii.eqb_eq in Hb as ->. done.
Qed.

Lemma none_of_rev p s : none_of p (rev s) = none_of p s.
Proof.
  unfold none_of. induction s as [|c s IH]; simpl; [done|].
  rewrite forallb_app, IH. simpl. rewrite andb_true_r. apply andb_comm.
Qed.

Lemma rpartition_none c a :
  none_of (is_char c) a = true -> rpartition c a = ([], false, a).
Proof.
  intros Ha. unfold rpartition. rewrite break_none; [done|].
  by rewrite none_of_rev.
Qed.

Lemma drop_while_stop p s : stops_at (fun c => negb (p c)) s = true ->
  drop_while p s = s.
Proof.
  destruct s as [|c s]; simpl; [done|]. intros Hc.
  apply negb_true_iff in Hc. by rewrite Hc.
Qed.

Lemma drop_while_none p s : none_of p s = true -> drop_while p s = s.
Proof.
  intros Hs. apply drop_while_stop. destruct s; simpl in *; [done|].
  by apply andb_prop in Hs as [? ?].
Qed.

Lemma lstrip_none p s : none_of p s = true -> lstrip p s = s.
Proof. apply drop_while_none. Qed.

Lemma rstrip_none p s : none_of p s = true -> rstrip p s = s.
Proof.
  intros Hs. unfold rstrip. rewrite drop_while_none, ?rev_involutive; [done|].
  by rewrite none_of_rev.
Qed.

Lemma strip_none s : none_of is_space s = true -> strip s = s.
Proof. intros Hs. unfold strip. by rewrite lstrip_none, rstrip_none. Qed.

Lemma drop_while_all p s : forallb p s = true -> drop_while p s = [].
Proof.
  induction s as [|c s IH]; simpl; [done|].
  intros [Hc Hs]%andb_prop. by rewrite Hc, IH.
Qed.

Lemma drop_while_app_all p a b :
  forallb p a = true -> drop_while p (a ++ b) = drop_while p b.
Proof.
  induction a as [|c a IH]; simpl; [done|].
  intros [Hc Ha]%andb_prop. by rewrite Hc, IH.
Qed.

(** Trailing characters that are stripped do not matter. *)
Lemma rstrip_app_all p s t : forallb p t = true -> rstrip p (s ++ t) = rstrip p s.
Proof.
  intros Ht. unfold rstrip. rewrite rev_app_distr, drop_while_app_all; [done|].
  rewrite forallb_forall in *. intros c Hc. apply Ht. by apply in_rev.
Qed.

Lemma drop_while_idem p s : drop_while p (drop_while p s) = drop_while p s.
Proof.
  induction s as [|c s IH]; simpl; [done|].
  destruct (p c) eqn:Hc; [done|]. simpl. by rewrite Hc.
Qed.

Lemma rstrip_idem p s : rstrip p (rstrip p s) = rstrip p s.
Proof. unfold rstrip. by rewrite rev_involutive, drop_while_idem. Qed.

Lemma drop_while_suffix p s : exists a, s = a ++ drop_while p s.
Proof.
  induction s as [|c s [a IH]]; simpl.
  - by exists [].
  - destruct (p c).
    + exists (c :: a). simpl. by rewrite <- IH.
    + by exists [].
Qed.

(** [rstrip] returns a prefix of its argument. *)
Lemma rstrip_prefix p s : exists t, s = rstrip p s ++ t.
Proof.
  unfold rstrip. destruct (drop_while_suffix p (rev s)) as [a Ha].
  exists (rev a). rewrite <- rev_app_distr, <- Ha. by rewrite rev_involutive.
Qed.

Lemma filter_none (p : ascii -> bool) s :
  forallb p s = true -> List.filter p s = s.
Proof.
  induction s as [|c s IH]; simpl; [done|].
  intros [Hc Hs]%andb_prop. by rewrite Hc, IH.
Qed.

Lemma lower_idem s : lower (lower s) = lower s.
Proof.
  unfold lower. rewrite map_map. apply map_ext. apply CharFacts.lower_char_idem.
Qed.

Lemma lower_app a b : lower (a ++ b) = lower a ++ lower b.
Proof. apply map_app. Qed.

Lemma contains_none c s : none_of (is_char c) s = true -> contains c s = false.
Proof.
  unfold contains, none_of. induction s as [|x s IH]; simpl; [done|].
  intros [Hx Hs]%andb_prop. apply negb_true_iff in Hx. by rewrite Hx, IH.
Qed.

Lemma forallb_drop (p : ascii -> bool) n s :
  forallb p s = true -> forallb p (drop n s) = true.
Proof.
  revert n. induction s as [|c s IH]; intros [|n]; simpl; try done.
  intros [_ Hs]%andb_prop. by apply IH.
Qed.

Lemma none_of_prefix p a t : none_of p (a ++ t) = true -> none_of p a = true.
Proof. rewrite none_of_app. by intros [? _]%andb_prop. Qed.

Lemma none_of_suffix p a t : none_of p (a ++ t) = true -> none_of p t = true.
Proof. rewrite none_of_app. by intros [_ ?]%andb_prop. Qed.

Lemma none_of_infix p l m r :
  none_of p (l ++ m ++ r) = true -> none_of p m = true.
Proof. intros H. by apply none_of_suffix, none_of_prefix in H. Qed.

Lemma stops_at_prefix p a t : stops_at p (a ++ t) = true -> stops_at p a = true.
Proof. by destruct a. Qed.

Lemma none_of_lower p s :
  (forall c, p (lower_char c) = p c) ->
  none_of p (lower s) = none_of p s.
Proof.
  intros Hp. unfold none_of, lower. induction s as [|c s IH]; simpl; [done|].
  by rewrite Hp, IH.
Qed.

Lemma none_of_filter p s : none_of p (List.filter (fun c => negb (p c)) s) = true.
Proof.
  unfold none_of. induction s as [|c s IH]; simpl; [done|].
  destruct (p c) eqn:Hc; simpl; [done|]. by rewrite Hc.
Qed.

(** [rpartition] cuts at a separator that the last part does not hold. *)
Lemma rpartition_spec c s a flag b :
  rpartition c s = (a, flag, b) ->
  (flag = true /\ s = a ++ c :: b /\ none_of (is_char c) b = true) \/
  (flag = false /\ a = [] /\ b = s /\ none_of (is_char c) s = true).
Proof.
  unfold rpartition. destruct (break (is_char c) (rev s)) as [a' b'] eqn:E.
  destruct (break_spec _ _ _ _ E) as (Hs & Ha & Hb).
  destruct b' as [|c' b']; intros [= <- <- <-].
  - right. rewrite app_nil_r in Hs. subst a'. by rewrite none_of_rev in Ha.
  - left. simpl in Hb. apply Ascii.eqb_eq in Hb as <-.
    apply (f_equal (@rev ascii)) in Hs. rewrite rev_involutive in Hs.
    rewrite Hs, rev_app_distr. simpl. rewrite <- app_assoc.
    by rewrite none_of_rev.
Qed.

Lemma rstrip_stop p s :
  stops_at (fun c => negb (p c)) (rev s) = true -> rstrip p s = s.
Proof.
  intros Hs. unfold rstrip. by rewrite drop_while_stop, rev_involutive.
Qed.

Lemma strip_visible c s :
  is_space c = false -> ends_visible (c :: s) = true -> strip (c :: s) = c :: s.
Proof.
  intros Hc Hs. unfold strip, lstrip. simpl. rewrite Hc. by apply rstrip_stop.
Qed.

(** The last character of a text that does not end its second part
    early. *)
Lemma ends_visible_app a b :
  b <> [] -> ends_visible (a ++ b) = ends_visible b.
Proof.
  intros Hb. unfold ends_visible. rewrite rev_app_distr.
  destruct (rev b) as [|c r] eqn:E; [|done].
  apply (f_equal (@rev ascii)) in E. by rewrite rev_involutive in E.
Qed.

End PyFacts.
(** ** Parsing a URL that [build] has joined *)

Section UrlFacts.
Import Py UrlLib UrlShape PyFacts CharFacts.

Variable check_bracketed_netloc : list ascii -> bool.

Lemma wf_scheme_inv sch :
  wf_scheme sch = true ->
  exists c pre, sch = c :: pre /\ is_alpha c = true /\
                forallb is_scheme_char (c :: pre) = true.
Proof.
  destruct sch as [|c pre]; simpl; [done|].
  intros [Hc Hs]%andb_prop. by exists c, pre.
Qed.

Lemma wf_scheme_chars sch :
  wf_scheme sch = true -> forallb is_scheme_char sch = true.
Proof. by intros (c & pre & -> & _ & ?)%wf_scheme_inv. Qed.

Lemma wf_scheme_lower sch : wf_scheme sch = true -> wf_scheme (lower sch) = true.
Proof.
  intros (c & pre & -> & Hc & Hall)%wf_scheme_inv.
  unfold wf_scheme. cbn [lower map]. rewrite (alpha_lower _ Hc).
  change (forallb is_scheme_char (lower (c :: pre)) = true).
  unfold lower. rewrite forallb_forall in *. intros x (y & <- & Hy)%in_map_iff.
  by apply scheme_char_lower, Hall.
Qed.

Lemma readable_inv sch host path q f :
  readable sch host path q f = true ->
  wf_scheme sch = true /\ bare_host host = true /\ plain_path path = true /\
  wf_opt (fun c => negb (is_char "#" c)) q = true /\
  none_of is_unsafe (build sch host path q f) = true /\
  ends_visible (build sch host path q f) = true.
Proof.
  unfold readable.
  by intros [[[[[? ?]%andb_prop ?]%andb_prop ?]%andb_prop ?]%andb_prop ?]%andb_prop.
Qed.

Lemma bare_host_inv host :
  bare_host host = true ->
  none_of is_netloc_delim host = true /\ none_of (is_char "@") host = true /\
  none_of (is_char ":") host = true /\ none_of (is_char "[") host = true /\
  none_of (is_char "]") host = true.
Proof.
  unfold bare_host. intros [[Hd Ha]%andb_prop Hm]%andb_prop.
  split; [done|split; [done|]].
  assert (forallb (fun c => negb (is_host_mark c)) host = true) as Hm' by done.
  repeat split; revert Hm'; apply none_of_weaken; intros c Hc;
    apply negb_true_iff, host_mark_not in Hc; tauto.
Qed.

Lemma plain_path_inv path :
  plain_path path = true ->
  stops_at (is_char "/") path = true /\ none_of (is_char "?") path = true /\
  none_of (is_char "#") path = true /\ none_of (is_char ";") path = true.
Proof.
  unfold plain_path. by intros [[[? ?]%andb_prop ?]%andb_prop ?]%andb_prop.
Qed.

Lemma split_scheme_build sch rest :
  wf_scheme sch = true ->
  split_scheme (sch ++ ":"%char :: rest) = (lower sch, rest).
Proof.
  intros Hs. pose proof Hs as (c & pre & -> & Hc & Hall)%wf_scheme_inv.
  unfold split_scheme. rewrite break_app.
  - by rewrite Hc, Hall.
  - revert Hall. apply none_of_weaken, scheme_char_not_colon.
  - reflexivity.
Qed.

Lemma stops_at_tail path q f :
  stops_at (is_char "/") path = true ->
  stops_at is_netloc_delim (path ++ opt_part "?" q ++ opt_part "#" f) = true.
Proof.
  intros Hp. destruct path as [|c p].
  - destruct q, f; reflexivity.
  - cbn [app stops_at] in *. unfold is_netloc_delim. by rewrite Hp.
Qed.

(** [build] starts with the first letter of the scheme. *)
Lemma build_head sch host path q f :
  wf_scheme sch = true ->
  exists c r, build sch host path q f = c :: r /\ is_alpha c = true.
Proof.
  intros (c & pre & -> & Hc & _)%wf_scheme_inv. unfold build. simpl. eauto.
Qed.

Theorem urlsplit_build sch host path q f :
  readable sch host path q f = true ->
  urlsplit check_bracketed_netloc (build sch host path q f) =
  Some {| sr_scheme := lower sch; sr_netloc := host; sr_path := path;
          sr_query := default [] q; sr_fragment := default [] f |}.
Proof.
  intros (Hs & Hh & Hp & Hq & Hsafe & _)%readable_inv.
  apply bare_host_inv in Hh as (Hh & _ & _ & Hlb & Hrb).
  apply plain_path_inv in Hp as (Hp & Hp2 & Hp1 & _).
  unfold urlsplit.
  destruct (build_head sch host path q f Hs) as (c & r & E & Hc).
  assert (lstrip is_c0_or_space (build sch host path q f) =
          build sch host path q f) as ->.
  { rewrite E. unfold lstrip. simpl.
    by destruct (alpha_not_blank _ Hc) as [-> _]. }
  unfold remove_unsafe. rewrite filter_none by exact Hsafe.
  unfold build. simpl (chars "://").
  change (sch ++ [":"; "/"; "/"]%char ++ ?x) with (sch ++ ":"%char :: "/"%char :: "/"%char :: x).
  rewrite (split_scheme_build _ _ Hs). simpl starts_with. simpl (drop 2 _). rewrite drop_0.
  unfold splitnetloc. rewrite break_app; [|done|by apply stops_at_tail].
  rewrite (contains_none _ _ Hlb), (contains_none _ _ Hrb). simpl.
  assert (none_of (is_char "#") (path ++ opt_part "?" q) = true) as Hpq.
  { rewrite none_of_app, Hp1. simpl. by destruct q. }
  rewrite (app_assoc path).
  destruct f as [f|]; simpl opt_part.
  - rewrite (partition_sep _ _ _ Hpq).
    destruct q as [q|]; simpl opt_part.
    + by rewrite (partition_sep _ _ _ Hp2).
    + by rewrite app_nil_r, (partition_none _ _ Hp2).
  - rewrite app_nil_r, (partition_none _ _ Hpq).
    destruct q as [q|]; simpl opt_part.
    + by rewrite (partition_sep _ _ _ Hp2).
    + by rewrite app_nil_r, (partition_none _ _ Hp2).
Qed.

Lemma urlparse_build sch host path q f :
  readable sch host path q f = true ->
  urlparse check_bracketed_netloc (build sch host path q f) =
  Some {| scheme := lower sch; netloc := host; path := path; params := [];
          query := default [] q; fragment := default [] f |}.
Proof.
  intros Hr. unfold urlparse. rewrite (urlsplit_build _ _ _ _ _ Hr). simpl.
  apply readable_inv in Hr as (_ & _ & (_ & _ & _ & Hp)%plain_path_inv & _).
  by rewrite (contains_none _ _ Hp), andb_false_r.
Qed.

(** [(parsed.hostname or "").lower()] is the lowercased host part of the
    netloc, whatever the netloc. *)
Lemma hostname_lower r :
  lower (match hostname r with Some h => h | None => [] end) =
  lower (hostinfo_hostname (netloc r)).
Proof.
  unfold hostname. destruct (hostinfo_hostname (netloc r)) as [|c h] eqn:E; [done|].
  destruct (partition "%" (c :: h)) as [[a flag] z] eqn:Hpart.
  apply partition_spec in Hpart as [-> _].
  by rewrite !lower_app, lower_idem.
Qed.

Lemma hostinfo_bare h : bare_host h = true -> hostinfo_hostname h = h.
Proof.
  intros (_ & Hat & Hcolon & Hlb & _)%bare_host_inv. unfold hostinfo_hostname.
  by rewrite (rpartition_none _ _ Hat), (partition_none _ _ Hlb),
             (partition_none _ _ Hcolon).
Qed.

(** The normal form of [scheme://host/path?query#fragment]. *)
Theorem normalize_readable sch host path q f :
  readable sch host path q f = true ->
  normalize_url check_bracketed_netloc (build sch host path q f) =
  Some (urlunparse (lower sch) (strip_www (lower host))
          (rstrip (is_char "/") path) [] [] []).
Proof.
  intros Hr. pose proof Hr as (Hs & Hh & _ & _ & _ & Hend)%readable_inv.
  unfold normalize_url.
  assert (strip (build sch host path q f) = build sch host path q f) as ->.
  { destruct (build_head sch host path q f Hs) as (c & r & E & Hc).
    rewrite E in *. apply strip_visible; [|done].
    by destruct (alpha_not_blank _ Hc) as [_ ->]. }
  rewrite (urlparse_build _ _ _ _ _ Hr).
  cbv beta iota zeta. rewrite hostname_lower.
  cbn [UrlLib.netloc UrlLib.scheme UrlLib.path].
  rewrite (hostinfo_bare _ Hh).
  assert (truthy (lower sch) = true) as ->
    by (by apply wf_scheme_inv in Hs as (c & pre & -> & _)).
  by rewrite lower_idem.
Qed.



End UrlFacts.

(** ** Identity keys *)

Section IdentityFacts.
Import Py UrlLib UrlShape PyFacts CharFacts.

Variable check_bracketed_netloc : list ascii -> bool.



Lemma lower_strip_www host :
  lower (strip_www (lower host)) = strip_www (lower host).
Proof.
  unfold strip_www. destruct (starts_with _ _); [|apply lower_idem].
  unfold lower. by rewrite <- skipn_map, map_map, (map_ext _ _ lower_char_idem).
Qed.

(** [strip_www (lower h)] holds no character that [h] does not hold, for
    a class of characters that [lower] neither makes nor removes. *)
Lemma none_of_strip_www p h :
  (forall c, p (lower_char c) = p c) ->
  none_of p h = true -> none_of p (strip_www (lower h)) = true.
Proof.
  intros Hp Hh. rewrite <- (none_of_lower p h Hp) in Hh.
  unfold strip_www. destruct (starts_with _ _); [by apply forallb_drop|done].
Qed.

(** With a host, [urlunparse] writes [scheme://host/path]. *)
Lemma urlunparse_build sch host path :
  wf_scheme sch = true -> host <> [] -> stops_at (is_char "/") path = true ->
  urlunparse sch host path [] [] [] = build sch host path None None.
Proof.
  intros (c & pre & -> & _)%wf_scheme_inv Hhost Hp.
  unfold urlunparse, urlunsplit, build.
  destruct host as [|h host]; [done|].
  cbn [truthy orb opt_part]. rewrite !app_nil_r.
  destruct path as [|x path]; [done|].
  cbn [stops_at] in Hp. apply Ascii.eqb_eq in Hp as <-. reflexivity.
Qed.

(** *** What [urlparse] returns, for every input *)

Lemma split_scheme_spec x sc y :
  split_scheme x = (sc, y) ->
  (sc = [] \/ (wf_scheme sc = true /\ lower sc = sc)) /\ exists t, x = t ++ y.
Proof.
  unfold split_scheme. destruct (break (is_char ":") x) as [a b] eqn:E.
  apply break_spec in E as (-> & _ & _).
  assert (([] : list ascii, a ++ b) = (sc, y) ->
          (sc = [] \/ (wf_scheme sc = true /\ lower sc = sc)) /\
          exists t, a ++ b = t ++ y) as Hdefault.
  { intros [= <- <-]. split; [by left|by exists []]. }
  destruct a as [|c pre]; [done|]. destruct b as [|colon rest]; [done|].
  destruct (is_alpha c && forallb is_scheme_char (c :: pre)) eqn:Hok; [|done].
  intros [= <- <-]. split.
  - right. change (lower_char c :: lower pre) with (lower (c :: pre)).
    split; [|apply lower_idem]. by apply wf_scheme_lower.
  - exists (c :: pre ++ [colon]). simpl. by rewrite <- app_assoc.
Qed.

Lemma urlsplit_spec x r :
  urlsplit check_bracketed_netloc x = Some r ->
  (sr_scheme r = [] \/ (wf_scheme (sr_scheme r) = true /\
                        lower (sr_scheme r) = sr_scheme r)) /\
  none_of is_unsafe (sr_netloc r) = true /\
  none_of is_unsafe (sr_path r) = true /\
  none_of is_netloc_delim (sr_netloc r) = true /\
  (sr_netloc r <> [] -> stops_at (is_char "/") (sr_path r) = true) /\
  none_of (is_char "?") (sr_path r) = true /\
  none_of (is_char "#") (sr_path r) = true.
Proof.
  unfold urlsplit, remove_unsafe.
  pose proof (none_of_filter is_unsafe (lstrip is_c0_or_space x)) as Hsafe.
  destruct (split_scheme _) as [sc u3] eqn:Esc.
  apply split_scheme_spec in Esc as [Hsc [t Ht]].
  rewrite Ht in Hsafe. apply none_of_suffix in Hsafe. clear Ht t.
  assert (exists nl rest,
    (if starts_with (chars "//") u3 then splitnetloc (drop 2 u3) else ([], u3))
      = (nl, rest) /\
    none_of is_unsafe nl = true /\ none_of is_unsafe rest = true /\
    none_of is_netloc_delim nl = true /\
    (nl <> [] -> stops_at is_netloc_delim rest = true))
    as (nl & rest & -> & Hnl & Hrest & Hdelim & Hstop).
  { destruct (starts_with _ u3).
    - unfold splitnetloc.
      destruct (break is_netloc_delim (drop 2 u3)) as [nl rest] eqn:E.
      exists nl, rest. apply break_spec in E as (E & Hd & Hst).
      pose proof (forallb_drop _ 2 _ Hsafe) as Hdrop.
      change (none_of is_unsafe (drop 2 u3) = true) in Hdrop.
      rewrite E in Hdrop.
      by rewrite (none_of_prefix _ _ _ Hdrop), (none_of_suffix _ _ _ Hdrop).
    - exists [], u3. by repeat split. }
  destruct (_ || _); [done|]. destruct (_ && _); [done|].
  destruct (partition "#" rest) as [[a fl] frag] eqn:Ea.
  apply partition_spec in Ea as [Erest Ha].
  destruct (partition "?" a) as [[pa fl'] qry] eqn:Epa.
  apply partition_spec in Epa as [Ea Hpa].
  intros [= <-]. cbn [sr_scheme sr_netloc sr_path].
  assert (exists tl, rest = pa ++ tl) as [tl Htl].
  { exists (((if fl' then ["?"%char] else []) ++ qry) ++
            (if fl then ["#"%char] else []) ++ frag).
    by rewrite Erest, Ea, <- !app_assoc. }
  assert (none_of (is_char "#") pa = true) as Hpa'
    by (rewrite Ea in Ha; by apply none_of_prefix in Ha).
  split; [done|]. split; [done|].
  split; [rewrite Htl in Hrest; by apply none_of_prefix in Hrest|].
  split; [done|]. split; [|done].
  intros Hne. specialize (Hstop Hne). rewrite Htl in Hstop.
  apply stops_at_prefix in Hstop.
  destruct pa as [|c pa]; [done|]. simpl in *.
  apply andb_prop in Hpa as [Hq%negb_true_iff _].
  apply andb_prop in Hpa' as [Hh%negb_true_iff _].
  by apply delim_cases.
Qed.

(** [_splitparams] returns a prefix of the path as the new path. *)
Lemma splitparams_prefix url : exists t, url = fst (splitparams url) ++ t.
Proof.
  unfold splitparams. destruct (contains "/" url) eqn:Hslash.
  - destruct (rpartition "/" url) as [[dir fl] seg] eqn:E.
    destruct (partition ";" seg) as [[a fl'] b] eqn:E'.
    apply partition_spec in E' as [Hseg _].
    destruct fl'; [|exists []; by rewrite app_nil_r].
    apply rpartition_spec in E as [(_ & -> & _)|(_ & _ & _ & Hnone)].
    + exists (";"%char :: b). cbn [fst]. by rewrite Hseg, <- app_assoc.
    + by rewrite (contains_none _ _ Hnone) in Hslash.
  - destruct (partition ";" url) as [[a fl'] b] eqn:E'.
    apply partition_spec in E' as [Hurl _]. destruct fl'.
    + by exists (";"%char :: b).
    + cbn [fst]. destruct url as [|c r] using rev_ind; [by exists []|].
      exists [c]. by rewrite removelast_last.
Qed.

Lemma urlparse_spec x r :
  urlparse check_bracketed_netloc x = Some r ->
  (scheme r = [] \/ (wf_scheme (scheme r) = true /\ lower (scheme r) = scheme r)) /\
  none_of is_unsafe (netloc r) = true /\
  none_of is_unsafe (path r) = true /\
  none_of is_netloc_delim (netloc r) = true /\
  (netloc r <> [] -> stops_at (is_char "/") (path r) = true) /\
  none_of (is_char "?") (path r) = true /\
  none_of (is_char "#") (path r) = true.
Proof.
  unfold urlparse.
  destruct (urlsplit check_bracketed_netloc x) as [sr|] eqn:E; [|done].
  apply urlsplit_spec in E as (Hsc & Hnl & Hsafe & Hdelim & Hstop & Hq & Hh).
  assert (exists pth prm,
    (if bool_decide (sr_scheme sr ∈ uses_params) && contains ";" (sr_path sr)
     then splitparams (sr_path sr) else (sr_path sr, [])) = (pth, prm) /\
    exists t, sr_path sr = pth ++ t) as (pth & prm & -> & t & Ht).
  { destruct (_ && _).
    - destruct (splitparams_prefix (sr_path sr)) as [t Ht].
      destruct (splitparams (sr_path sr)) as [pth prm]. by exists pth, prm; eauto.
    - exists (sr_path sr), []. split; [done|]. exists []. by rewrite app_nil_r. }
  intros [= <-]. cbn [scheme netloc path]. rewrite Ht in *.
  split; [done|]. split; [done|].
  split; [by apply none_of_prefix in Hsafe|]. split; [done|].
  split; [intros Hne; by apply stops_at_prefix in Hstop|].
  split; by eapply none_of_prefix.
Qed.

(** The host part is cut out of the netloc, after the last [@]. *)
Lemma hostinfo_hostname_spec nl :
  (exists l r, nl = l ++ hostinfo_hostname nl ++ r) /\
  none_of (is_char "@") (hostinfo_hostname nl) = true.
Proof.
  unfold hostinfo_hostname.
  destruct (rpartition "@" nl) as [[ui fl] hi] eqn:E.
  assert ((exists l, nl = l ++ hi) /\ none_of (is_char "@") hi = true)
    as [[l0 ->] Hat].
  { apply rpartition_spec in E as [(_ & -> & ?)|(_ & _ & -> & ?)].
    - split; [|done]. exists (ui ++ ["@"%char]). by rewrite <- app_assoc.
    - split; [|done]. by exists []. }
  assert (forall hn, (exists l r, hi = l ++ hn ++ r) ->
    (exists l r, l0 ++ hi = l ++ hn ++ r) /\ none_of (is_char "@") hn = true)
    as Hcut.
  { intros hn (l & r & Hhi). split.
    - exists (l0 ++ l), r. by rewrite Hhi, <- app_assoc.
    - rewrite Hhi in Hat. by apply none_of_infix in Hat. }
  destruct (partition "[" hi) as [[pre lb] br] eqn:Elb.
  apply partition_spec in Elb as [Hhi _]. destruct lb.
  - destruct (partition "]" br) as [[hn rb] post] eqn:Erb.
    apply partition_spec in Erb as [Hbr _]. apply Hcut.
    exists (pre ++ ["["%char]), ((if rb then ["]"%char] else []) ++ post).
    by rewrite Hhi, Hbr, <- !app_assoc.
  - destruct (partition ":" hi) as [[hn colon] port] eqn:Ecolon.
    apply partition_spec in Ecolon as [Hhn _]. apply Hcut.
    exists [], ((if colon then [":"%char] else []) ++ port). by rewrite Hhn at 1.
Qed.

Lemma normalize_url_parts u :
  normalize_url check_bracketed_netloc u =
  match normal_parts check_bracketed_netloc u with
  | Some (s, h, p) => Some (urlunparse s h p [] [] [])
  | None => None
  end.
Proof.
  unfold normalize_url, normal_parts. by destruct (urlparse _ _).
Qed.

(** The parts that [normalize_url] joins, for every input that parses. *)
Lemma normal_parts_spec u s h p :
  normal_parts check_bracketed_netloc u = Some (s, h, p) ->
  wf_scheme s = true /\ lower s = s /\
  none_of is_unsafe h = true /\ none_of is_netloc_delim h = true /\
  none_of (is_char "@") h = true /\ lower h = h /\
  none_of is_unsafe p = true /\
  (h <> [] -> stops_at (is_char "/") p = true) /\
  none_of (is_char "?") p = true /\ none_of (is_char "#") p = true /\
  rstrip (is_char "/") p = p.
Proof.
  unfold normal_parts.
  destruct (urlparse _ _) as [r|] eqn:E; [|done].
  apply urlparse_spec in E as (Hsc & Hnl & Hsafe & Hdelim & Hstop & Hq & Hh).
  rewrite hostname_lower. fold (strip_www (lower (hostinfo_hostname (netloc r)))).
  intros [= <- <- <-].
  destruct (hostinfo_hostname_spec (netloc r)) as [(l0 & r0 & Hcut) Hat].
  destruct (rstrip_prefix (is_char "/") (path r)) as [t Ht].
  split; [|split].
  - destruct Hsc as [->|[Hwf _]]; [reflexivity|].
    destruct (scheme r); [done|]. by apply wf_scheme_lower.
  - apply lower_idem.
  - rewrite Hcut in Hnl, Hdelim.
    apply none_of_infix in Hnl, Hdelim.
    split; [by apply none_of_strip_www; [apply lower_char_unsafe|]|].
    split; [by apply none_of_strip_www; [apply lower_char_delim|]|].
    split; [by apply none_of_strip_www; [apply lower_char_at|]|].
    split; [apply lower_strip_www|].
    rewrite Ht in Hsafe, Hq, Hh.
    split; [by apply none_of_prefix in Hsafe|].
    split; [|split; [by apply none_of_prefix in Hq|
             split; [by apply none_of_prefix in Hh|apply rstrip_idem]]].
    intros Hne. rewrite Ht in Hstop. eapply stops_at_prefix, Hstop.
    intros Hnil. apply Hne. by rewrite Hnil.
Qed.

(** C9 (amended).  [normalize_url] returns a fixed point of itself for
    every input whose normalised host is not empty, holds no port colon
    or bracket and does not start with [www.] again, whose normalised
    path holds no [;], and whose normal form does not end in white space.
    The normal form is [scheme://host/path] with those parts. *)
Theorem normalize_url_idempotent_on u s h p :
  normal_parts check_bracketed_netloc u = Some (s, h, p) ->
  h <> [] ->
  none_of is_host_mark h = true ->
  starts_with (chars "www.") h = false ->
  contains ";" p = false ->
  ends_visible (h ++ p) = true ->
  normalize_url check_bracketed_netloc u = Some (s ++ chars "://" ++ h ++ p) /\
  normalize_url check_bracketed_netloc (s ++ chars "://" ++ h ++ p) =
    Some (s ++ chars "://" ++ h ++ p).
Proof.
  intros Hparts Hne Hmark Hwww Hsemi Hend.
  rewrite normalize_url_parts, Hparts.
  apply normal_parts_spec in Hparts
    as (Hs & Hls & Hhsafe & Hhdelim & Hhat & Hlh & Hpsafe & Hstop & Hq & Hhash & Hfix).
  specialize (Hstop Hne).
  assert (build s h p None None = s ++ chars "://" ++ h ++ p) as Hbuild
    by (unfold build; simpl opt_part; by rewrite !app_nil_r).
  rewrite (urlunparse_build _ _ _ Hs Hne Hstop), Hbuild.
  split; [done|]. rewrite <- Hbuild at 1.
  rewrite normalize_readable.
  - rewrite Hls, Hlh, Hfix. unfold strip_www. rewrite Hwww.
    by rewrite (urlunparse_build _ _ _ Hs Hne Hstop), Hbuild.
  - unfold readable, bare_host, plain_path.
    rewrite Hs, Hhdelim, Hhat, Hmark, Hstop, Hq, Hhash. cbn [andb wf_opt].
    assert (none_of (is_char ";") p = true) as ->.
    { unfold contains in Hsemi. unfold none_of.
      clear -Hsemi. induction p as [|c p IH]; simpl in *; [done|].
      apply orb_false_elim in Hsemi as [-> Hp]. by rewrite IH. }
    rewrite Hbuild. cbn [andb].
    apply andb_true_intro; split.
    + rewrite !none_of_app, Hhsafe, Hpsafe, !andb_true_r.
      apply wf_scheme_chars in Hs. revert Hs.
      apply none_of_weaken, scheme_char_safe.
    + rewrite !app_assoc, <- (app_assoc _ h p). rewrite ends_visible_app; [done|].
      by destruct h.
Qed.

End IdentityFacts.

(** ** The client singleton and store requests *)

Module StoreFacts.

Ltac run_monad :=
  unfold request, get_client, fresh_client, create_client, execute, sleep,
    bind, try_except, get, modify, ret, raise in *.

Lemma get_client_ok w :
  w_configured w = true ->
  exists c, get_client w = (Ok c, after_get_client w).
Proof.
  intros Hc. unfold after_get_client. run_monad.
  destruct (w_client w); [destruct (_ <=? _)|]; rewrite ?Hc; simpl; eauto.
Qed.

(** [get_client] touches nothing but the client and its request count. *)
Lemma get_client_frame w :
  let w' := after_get_client w in
  w_store w' = w_store w /\ w_configured w' = w_configured w /\
  w_faults w' = w_faults w /\ w_sleeps w' = w_sleeps w /\
  w_requests w' = w_requests w /\ w_clock w' = w_clock w /\
  w_file w' = w_file w /\ w_disk w' = w_disk w.
Proof.
  unfold after_get_client. run_monad.
  destruct (w_client w); [destruct (_ <=? _)|];
    destruct (w_configured w) eqn:E; simpl; rewrite ?E; repeat split; reflexivity.
Qed.

(** At the reset threshold, [get_client] makes a new client. *)
Lemma get_client_recreates w :
  w_configured w = true ->
  w_request_count w = _MAX_REQUESTS_BEFORE_RESET ->
  let w' := after_get_client w in
  w_clients_created w' = S (w_clients_created w) /\
  w_client w' = Some (S (w_clients_created w)) /\
  w_request_count w' = 1.
Proof.
  intros Hc Hn. unfold after_get_client. run_monad. cbv beta.
  rewrite Hn, Z.leb_refl.
  destruct (w_client w); cbv beta iota; rewrite Hc; simpl; repeat split; reflexivity.
Qed.

Lemma request_fault {A} (op : store -> A * store) w e rest :
  w_configured w = true -> w_faults w = Some e :: rest ->
  request op w = (Raise e, set_faults rest (after_get_client w)).
Proof.
  intros Hc Hf. destruct (get_client_ok w Hc) as [c Hg].
  destruct (get_client_frame w) as (_ & _ & Hf' & _).
  unfold request, bind. rewrite Hg. unfold execute. by rewrite Hf', Hf.
Qed.

Lemma request_pass {A} (op : store -> A * store) w rest :
  w_configured w = true -> w_faults w = None :: rest ->
  request op w =
  (Ok (fst (op (w_store w))),
   set_store (snd (op (w_store w))) (set_faults rest (after_get_client w))).
Proof.
  intros Hc Hf. destruct (get_client_ok w Hc) as [c Hg].
  destruct (get_client_frame w) as (Hs & _ & Hf' & _).
  unfold request, bind. rewrite Hg. unfold execute. rewrite Hf', Hf, Hs.
  by destruct (op (w_store w)).
Qed.

Lemma request_healthy {A} (op : store -> A * store) w :
  healthy w ->
  request op w =
  (Ok (fst (op (w_store w))),
   set_store (snd (op (w_store w))) (after_get_client w)).
Proof.
  intros [Hc Hf]. destruct (get_client_ok w Hc) as [c Hg].
  destruct (get_client_frame w) as (Hs & _ & Hf' & _).
  unfold request, bind. rewrite Hg. unfold execute. rewrite Hf', Hf, Hs.
  by destruct (op (w_store w)).
Qed.

Lemma healthy_after_request w s :
  healthy w -> healthy (set_store s (after_get_client w)).
Proof.
  intros [Hc Hf]. destruct (get_client_frame w) as (_ & Hc' & Hf' & _).
  split; simpl; congruence.
Qed.

(** ** The retry wrapper *)

Lemma retry_three {A} (fn : M A) d :
  _retry fn 3 d = retry_loop fn 3 d [0; 1; 2].
Proof. reflexivity. Qed.

Lemma retry_ok {A} (fn : M A) d w a w' :
  fn w = (Ok a, w') -> _retry fn 3 d w = (Ok (Some a), w').
Proof.
  intros H. rewrite retry_three. cbn [retry_loop]. unfold try_except, bind.
  by rewrite H.
Qed.

(** An error outside the connection class ends the loop at once. *)
Lemma retry_other_error {A} (fn : M A) d w e w' :
  fn w = (Raise e, w') -> is_connection_error e = false ->
  _retry fn 3 d w = (Raise e, w').
Proof.
  intros H He. rewrite retry_three. cbn [retry_loop]. unfold try_except, bind.
  by rewrite H, He.
Qed.

(** A connection error on the first attempt leads to a second attempt
    after [d] seconds, a second one to a third after [2 d] seconds, and
    the outcome of the third attempt is final. *)
Lemma retry_second {A} (fn : M A) d w e w' :
  fn w = (Raise e, w') -> is_connection_error e = true ->
  _retry fn 3 d w = retry_loop fn 3 d [1; 2] (before_retry (d * 1) w').
Proof.
  intros H He. rewrite retry_three. cbn [retry_loop]. unfold try_except at 1, bind at 1.
  rewrite H, He. reflexivity.
Qed.

Lemma retry_loop_ok {A} (fn : M A) d l k w a w' :
  fn w = (Ok a, w') -> retry_loop fn 3 d (k :: l) w = (Ok (Some a), w').
Proof.
  intros H. cbn [retry_loop]. unfold try_except, bind. by rewrite H.
Qed.

Lemma retry_loop_other {A} (fn : M A) d l k w e w' :
  fn w = (Raise e, w') -> is_connection_error e = false ->
  retry_loop fn 3 d (k :: l) w = (Raise e, w').
Proof.
  intros H He. cbn [retry_loop]. unfold try_except, bind. by rewrite H, He.
Qed.

Lemma retry_third {A} (fn : M A) d w e w' :
  fn w = (Raise e, w') -> is_connection_error e = true ->
  retry_loop fn 3 d [1; 2] w = retry_loop fn 3 d [2] (before_retry (d * 2) w').
Proof.
  intros H He. cbn [retry_loop]. unfold try_except at 1, bind at 1.
  rewrite H, He. reflexivity.
Qed.

Lemma retry_last {A} (fn : M A) d w e w' :
  fn w = (Raise e, w') -> retry_loop fn 3 d [2] w = (Raise e, w').
Proof.
  intros H. cbn [retry_loop]. unfold try_except, bind. rewrite H.
  by rewrite andb_false_r.
Qed.

End StoreFacts.

(** ** The retry policy on store requests *)

Module RetryFacts.
Import StoreFacts.

Lemma agc_store w : w_store (after_get_client w) = w_store w.
Proof. apply get_client_frame. Qed.
Lemma agc_configured w : w_configured (after_get_client w) = w_configured w.
Proof. apply get_client_frame. Qed.
Lemma agc_faults w : w_faults (after_get_client w) = w_faults w.
Proof. apply get_client_frame. Qed.
Lemma agc_sleeps w : w_sleeps (after_get_client w) = w_sleeps w.
Proof. apply get_client_frame. Qed.
Lemma agc_requests w : w_requests (after_get_client w) = w_requests w.
Proof. apply get_client_frame. Qed.
Lemma agc_clock w : w_clock (after_get_client w) = w_clock w.
Proof. apply get_client_frame. Qed.
Lemma agc_file w : w_file (after_get_client w) = w_file w.
Proof. apply get_client_frame. Qed.
Lemma agc_disk w : w_disk (after_get_client w) = w_disk w.
Proof. apply get_client_frame. Qed.

Create Rewrite HintDb frame.
#[export] Hint Rewrite agc_store agc_configured agc_faults agc_sleeps
  agc_requests agc_clock agc_file agc_disk : frame.

Ltac frame := repeat (progress (simpl; autorewrite with frame)).

(** One attempt of a request, by the head of the fault script. *)
Lemma attempt {A} (op : store -> A * store) w :
  w_configured w = true ->
  match w_faults w with
  | Some e :: rest =>
      request op w = (Raise e, set_faults rest (after_get_client w))
  | None :: rest =>
      request op w =
      (Ok (fst (op (w_store w))),
       set_store (snd (op (w_store w))) (set_faults rest (after_get_client w)))
  | [] =>
      request op w =
      (Ok (fst (op (w_store w))),
       set_store (snd (op (w_store w))) (after_get_client w))
  end.
Proof.
  intros Hc. destruct (w_faults w) as [|[e|] rest] eqn:Hf.
  - by apply request_healthy.
  - by apply request_fault.
  - by apply request_pass.
Qed.

(** The world in which the retry after a failed attempt starts. *)
Lemma retried_world d w rest :
  w_configured w = true ->
  let w' := before_retry d (set_faults rest (after_get_client w)) in
  w_configured w' = true /\ w_faults w' = rest /\
  w_sleeps w' = w_sleeps w ++ [d] /\
  w_request_count w' = _MAX_REQUESTS_BEFORE_RESET /\
  w_clients_created w' = w_clients_created (after_get_client w) /\
  w_clients_created (after_get_client w') =
    S (w_clients_created (after_get_client w)).
Proof.
  intros Hc w'. assert (w_configured w' = true) as Hc' by (subst w'; by frame).
  repeat split; try (subst w'; by frame).
  by destruct (get_client_recreates w' Hc' eq_refl) as (-> & _).
Qed.

Section Policy.
Context {A : Type} (op : store -> A * store) (d : Z).

Ltac first_attempt w Hc Hf :=
  let H := fresh "Hreq" in
  pose proof (attempt op w Hc) as H; rewrite Hf in H.

(** C8.  [_retry] around a store request sends at most three requests:
    it sends one more after each of the first two that fail with a
    connection-class message, sleeping [d] and then [2 d] seconds and
    making [get_client] build a new client for each retried attempt; the
    first failure outside the connection class, or the third failure,
    is raised as it is. *)
Theorem retry_policy (w : world) :
  w_configured w = true ->
  let r := Nat.min 2 (leading_connection_faults (w_faults w)) in
  let out := _retry (request op) 3 d w in
  (r <= 2)%nat /\
  w_faults (snd out) = drop (S r) (w_faults w) /\
  w_sleeps (snd out) = w_sleeps w ++ map (fun k => d * Z.of_nat k) (seq 1 r) /\
  w_clients_created (snd out) = (w_clients_created (after_get_client w) + r)%nat /\
  match w_faults w !! r with
  | Some (Some e) =>
      fst out = Raise e /\ (is_connection_error e = false \/ r = 2%nat)
  | _ => exists a, fst out = Ok (Some a)
  end.
Proof.
  intros Hc.
  destruct (w_faults w) as [|[e1|] l1] eqn:Hf; cbn [leading_connection_faults].
  - first_attempt w Hc Hf. rewrite (retry_ok _ _ _ _ _ Hreq).
    frame. rewrite ?Hf, app_nil_r, Nat.add_0_r. eauto 10.
  - destruct (is_connection_error e1) eqn:He1.
    + pose proof (attempt op w Hc) as H1. rewrite Hf in H1.
      rewrite (retry_second _ _ _ _ _ H1 He1).
      destruct (retried_world (d * 1) w l1 Hc) as (Hc1 & Hf1 & Hs1 & _ & Hn1 & Hg1).
      remember (before_retry (d * 1) (set_faults l1 (after_get_client w))) as w1 eqn:Ew1;
        clear Ew1.
      destruct l1 as [|[e2|] l2]; cbn [leading_connection_faults].
      * first_attempt w1 Hc1 Hf1. rewrite (retry_loop_ok _ _ _ _ _ _ _ Hreq).
        frame. rewrite Hs1, Hg1, Nat.add_1_r. eauto 10.
      * destruct (is_connection_error e2) eqn:He2.
        -- pose proof (attempt op w1 Hc1) as H2. rewrite Hf1 in H2.
           rewrite (retry_third _ _ _ _ _ H2 He2).
           destruct (retried_world (d * 2) w1 l2 Hc1) as (Hc2 & Hf2 & Hs2 & _ & Hn2 & Hg2).
           remember (before_retry (d * 2) (set_faults l2 (after_get_client w1))) as w2 eqn:Ew2;
             clear Ew2.
           pose proof (attempt op w2 Hc2) as H3. rewrite Hf2 in H3.
           destruct l2 as [|[e3|] l3].
           ++ rewrite (retry_loop_ok _ _ _ _ _ _ _ H3).
              frame. rewrite Hs2, Hs1, Hg2, Hg1, <- app_assoc.
              repeat split; eauto; lia.
           ++ rewrite (retry_last _ _ _ _ _ H3).
              frame. rewrite Hs2, Hs1, Hg2, Hg1, <- app_assoc.
              repeat split; eauto; lia.
           ++ rewrite (retry_loop_ok _ _ _ _ _ _ _ H3).
              frame. rewrite Hs2, Hs1, Hg2, Hg1, <- app_assoc.
              repeat split; eauto; lia.
        -- pose proof (attempt op w1 Hc1) as H2. rewrite Hf1 in H2.
           rewrite (retry_loop_other _ _ _ _ _ _ _ H2 He2).
           frame. rewrite Hs1, Hg1, Nat.add_1_r. eauto 10.
      * first_attempt w1 Hc1 Hf1. rewrite (retry_loop_ok _ _ _ _ _ _ _ Hreq).
        frame. rewrite Hs1, Hg1, Nat.add_1_r. eauto 10.
    + first_attempt w Hc Hf. rewrite (retry_other_error _ _ _ _ _ Hreq He1).
      frame. rewrite ?Hf, app_nil_r, Nat.add_0_r. eauto 10.
  - first_attempt w Hc Hf. rewrite (retry_ok _ _ _ _ _ Hreq).
    frame. rewrite ?Hf, app_nil_r, Nat.add_0_r. eauto 10.
Qed.

End Policy.

End RetryFacts.

(** ** Job rows *)

Module RowFacts.

Lemma set_str_other o k f (row : gmap string value) k' :
  k <> k' -> set_str o k f row !! k' = row !! k'.
Proof.
  intros Hk. unfold set_str. destruct o as [s|]; [|done].
  destruct (String.eqb s ""); [done|]. by rewrite lookup_insert_ne.
Qed.

Lemma set_some_other {A} (o : option A) k f (row : gmap string value) k' :
  k <> k' -> set_some o k f row !! k' = row !! k'.
Proof.
  intros Hk. unfold set_some. destruct o; [|done]. by rewrite lookup_insert_ne.
Qed.

Lemma set_if_other b k v (row : gmap string value) k' :
  k <> k' -> set_if b k v row !! k' = row !! k'.
Proof.
  intros Hk. unfold set_if. destruct b; [|done]. by rewrite lookup_insert_ne.
Qed.

Lemma set_list_other {A} (o : option (list A)) k f (row : gmap string value) k' :
  k <> k' -> set_list o k f row !! k' = row !! k'.
Proof.
  intros Hk. unfold set_list. destruct o as [[|x l]|]; try done.
  by rewrite lookup_insert_ne.
Qed.

Ltac skip_setters :=
  repeat first
    [ rewrite set_str_other by discriminate
    | rewrite set_some_other by discriminate
    | rewrite set_if_other by discriminate
    | rewrite set_list_other by discriminate ].

(** The cells that the insert branch always writes. *)
Lemma new_row_cells a h t :
  new_row a h t !! "url_hash" = Some (VStr h) /\
  new_row a h t !! "url" = Some (VStr (strip_s (a_url a))) /\
  new_row a h t !! "title" = Some (VStr (strip_s (a_title a))) /\
  new_row a h t !! "first_seen" = Some (VTime t) /\
  new_row a h t !! "last_seen" = Some (VTime t) /\
  new_row a h t !! "is_active" = Some (VBool true).
Proof.
  unfold new_row. cbv zeta. repeat split; skip_setters; reflexivity.
Qed.

Lemma job_updates_cells a t :
  job_updates a t !! "last_seen" = Some (VTime t) /\
  job_updates a t !! "is_active" = Some (VBool true).
Proof.
  unfold job_updates. cbv zeta. split; skip_setters; reflexivity.
Qed.

(** The update branch writes no key outside [mutable_keys]. *)
Lemma job_updates_only a t k :
  k ∉ mutable_keys -> job_updates a t !! k = None.
Proof.
  unfold mutable_keys. intros Hk.
  assert (k <> "last_seen" /\ k <> "is_active" /\ k <> "company_id" /\
          k <> "salary_min" /\ k <> "salary_max")%string as (H1 & H2 & H3 & H4 & H5).
  { rewrite !elem_of_cons in Hk. repeat split; intros E; apply Hk; auto 10. }
  unfold job_updates. cbv zeta.
  rewrite set_some_other, set_some_other, set_str_other by done.
  by rewrite !lookup_insert_ne.
Qed.

Ltac not_mutable :=
  let H := fresh in
  unfold mutable_keys; intros H;
  repeat (apply elem_of_cons in H as [H|H]; [discriminate|]);
  by apply elem_of_nil in H.

Lemma value_eqb_str s : value_eqb (VStr s) (VStr s) = true.
Proof. apply String.eqb_refl. Qed.

Lemma cell_is_str k s (row : gmap string value) :
  row !! k = Some (VStr s) -> cell_is k (VStr s) row = true.
Proof. intros H. unfold cell_is. by rewrite H, value_eqb_str. Qed.

(** An update leaves the identity key of every row as it is. *)
Lemma update_keeps_hash a t h (row : gmap string value) :
  cell_is "url_hash" (VStr h) (job_updates a t ∪ row) =
  cell_is "url_hash" (VStr h) row.
Proof.
  unfold cell_is. rewrite lookup_union_r; [done|].
  apply job_updates_only. not_mutable.
Qed.

Lemma last_cons_default {A} (x d : A) l : List.last (x :: l) d = List.last l x.
Proof.
  revert x d. induction l as [|y l IH]; intros x d; [done|].
  change (List.last (y :: l) d = List.last (y :: l) x). by rewrite !IH.
Qed.

Lemma filter_map_commute {A} (p : A -> bool) (f : A -> A) l :
  (forall x, p (f x) = p x) ->
  List.filter p (map f l) = map f (List.filter p l).
Proof.
  intros Hp. induction l as [|x l IH]; simpl; [done|].
  rewrite Hp. destruct (p x); simpl; by rewrite IH.
Qed.

End RowFacts.

(** ** [upsert_job] in a healthy world *)

Section UpsertFacts.
Import StoreFacts RetryFacts RowFacts.

Variable check_bracketed_netloc : list ascii -> bool.
Local Abbreviation upsert_job := (upsert_job check_bracketed_netloc).
Local Abbreviation upsert_at := (upsert_at check_bracketed_netloc).

Lemma bind_ok {A B} (m : M A) (k : A -> M B) w a w' :
  m w = (Ok a, w') -> bind m k w = k a w'.
Proof. intros H. unfold bind. by rewrite H. Qed.

Lemma bind_ret {A B} (a : A) (k : A -> M B) w : bind (ret a) k w = k a w.
Proof. reflexivity. Qed.

Lemma bind_raise {A B} (m : M A) (k : A -> M B) w e w' :
  m w = (Raise e, w') -> bind m k w = (Raise e, w').
Proof. intros H. unfold bind. by rewrite H. Qed.

Lemma hash_url_s_ok u key w :
  hash_url check_bracketed_netloc (Py.chars u) = Some key ->
  hash_url_s check_bracketed_netloc u w = (Ok (Py.text key), w).
Proof. intros H. unfold hash_url_s. by rewrite H. Qed.

Lemma retried_request_healthy {A} (op : store -> A * store) w :
  healthy w ->
  _retry (request op) 3 1 w =
  (Ok (Some (fst (op (w_store w)))),
   set_store (snd (op (w_store w))) (after_get_client w)).
Proof. intros Hw. apply retry_ok. by apply request_healthy. Qed.

Lemma healthy_set_clock t w : healthy w -> healthy (set_clock t w).
Proof. by intros [? ?]. Qed.

Section One.
Context (a : job_args) (key : list ascii).
Hypothesis Hkey :
  hash_url check_bracketed_netloc (Py.chars (a_url a)) = Some key.
Local Abbreviation K := (Py.text key).

(** The first observation of a key inserts a row. *)
Lemma upsert_insert w t :
  healthy w -> rows_with K (w_store w) = [] ->
  exists o w',
    upsert_job a (set_clock t w) = (Ok (o, true), w') /\
    healthy w' /\ w_clock w' = t /\
    rows_with K (w_store w') =
      [<["id" := VStr (pretty (s_next_id (w_store w)))]> (new_row a K t)].
Proof.
  intros Hw Hrows. apply (healthy_set_clock t) in Hw.
  unfold upsert_job.
  rewrite (bind_ok _ _ _ _ _ (hash_url_s_ok _ _ _ Hkey)); cbv beta.
  rewrite (bind_ok _ _ _ _ _ (eq_refl : get w_clock (set_clock t w) = (Ok t, _))); cbv beta.
  rewrite (bind_ok _ _ _ _ _ (retried_request_healthy _ _ Hw)); cbv beta.
  cbn [select_job_ids fst snd w_store set_clock data_of].
  unfold rows_with in Hrows. rewrite Hrows. cbn [map].
  rewrite bind_ret; cbv beta iota.
  set (w1 := set_store _ _).
  assert (healthy w1) as Hw1 by (by apply healthy_after_request).
  unfold try_except.
  rewrite (bind_ok _ _ _ _ _ (retried_request_healthy _ _ Hw1)); cbv beta.
  cbn [insert_job fst snd data_of]. rewrite bind_ret; cbv beta iota.
  cbn [ret head]. eexists _, _. split; [reflexivity|].
  split; [by apply healthy_after_request|].
  split; [subst w1; by frame|].
  subst w1. frame. unfold rows_with. cbn [s_jobs with_next_id with_jobs].
  rewrite List.filter_app, Hrows. cbn [List.filter app].
  rewrite cell_is_str; [done|].
  rewrite lookup_insert_ne by discriminate. apply new_row_cells.
Qed.

(** A later observation refreshes the row that is there. *)
Lemma upsert_update w t row i :
  healthy w -> rows_with K (w_store w) = [row] ->
  row !! "id" = Some (VStr i) ->
  exists o w',
    upsert_job a (set_clock t w) = (Ok (o, false), w') /\
    healthy w' /\ w_clock w' = t /\
    rows_with K (w_store w') = [job_updates a t ∪ row].
Proof.
  intros Hw Hrows Hid. apply (healthy_set_clock t) in Hw.
  unfold upsert_job.
  rewrite (bind_ok _ _ _ _ _ (hash_url_s_ok _ _ _ Hkey)); cbv beta.
  rewrite (bind_ok _ _ _ _ _ (eq_refl : get w_clock (set_clock t w) = (Ok t, _))); cbv beta.
  rewrite (bind_ok _ _ _ _ _ (retried_request_healthy _ _ Hw)); cbv beta.
  cbn [select_job_ids fst snd w_store set_clock data_of].
  pose proof Hrows as Hrows'. unfold rows_with in Hrows. rewrite Hrows. cbn [map].
  rewrite Hid. rewrite bind_ret; cbv beta iota.
  rewrite lookup_singleton_eq.
  set (w1 := set_store _ _).
  assert (healthy w1) as Hw1 by (by apply healthy_after_request).
  unfold try_except.
  rewrite (bind_ok _ _ _ _ _ (retried_request_healthy _ _ Hw1)); cbv beta.
  cbn [update_job fst snd data_of]. rewrite bind_ret; cbv beta iota.
  cbn [ret]. eexists _, _. split; [reflexivity|].
  split; [by apply healthy_after_request|].
  split; [subst w1; by frame|].
  subst w1. frame. unfold rows_with. cbn [s_jobs with_jobs].
  rewrite filter_map_commute.
  - rewrite Hrows. cbn [map]. by rewrite (cell_is_str _ _ _ Hid).
  - intros x. destruct (cell_is "id" (VStr i) x); [|done].
    apply update_keeps_hash.
Qed.

Local Abbreviation refreshed := (refreshed_row a).

Lemma refreshed_other row ts k :
  k ∉ mutable_keys -> refreshed row ts !! k = row !! k.
Proof.
  intros Hk. revert row. induction ts as [|t ts IH]; intros row; [done|].
  cbn [refreshed_row fold_left]. fold (refreshed (job_updates a t ∪ row) ts).
  rewrite IH. apply lookup_union_r. by apply job_updates_only.
Qed.

Lemma refreshed_seen row ts t0 :
  row !! "last_seen" = Some (VTime t0) ->
  row !! "is_active" = Some (VBool true) ->
  refreshed row ts !! "last_seen" = Some (VTime (List.last ts t0)) /\
  refreshed row ts !! "is_active" = Some (VBool true).
Proof.
  revert row t0. induction ts as [|t ts IH]; intros row t0 Hl Ha; [done|].
  cbn [refreshed_row fold_left]. fold (refreshed (job_updates a t ∪ row) ts).
  destruct (job_updates_cells a t) as [Hl' Ha'].
  destruct (IH (job_updates a t ∪ row) t) as [H1 H2].
  - by apply lookup_union_Some_l.
  - by apply lookup_union_Some_l.
  - split; [|done]. by rewrite H1, last_cons_default.
Qed.

Lemma upsert_again ts : forall w row i,
  healthy w -> rows_with K (w_store w) = [row] ->
  row !! "id" = Some (VStr i) ->
  map is_new_of (fst (upsert_at a ts w)) = repeat (Some false) (length ts) /\
  rows_with K (w_store (snd (upsert_at a ts w))) = [refreshed row ts].
Proof.
  induction ts as [|t ts IH]; intros w row i Hw Hrows Hid; [done|].
  destruct (upsert_update w t row i Hw Hrows Hid) as (o & w' & Hup & Hw' & _ & Hrows').
  cbn [upsert_at]. rewrite Hup.
  destruct (IH w' (job_updates a t ∪ row) i Hw' Hrows') as [H1 H2].
  { rewrite lookup_union_r; [done|]. apply job_updates_only. not_mutable. }
  destruct (upsert_at a ts w') as [rs w2]. cbn [fst snd map is_new_of] in *.
  by rewrite H1.
Qed.

(** C1.  In a world whose store answers and holds no record for the
    identity key of [a], [N >= 1] calls of [upsert_job a], at the clock
    readings [t :: ts], leave exactly one record with that key.  The first
    call returns [is_new = True] and the others [False]; the record has
    [first_seen = t], [last_seen] the last reading, [is_active = True],
    and outside of [last_seen], [is_active], [company_id], [salary_min]
    and [salary_max] it is the row that the first call inserted, with its
    title and url. *)
Theorem upsert_job_idempotent w t ts :
  healthy w ->
  rows_with K (w_store w) = [] ->
  map is_new_of (fst (upsert_at a (t :: ts) w)) =
    Some true :: repeat (Some false) (length ts) /\
  exists row,
    rows_with K (w_store (snd (upsert_at a (t :: ts) w))) = [row] /\
    row !! "first_seen" = Some (VTime t) /\
    row !! "last_seen" = Some (VTime (List.last ts t)) /\
    row !! "is_active" = Some (VBool true) /\
    row !! "url" = Some (VStr (strip_s (a_url a))) /\
    row !! "title" = Some (VStr (strip_s (a_title a))) /\
    forall k, k ∉ mutable_keys ->
      row !! k =
      (<["id" := VStr (pretty (s_next_id (w_store w)))]> (new_row a K t)) !! k.
Proof.
  intros Hw Hrows.
  destruct (upsert_insert w t Hw Hrows) as (o & w' & Hup & Hw' & _ & Hrows').
  set (row0 := <["id" := VStr (pretty (s_next_id (w_store w)))]> (new_row a K t)) in *.
  destruct (upsert_again ts w' row0 (pretty (s_next_id (w_store w))) Hw' Hrows')
    as [H1 H2].
  { subst row0. apply lookup_insert_eq. }
  cbn [upsert_at]. rewrite Hup.
  destruct (upsert_at a ts w') as [rs w2]. cbn [fst snd map is_new_of] in *.
  split; [by rewrite H1|].
  exists (refreshed row0 ts). split; [done|].
  destruct (new_row_cells a K t) as (_ & Hu & Ht & Hf & Hl & Ha).
  assert (forall k v, k <> "id"%string -> new_row a K t !! k = Some v ->
                      row0 !! k = Some v) as Hrow0.
  { intros k v Hk Hv. subst row0. by rewrite lookup_insert_ne. }
  destruct (refreshed_seen row0 ts t) as [Hl' Ha'];
    [by apply Hrow0|by apply Hrow0|].
  repeat split; try done.
  - rewrite refreshed_other; [by apply Hrow0|]. not_mutable.
  - rewrite refreshed_other; [by apply Hrow0|]. not_mutable.
  - rewrite refreshed_other; [by apply Hrow0|]. not_mutable.
  - intros k Hk. by apply refreshed_other.
Qed.

End One.

End UpsertFacts.

(** ** The fetch stage *)

Section FetchFacts.

Variable parse_jobs : string -> json -> string -> string + list ParsedJob.
Variable net : string -> response.
Local Abbreviation scrape := (scrape_company parse_jobs net).

Lemma str_truthy_some u : u <> ""%string -> str_truthy (Some u) = true.
Proof.
  intros Hu. unfold str_truthy. destruct (String.eqb_spec u ""); [done|reflexivity].
Qed.

(** A company with an endpoint and a registered adapter gets one GET of
    its endpoint, and the result is read off the response. *)
Lemma scrape_company_fetch c u :
  c_api_url c = Some u -> u <> ""%string -> c_ats c ∈ PARSERS ->
  scrape c =
  let done jobs error :=
    {| fr_company_id := c_id c; fr_slug := c_slug c; fr_jobs := jobs;
       fr_error := error; fr_requests := [u] |} in
  match net u with
  | Status status b =>
      if status =? 200 then
        match read_json b with
        | inl e => done [] (Some ("json decode error: " +:+ e))
        | inr data =>
            match parse_jobs (c_ats c) data (c_slug c) with
            | inr jobs => done jobs None
            | inl e => done [] (Some ("unexpected error: " +:+ e))
            end
        end
      else if status =? 404 then done [] None
      else if status =? 429 then done [] (Some "rate limited (429)")
      else done [] (Some ("HTTP " +:+ pretty status))
  | TimeoutError => done [] (Some "timeout")
  | ClientError e => done [] (Some ("connection error: " +:+ e))
  | OtherError e => done [] (Some ("unexpected error: " +:+ e))
  end.
Proof.
  intros Hu Hne Hats. unfold scrape_company.
  rewrite Hu, (str_truthy_some _ Hne), (bool_decide_eq_true_2 _ Hats).
  reflexivity.
Qed.

Lemma scrape_company_ids c :
  fr_company_id (scrape c) = c_id c /\ fr_slug (scrape c) = c_slug c.
Proof.
  unfold scrape_company.
  destruct (str_truthy _); [|done]. destruct (bool_decide _); [|done].
  destruct (net _) as [status b| | |]; try done.
  repeat (destruct (_ =? _); try done).
  destruct (read_json b); [done|]. by destruct (parse_jobs _ _ _).
Qed.

(** Without an endpoint nothing is sent. *)
Lemma scrape_company_no_endpoint c :
  str_truthy (c_api_url c) = false ->
  fr_jobs (scrape c) = [] /\ fr_error (scrape c) = Some "no api_url"%string /\
  fr_requests (scrape c) = [].
Proof. intros H. unfold scrape_company. by rewrite H. Qed.

(** Without a registered adapter nothing is sent. *)
Lemma scrape_company_no_adapter c :
  str_truthy (c_api_url c) = true -> c_ats c ∉ PARSERS ->
  fr_jobs (scrape c) = [] /\
  fr_error (scrape c) = Some ("no parser for " +:+ c_ats c) /\
  fr_requests (scrape c) = [].
Proof.
  intros H Hats. unfold scrape_company.
  by rewrite H, (bool_decide_eq_false_2 _ Hats).
Qed.

Lemma scrape_company_404 c u b :
  c_api_url c = Some u -> u <> ""%string -> c_ats c ∈ PARSERS ->
  net u = Status 404 b ->
  fr_jobs (scrape c) = [] /\ fr_error (scrape c) = None.
Proof.
  intros Hu Hne Hats Hnet. rewrite (scrape_company_fetch c u Hu Hne Hats).
  cbv zeta. by rewrite Hnet.
Qed.

(** C3.  [scrape_company] classifies a target by these rows: without an
    endpoint, or without a registered adapter, it sends no request and
    reports the corresponding error; otherwise it sends one GET.  When
    the request itself raises, a timeout gives the timeout error, a
    client error the connection error, anything else the unexpected
    error.  When a response arrives, a 404 gives nothing and no error, a
    429 the rate-limit error, any other status but 200 that status.  For
    a 200 the body is read and decoded: the adapter's records when that
    returns a document, and a decode error carrying the message of
    whatever was raised otherwise, which includes a timeout or a client
    error raised while the body is read; an adapter that raises gives the
    unexpected error. *)
Theorem scrape_company_classification (c : company) :
  let r := scrape c in
  fr_company_id r = c_id c /\ fr_slug r = c_slug c /\
  (str_truthy (c_api_url c) = false ->
     fr_jobs r = [] /\ fr_error r = Some "no api_url"%string /\ fr_requests r = []) /\
  (str_truthy (c_api_url c) = true -> c_ats c ∉ PARSERS ->
     fr_jobs r = [] /\ fr_error r = Some ("no parser for " +:+ c_ats c) /\
     fr_requests r = []) /\
  (forall u, c_api_url c = Some u -> u <> ""%string -> c_ats c ∈ PARSERS ->
     fr_requests r = [u] /\
     (forall d jobs, net u = Status 200 (Json d) ->
        parse_jobs (c_ats c) d (c_slug c) = inr jobs ->
        fr_jobs r = jobs /\ fr_error r = None) /\
     (forall d e, net u = Status 200 (Json d) ->
        parse_jobs (c_ats c) d (c_slug c) = inl e ->
        fr_jobs r = [] /\ fr_error r = Some ("unexpected error: " +:+ e)) /\
     (forall e, net u = Status 200 (NotJson e) ->
        fr_jobs r = [] /\ fr_error r = Some ("json decode error: " +:+ e)) /\
     (forall e, net u = Status 200 (ReadTimeout e) ->
        fr_jobs r = [] /\ fr_error r = Some ("json decode error: " +:+ e)) /\
     (forall e, net u = Status 200 (ReadClientError e) ->
        fr_jobs r = [] /\ fr_error r = Some ("json decode error: " +:+ e)) /\
     (forall b, net u = Status 404 b -> fr_jobs r = [] /\ fr_error r = None) /\
     (forall b, net u = Status 429 b ->
        fr_jobs r = [] /\ fr_error r = Some "rate limited (429)"%string) /\
     (forall status b, net u = Status status b ->
        status <> 200 -> status <> 404 -> status <> 429 ->
        fr_jobs r = [] /\ fr_error r = Some ("HTTP " +:+ pretty status)) /\
     (net u = TimeoutError ->
        fr_jobs r = [] /\ fr_error r = Some "timeout"%string) /\
     (forall e, net u = ClientError e ->
        fr_jobs r = [] /\ fr_error r = Some ("connection error: " +:+ e)) /\
     (forall e, net u = OtherError e ->
        fr_jobs r = [] /\ fr_error r = Some ("unexpected error: " +:+ e))).
Proof.
  cbv zeta. split; [|split]; [| |split; [|split]].
  - apply scrape_company_ids.
  - apply scrape_company_ids.
  - apply scrape_company_no_endpoint.
  - apply scrape_company_no_adapter.
  - intros u Hu Hne Hats. rewrite (scrape_company_fetch c u Hu Hne Hats). cbv zeta.
    split.
    { destruct (net u) as [status b| | |]; try done.
      repeat (destruct (_ =? _); try done).
      destruct (read_json b); [done|]. by destruct (parse_jobs _ _ _). }
    repeat lazymatch goal with |- _ /\ _ => split end.
    + intros d jobs -> Hp. cbn. by rewrite Hp.
    + intros d e -> Hp. cbn. by rewrite Hp.
    + by intros e ->.
    + by intros e ->.
    + by intros e ->.
    + by intros b ->.
    + by intros b ->.
    + intros status b -> H200 H404 H429.
      destruct (Z.eqb_spec status 200); [done|].
      destruct (Z.eqb_spec status 404); [done|].
      by destruct (Z.eqb_spec status 429).
    + by intros ->.
    + by intros e ->.
    + by intros e ->.
Qed.

End FetchFacts.

(** ** Applying the results *)

Section LoopFacts.
Import StoreFacts RetryFacts.

Variable check_bracketed_netloc : list ascii -> bool.
Variable parse_jobs : string -> json -> string -> string + list ParsedJob.
Variable net : string -> response.
Local Abbreviation scrape := (scrape_company parse_jobs net).
Local Abbreviation apply_one := (apply_result check_bracketed_netloc).
Local Abbreviation apply_all := (apply_results check_bracketed_netloc).
Local Abbreviation upsert := (upsert_job check_bracketed_netloc).

(** A result with an error is counted and completed, and nothing else
    happens: no store request, no checkpoint. *)
Lemma apply_result_error remaining dry_run run_id r s w :
  str_truthy (fr_error r) = true ->
  apply_one remaining dry_run run_id r s w =
  (Ok (add_completed (fr_company_id r) (add_error s)), w).
Proof. intros H. unfold apply_result. by rewrite H. Qed.

(** A result without error and without records is completed, and
    nothing else happens. *)
Lemma apply_result_empty remaining dry_run run_id r s w :
  str_truthy (fr_error r) = false -> fr_jobs r = [] ->
  apply_one remaining dry_run run_id r s w =
  (Ok (add_completed (fr_company_id r) s), w).
Proof. intros H1 H2. unfold apply_result. by rewrite H1, H2. Qed.

(** C4 (amended).  A target whose fetch returned HTTP 404 adds nothing to
    the error counter; a target without endpoint and a target without
    registered adapter each add one.  All three are marked completed and
    leave the world as it is. *)
Theorem error_counter_contributions remaining dry_run run_id c s w :
  let out := apply_one remaining dry_run run_id (scrape c) s w in
  (forall u b, c_api_url c = Some u -> u <> ""%string -> c_ats c ∈ PARSERS ->
     net u = Status 404 b ->
     exists s', out = (Ok s', w) /\ error_count s' = error_count s /\
                c_id c ∈ completed_ids s') /\
  (str_truthy (c_api_url c) = false ->
     exists s', out = (Ok s', w) /\ error_count s' = error_count s + 1 /\
                c_id c ∈ completed_ids s') /\
  (str_truthy (c_api_url c) = true -> c_ats c ∉ PARSERS ->
     exists s', out = (Ok s', w) /\ error_count s' = error_count s + 1 /\
                c_id c ∈ completed_ids s').
Proof.
  cbv zeta. destruct (scrape_company_ids parse_jobs net c) as [Hid _].
  split; [|split].
  - intros u b Hu Hne Hats Hnet.
    destruct (scrape_company_404 parse_jobs net c u b Hu Hne Hats Hnet)
      as [Hjobs Herr].
    rewrite apply_result_empty by (by rewrite ?Herr).
    eexists. split; [reflexivity|]. rewrite Hid. simpl.
    split; [done|by apply elem_of_union_l, elem_of_singleton].
  - intros H. destruct (scrape_company_no_endpoint parse_jobs net c H) as (_ & Herr & _).
    rewrite apply_result_error by (by rewrite Herr).
    eexists. split; [reflexivity|]. rewrite Hid. simpl.
    split; [done|by apply elem_of_union_l, elem_of_singleton].
  - intros H Hats.
    destruct (scrape_company_no_adapter parse_jobs net c H Hats) as (_ & Herr & _).
    rewrite apply_result_error by (by rewrite Herr).
    eexists. split; [reflexivity|]. rewrite Hid. simpl.
    split; [done|by apply elem_of_union_l, elem_of_singleton].
Qed.

Lemma save_progress_ok run_id s w :
  save_progress run_id s w = (Ok tt, snd (save_progress run_id s w)).
Proof. reflexivity. Qed.

(** A handler that returns makes the whole [try] return. *)
Lemma try_except_returns {A} (m : M A) (a : A) w :
  exists a' w', try_except m (fun _ => ret a) w = (Ok a', w').
Proof.
  unfold try_except. destruct (m w) as [[a'|e] w']; eauto.
Qed.



End LoopFacts.

(** ** The run does not depend on the disk *)

Section DiskFacts.

Variable check_bracketed_netloc : list ascii -> bool.
Variable parse_jobs : string -> json -> string -> string + list ParsedJob.
Variable net : string -> response.

Lemma same_but_disk_fields w1 w2 :
  same_but_disk w1 w2 <->
  w_store w1 = w_store w2 /\ w_configured w1 = w_configured w2 /\
  w_client w1 = w_client w2 /\ w_request_count w1 = w_request_count w2 /\
  w_clients_created w1 = w_clients_created w2 /\ w_faults w1 = w_faults w2 /\
  w_sleeps w1 = w_sleeps w2 /\ w_requests w1 = w_requests w2 /\
  w_clock w1 = w_clock w2.
Proof.
  unfold same_but_disk, erase_disk, set_file. split.
  - intros [=]. by repeat split.
  - intros (-> & -> & -> & -> & -> & -> & -> & -> & ->). reflexivity.
Qed.

Create HintDb blind.

Lemma blind_ret {A} (a : A) : disk_blind (ret a).
Proof. by intros w1 w2 H. Qed.

Lemma blind_raise {A} e : disk_blind (@raise A e).
Proof. by intros w1 w2 H. Qed.

Lemma blind_bind {A B} (m : M A) (k : A -> M B) :
  disk_blind m -> (forall a, disk_blind (k a)) -> disk_blind (bind m k).
Proof.
  intros Hm Hk w1 w2 H. destruct (Hm w1 w2 H) as [Hr Hw]. unfold bind.
  destruct (m w1) as [[a1|e1] w1'], (m w2) as [[a2|e2] w2']; simpl in *;
    try discriminate.
  - injection Hr as ->. by apply Hk.
  - injection Hr as ->. done.
Qed.

Lemma blind_try {A} (m : M A) (h : string -> M A) :
  disk_blind m -> (forall e, disk_blind (h e)) -> disk_blind (try_except m h).
Proof.
  intros Hm Hh w1 w2 H. destruct (Hm w1 w2 H) as [Hr Hw]. unfold try_except.
  destruct (m w1) as [[a1|e1] w1'], (m w2) as [[a2|e2] w2']; simpl in *;
    try discriminate.
  - by rewrite Hr.
  - injection Hr as ->. by apply Hh.
Qed.

Lemma same_map (f : world -> world) w1 w2 :
  (forall w, erase_disk (f w) = f (erase_disk w)) ->
  same_but_disk w1 w2 -> same_but_disk (f w1) (f w2).
Proof. intros Hf H. unfold same_but_disk in *. by rewrite !Hf, H. Qed.

(** Reading a field that is not on the disk. *)
Lemma blind_get {A} (f : world -> A) :
  (forall w, f (erase_disk w) = f w) -> disk_blind (get f).
Proof.
  intros Hf w1 w2 H. split; [|done]. simpl.
  by rewrite <- (Hf w1), <- (Hf w2), H.
Qed.

(** Changing fields that are not on the disk. *)
Lemma blind_modify (f : world -> world) :
  (forall w, erase_disk (f w) = f (erase_disk w)) -> disk_blind (modify f).
Proof.
  intros Hf w1 w2 H. split; [done|]. unfold same_but_disk in *. simpl.
  by rewrite !Hf, H.
Qed.

(** Changing the disk only. *)
Lemma blind_disk_write (f : world -> world) :
  (forall w, erase_disk (f w) = erase_disk w) -> disk_blind (modify f).
Proof.
  intros Hf w1 w2 H. split; [done|]. unfold same_but_disk in *. simpl.
  by rewrite !Hf.
Qed.

Lemma blind_save_checkpoint data : disk_blind (save_checkpoint data).
Proof.
  apply blind_disk_write. intros w. by destruct (w_disk w) as [|[] ?].
Qed.
#[local] Hint Resolve blind_save_checkpoint : blind.

Lemma blind_clear_checkpoint : disk_blind clear_checkpoint.
Proof.
  apply blind_disk_write. intros w. by destruct (w_disk w) as [|[] ?].
Qed.
#[local] Hint Resolve blind_clear_checkpoint : blind.

Ltac blind :=
  repeat lazymatch goal with
  | |- disk_blind (ret _) => apply blind_ret
  | |- disk_blind (raise _) => apply blind_raise
  | |- disk_blind (bind _ _) => apply blind_bind; [|intros ?]
  | |- disk_blind (try_except _ _) => apply blind_try; [|intros ?]
  | |- disk_blind (get _) => apply blind_get; reflexivity
  | |- disk_blind (modify _) => apply blind_modify; reflexivity
  | |- disk_blind (if _ then _ else _) => case_match
  | |- disk_blind (match ?x with _ => _ end) => destruct x
  | |- disk_blind _ => first [assumption | solve [auto with blind nocore]]
  end.

Lemma blind_create_client : disk_blind create_client.
Proof.
  intros w1 w2 H. apply same_but_disk_fields in H as H'.
  destruct H' as (_ & _ & _ & _ & Hn & _). unfold create_client. simpl.
  rewrite Hn. split; [done|].
  by apply (same_map (set_client (Some (S (w_clients_created w2)))
                        (S (w_clients_created w2)))).
Qed.
#[local] Hint Resolve blind_create_client : blind.

Lemma blind_fresh_client : disk_blind fresh_client.
Proof.
  unfold fresh_client. blind.
Qed.
#[local] Hint Resolve blind_fresh_client : blind.

Lemma blind_get_client : disk_blind get_client.
Proof.
  unfold get_client. blind.
Qed.
#[local] Hint Resolve blind_get_client : blind.

Lemma blind_execute {A} (op : store -> A * store) : disk_blind (execute op).
Proof.
  intros w1 w2 H. apply same_but_disk_fields in H as H'.
  destruct H' as (Hs & _ & _ & _ & _ & Hf & _). unfold execute.
  rewrite Hf, Hs.
  destruct (w_faults w2) as [|[e|] rest]; try destruct (op (w_store w2)) as [a s];
    (split; [done|]).
  - by apply (same_map (set_store s)).
  - by apply (same_map (set_faults rest)).
  - by apply (same_map (fun w => set_store s (set_faults rest w))).
Qed.
#[local] Hint Resolve blind_execute : blind.

Lemma blind_request {A} (op : store -> A * store) : disk_blind (request op).
Proof. unfold request. blind. Qed.
#[local] Hint Resolve blind_request : blind.

Lemma blind_sleep d : disk_blind (sleep d).
Proof. unfold sleep. blind. Qed.
#[local] Hint Resolve blind_sleep : blind.

Lemma blind_retry_loop {A} (fn : M A) retries delay attempts :
  disk_blind fn -> disk_blind (retry_loop fn retries delay attempts).
Proof.
  intros Hfn. induction attempts as [|k l IH]; cbn [retry_loop]; blind; done.
Qed.

Lemma blind_retry {A} (fn : M A) retries delay :
  disk_blind fn -> disk_blind (_retry fn retries delay).
Proof. apply blind_retry_loop. Qed.
#[local] Hint Resolve blind_retry : blind.

Lemma blind_data_of {A} (r : option (list A)) : disk_blind (data_of r).
Proof. unfold data_of. blind. Qed.
#[local] Hint Resolve blind_data_of : blind.

Lemma blind_upsert_job a : disk_blind (upsert_job check_bracketed_netloc a).
Proof.
  unfold upsert_job, hash_url_s. blind.
Qed.
#[local] Hint Resolve blind_upsert_job : blind.

Lemma blind_upsert_all jobs ats name company_id n w1 w2 :
  same_but_disk w1 w2 ->
  fst (upsert_all check_bracketed_netloc jobs ats name company_id n w1) =
  fst (upsert_all check_bracketed_netloc jobs ats name company_id n w2) /\
  same_but_disk
    (snd (upsert_all check_bracketed_netloc jobs ats name company_id n w1))
    (snd (upsert_all check_bracketed_netloc jobs ats name company_id n w2)).
Proof.
  revert n w1 w2. induction jobs as [|job jobs IH]; intros n w1 w2 H; [done|].
  cbn [upsert_all].
  destruct (blind_upsert_job (job_call job ats name company_id) w1 w2 H) as [Hr Hw].
  destruct (upsert_job _ _ w1) as [[[o1 b1]|e1] w1'],
           (upsert_job _ _ w2) as [[[o2 b2]|e2] w2']; simpl in *;
    try discriminate.
  - injection Hr as -> ->. by apply IH.
  - injection Hr as ->. done.
Qed.

Lemma blind_update_company company_id t n : disk_blind (update_company company_id t n).
Proof. unfold update_company. blind. Qed.
#[local] Hint Resolve blind_update_company : blind.

Lemma blind_save_progress run_id s : disk_blind (save_progress run_id s).
Proof. unfold save_progress. blind. Qed.
#[local] Hint Resolve blind_save_progress : blind.

Lemma blind_apply_result remaining dry_run run_id r s :
  disk_blind (apply_result check_bracketed_netloc remaining dry_run run_id r s).
Proof.
  unfold apply_result. destruct (str_truthy _); [blind|].
  destruct (fr_jobs r) as [|job jobs]; [blind|].
  destruct dry_run; [blind|].
  intros w1 w2 H.
  destruct (blind_upsert_all (job :: jobs)
              (ats_source_of (company_info_of remaining (fr_company_id r)))
              (company_name_of (company_info_of remaining (fr_company_id r)))
              (fr_company_id r)
              (new_jobs (add_found (Z.of_nat (length (job :: jobs))) s))
              w1 w2 H) as [Hr Hw].
  destruct (upsert_all _ _ _ _ _ _ w1) as [[n1 [e1|]] w1'],
           (upsert_all _ _ _ _ _ _ w2) as [[n2 [e2|]] w2']; simpl in Hr, Hw;
    try discriminate; injection Hr as ->; try subst e2.
  - match goal with |- fst (?m _) = fst (?m _) /\ _ =>
      enough (disk_blind m) as Hb by (by apply Hb) end.
    blind.
  - match goal with |- fst (?m _) = fst (?m _) /\ _ =>
      enough (disk_blind m) as Hb by (by apply Hb) end.
    blind.
Qed.
#[local] Hint Resolve blind_apply_result : blind.

Lemma blind_apply_results remaining dry_run run_id results : forall s,
  disk_blind (apply_results check_bracketed_netloc remaining dry_run run_id results s).
Proof.
  induction results as [|r rest IH]; intros s; cbn [apply_results]; blind.
Qed.
#[local] Hint Resolve blind_apply_results : blind.

Lemma blind_gather remaining : disk_blind (gather parse_jobs net remaining).
Proof. unfold gather. blind. Qed.
#[local] Hint Resolve blind_gather : blind.

Lemma blind_run_plan dry_run p :
  disk_blind (run_plan check_bracketed_netloc parse_jobs net dry_run p).
Proof.
  unfold run_plan, start_scrape_run, get_job_count, finish_scrape_run. blind.
Qed.
#[local] Hint Resolve blind_run_plan : blind.

Lemma blind_select_targets ck ats_filter company_filter limit fresh :
  disk_blind (select_targets ck ats_filter company_filter limit fresh).
Proof.
  unfold select_targets, get_verified_companies. blind.
Qed.
#[local] Hint Resolve blind_select_targets : blind.

(** [run_scraper] is its set-up and run on the dictionary it loaded. *)
Lemma run_scraper_loaded ats_filter company_filter limit dry_run resume fresh w :
  run_scraper check_bracketed_netloc parse_jobs net
    ats_filter company_filter limit dry_run resume fresh w =
  (p <- select_targets (loaded_checkpoint resume fresh w)
          ats_filter company_filter limit fresh ;;
   match p with
   | None => ret None
   | Some p => s <- run_plan check_bracketed_netloc parse_jobs net dry_run p ;;
               ret (Some s)
   end) w.
Proof.
  unfold run_scraper, loaded_checkpoint. destruct (resume && negb fresh); [|done].
  unfold bind at 1, load_checkpoint, bind at 1, get.
  by destruct (w_file w).
Qed.

(** C10.  Two runs that start in worlds differing only in how the writes
    to the checkpoint file will end (and hence two runs of which one
    meets [OSError] in [save_checkpoint] and the other does not) return
    the same totals or raise the same exception, and leave the same
    store, client, sleeps, requests and clock: a failed checkpoint write
    changes nothing but the checkpoint file. *)
Theorem checkpoint_write_failure_is_swallowed
    ats_filter company_filter limit dry_run resume fresh (w1 w2 : world) :
  same_but_disk w1 w2 ->
  w_file w1 = w_file w2 ->
  let out1 := run_scraper check_bracketed_netloc parse_jobs net
                ats_filter company_filter limit dry_run resume fresh w1 in
  let out2 := run_scraper check_bracketed_netloc parse_jobs net
                ats_filter company_filter limit dry_run resume fresh w2 in
  fst out1 = fst out2 /\ same_but_disk (snd out1) (snd out2).
Proof.
  intros H Hfile. cbv zeta. rewrite !run_scraper_loaded.
  assert (loaded_checkpoint resume fresh w1 = loaded_checkpoint resume fresh w2) as ->.
  { unfold loaded_checkpoint. by rewrite Hfile. }
  match goal with |- fst (?m _) = fst (?m _) /\ _ =>
    enough (disk_blind m) as Hb by (by apply Hb) end.
  blind.
Qed.

End DiskFacts.

(** ** Resuming from a checkpoint *)

Section ResumeFacts.
Import StoreFacts RetryFacts.

Variable check_bracketed_netloc : list ascii -> bool.
Variable parse_jobs : string -> json -> string -> string + list ParsedJob.
Variable net : string -> response.
Local Abbreviation scrape := (scrape_company parse_jobs net).

Create HintDb quiet.

Lemma quiet_ret {A} (a : A) : quiet (ret a).
Proof. by intros w. Qed.

Lemma quiet_raise {A} e : quiet (@raise A e).
Proof. by intros w. Qed.

Lemma quiet_get {A} (f : world -> A) : quiet (get f).
Proof. by intros w. Qed.

Lemma quiet_bind {A B} (m : M A) (k : A -> M B) :
  quiet m -> (forall a, quiet (k a)) -> quiet (bind m k).
Proof.
  intros Hm Hk w. unfold bind. specialize (Hm w).
  destruct (m w) as [[a|e] w']; simpl in *; [|done]. by rewrite Hk.
Qed.

Lemma quiet_try {A} (m : M A) (h : string -> M A) :
  quiet m -> (forall e, quiet (h e)) -> quiet (try_except m h).
Proof.
  intros Hm Hh w. unfold try_except. specialize (Hm w).
  destruct (m w) as [[a|e] w']; simpl in *; [done|]. by rewrite Hh.
Qed.

Lemma quiet_modify (f : world -> world) :
  (forall w, w_requests (f w) = w_requests w) -> quiet (modify f).
Proof. intros Hf w. apply Hf. Qed.

Ltac quiet :=
  repeat lazymatch goal with
  | |- quiet (ret _) => apply quiet_ret
  | |- quiet (raise _) => apply quiet_raise
  | |- quiet (get _) => apply quiet_get
  | |- quiet (bind _ _) => apply quiet_bind; [|intros ?]
  | |- quiet (try_except _ _) => apply quiet_try; [|intros ?]
  | |- quiet (modify _) => apply quiet_modify; reflexivity
  | |- quiet (if _ then _ else _) => case_match
  | |- quiet (match ?x with _ => _ end) => destruct x
  | |- quiet _ => first [assumption | solve [auto with quiet nocore]]
  end.

Lemma quiet_save_checkpoint data : quiet (save_checkpoint data).
Proof.
  apply quiet_modify. intros w. by destruct (w_disk w) as [|[] ?].
Qed.
#[local] Hint Resolve quiet_save_checkpoint : quiet.

Lemma quiet_clear_checkpoint : quiet clear_checkpoint.
Proof.
  apply quiet_modify. intros w. by destruct (w_disk w) as [|[] ?].
Qed.
#[local] Hint Resolve quiet_clear_checkpoint : quiet.

Lemma quiet_get_client : quiet get_client.
Proof. intros w. apply agc_requests. Qed.
#[local] Hint Resolve quiet_get_client : quiet.

Lemma quiet_execute {A} (op : store -> A * store) : quiet (execute op).
Proof.
  intros w. unfold execute.
  destruct (w_faults w) as [|[e|] rest]; try destruct (op (w_store w)); done.
Qed.
#[local] Hint Resolve quiet_execute : quiet.

Lemma quiet_request {A} (op : store -> A * store) : quiet (request op).
Proof. unfold request. quiet. Qed.
#[local] Hint Resolve quiet_request : quiet.

Lemma quiet_sleep d : quiet (sleep d).
Proof. unfold sleep. quiet. Qed.
#[local] Hint Resolve quiet_sleep : quiet.

Lemma quiet_retry_loop {A} (fn : M A) retries delay attempts :
  quiet fn -> quiet (retry_loop fn retries delay attempts).
Proof.
  intros Hfn. induction attempts as [|k l IH]; cbn [retry_loop]; quiet; done.
Qed.

Lemma quiet_retry {A} (fn : M A) retries delay :
  quiet fn -> quiet (_retry fn retries delay).
Proof. apply quiet_retry_loop. Qed.
#[local] Hint Resolve quiet_retry : quiet.

Lemma quiet_data_of {A} (r : option (list A)) : quiet (data_of r).
Proof. unfold data_of. quiet. Qed.
#[local] Hint Resolve quiet_data_of : quiet.

Lemma quiet_upsert_job a : quiet (upsert_job check_bracketed_netloc a).
Proof. unfold upsert_job, hash_url_s. quiet. Qed.
#[local] Hint Resolve quiet_upsert_job : quiet.

Lemma quiet_upsert_all jobs ats name company_id n w :
  w_requests (snd (upsert_all check_bracketed_netloc jobs ats name company_id n w)) =
  w_requests w.
Proof.
  revert n w. induction jobs as [|job jobs IH]; intros n w; [done|].
  cbn [upsert_all].
  pose proof (quiet_upsert_job (job_call job ats name company_id) w) as Hq.
  destruct (upsert_job _ _ w) as [[[o b]|e] w']; simpl in *; [|done].
  by rewrite IH.
Qed.

Lemma quiet_update_company company_id t n : quiet (update_company company_id t n).
Proof. unfold update_company. quiet. Qed.
#[local] Hint Resolve quiet_update_company : quiet.

Lemma quiet_save_progress run_id s : quiet (save_progress run_id s).
Proof. unfold save_progress. quiet. Qed.
#[local] Hint Resolve quiet_save_progress : quiet.

Lemma quiet_apply_result remaining dry_run run_id r s :
  quiet (apply_result check_bracketed_netloc remaining dry_run run_id r s).
Proof.
  unfold apply_result. destruct (str_truthy _); [quiet|].
  destruct (fr_jobs r) as [|job jobs]; [quiet|].
  destruct dry_run; [quiet|].
  intros w.
  pose proof (quiet_upsert_all (job :: jobs)
              (ats_source_of (company_info_of remaining (fr_company_id r)))
              (company_name_of (company_info_of remaining (fr_company_id r)))
              (fr_company_id r)
              (new_jobs (add_found (Z.of_nat (length (job :: jobs))) s)) w) as Hq.
  destruct (upsert_all _ _ _ _ _ _ w) as [[n [e|]] w']; simpl in Hq;
    rewrite <- Hq;
    match goal with |- w_requests (snd (?m _)) = _ =>
      enough (quiet m) as Hb by apply Hb end;
    quiet.
Qed.
#[local] Hint Resolve quiet_apply_result : quiet.

Lemma quiet_apply_results remaining dry_run run_id results : forall s,
  quiet (apply_results check_bracketed_netloc remaining dry_run run_id results s).
Proof.
  induction results as [|r rest IH]; intros s; cbn [apply_results]; quiet.
Qed.
#[local] Hint Resolve quiet_apply_results : quiet.

Lemma quiet_select_targets ck ats_filter company_filter limit fresh :
  quiet (select_targets ck ats_filter company_filter limit fresh).
Proof. unfold select_targets, get_verified_companies. quiet. Qed.

(** ** What the loop adds to the totals *)

Lemma bind_inv {A B} (m : M A) (k : A -> M B) w b w' :
  bind m k w = (Ok b, w') ->
  exists a w1, m w = (Ok a, w1) /\ k a w1 = (Ok b, w').
Proof.
  unfold bind. destruct (m w) as [[a|e] w1]; [eauto|discriminate].
Qed.

Lemma update_company_returns company_id t n w :
  exists w', update_company company_id t n w = (Ok tt, w').
Proof.
  unfold update_company.
  destruct (try_except_returns
    (request (fun s => (tt, with_companies
       (map (fun c =>
          if String.eqb (c_id c) company_id
          then {| c_id := c_id c; c_slug := c_slug c; c_ats := c_ats c;
                  c_api_url := c_api_url c; c_name := c_name c;
                  c_verified := true;
                  c_last_scraped_at := Some t;
                  c_job_count := Some n |}
          else c) (s_companies s)) s))) tt w) as ([] & w' & ->).
  eauto.
Qed.

(** One result that was applied without exception: its company is
    completed, its records are counted when it has no error, and it
    counts as one error when it has one. *)
Lemma apply_result_totals remaining dry_run run_id r s w s' w' :
  apply_result check_bracketed_netloc remaining dry_run run_id r s w = (Ok s', w') ->
  completed_ids s' = {[fr_company_id r]} ∪ completed_ids s /\
  total_jobs s' = total_jobs s + found_in [r] /\
  error_count s' = error_count s + errors_in [r].
Proof.
  unfold apply_result, found_in, errors_in. cbn [List.filter flat_map].
  destruct (str_truthy (fr_error r)) eqn:Herr.
  { intros [= <- <-]. simpl. repeat split; lia. }
  rewrite app_nil_r.
  destruct (fr_jobs r) as [|job jobs] eqn:Hjobs.
  { intros [= <- <-]. simpl. repeat split; lia. }
  destruct dry_run.
  { intros [= <- <-]. cbn -[Z.of_nat length]. simpl (Z.of_nat (length [])).
    repeat split; lia. }
  destruct (upsert_all _ _ _ _ _ _ w) as [[n [e|]] w1].
  - unfold bind at 1. rewrite save_progress_ok. discriminate.
  - intros (now & w2 & _ & H)%bind_inv.
    apply bind_inv in H as ([] & w3 & _ & H).
    apply bind_inv in H as ([] & w4 & _ & H).
    injection H as <- <-. cbn -[Z.of_nat length]. simpl (Z.of_nat (length [])).
    repeat split; lia.
Qed.

Lemma found_in_cons r results :
  found_in (r :: results) = found_in [r] + found_in results.
Proof.
  unfold found_in. cbn [flat_map]. rewrite app_nil_r, length_app. lia.
Qed.

Lemma errors_in_cons r results :
  errors_in (r :: results) = errors_in [r] + errors_in results.
Proof.
  unfold errors_in. cbn [List.filter]. destruct (str_truthy _); simpl length; lia.
Qed.

Lemma apply_results_totals remaining dry_run run_id results : forall s w s' w',
  apply_results check_bracketed_netloc remaining dry_run run_id results s w
    = (Ok s', w') ->
  completed_ids s' = list_to_set (map fr_company_id results) ∪ completed_ids s /\
  total_jobs s' = total_jobs s + found_in results /\
  error_count s' = error_count s + errors_in results.
Proof.
  induction results as [|r rest IH]; intros s w s' w'; cbn [apply_results].
  - intros [= <- <-]. unfold found_in, errors_in. simpl.
    repeat split; [by rewrite (left_id_L ∅ (∪))|lia|lia].
  - intros (s1 & w1 & H1 & H2)%bind_inv.
    apply apply_result_totals in H1 as (Hc1 & Ht1 & He1).
    apply IH in H2 as (Hc2 & Ht2 & He2).
    rewrite found_in_cons, errors_in_cons, Hc2, Hc1, Ht2, Ht1, He2, He1.
    cbn [map list_to_set]. repeat split; [|lia|lia].
    by rewrite (assoc_L (∪)), (comm_L (∪) (list_to_set _)).
Qed.

Lemma scrape_ids companies :
  map fr_company_id (map scrape companies) = map c_id companies.
Proof.
  rewrite map_map. apply map_ext. intros c.
  by destruct (scrape_company_ids parse_jobs net c) as (-> & _).
Qed.

(** [run_plan] that returns has fetched the remaining companies and
    nothing else, and its totals are those of the plan plus those of the
    results. *)
Lemma run_plan_totals dry_run p w s w' :
  run_plan check_bracketed_netloc parse_jobs net dry_run p w = (Ok s, w') ->
  let results := map scrape (p_remaining p) in
  w_requests w' = w_requests w ++ flat_map fr_requests results /\
  completed_ids s =
    list_to_set (map c_id (p_remaining p)) ∪ completed_ids (p_state p) /\
  total_jobs s = total_jobs (p_state p) + found_in results /\
  error_count s = error_count (p_state p) + errors_in results.
Proof.
  unfold run_plan. intros (run_id & w1 & H1 & H)%bind_inv.
  apply bind_inv in H as (results & w2 & H2 & H).
  apply bind_inv in H as (s1 & w3 & H3 & H).
  apply bind_inv in H as ([] & w4 & H4 & H).
  apply bind_inv in H as ([] & w5 & H5 & H).
  apply bind_inv in H as ([] & w6 & H6 & H).
  injection H as -> ->. cbv zeta.
  unfold gather, bind, modify, ret in H2. injection H2 as <- <-.
  apply apply_results_totals in H3 as H3'. rewrite scrape_ids in H3'.
  split; [|done].
  assert (w_requests w1 = w_requests w) as Hq1.
  { assert (quiet (if negb dry_run && negb (str_truthy (p_run_id p))
             then r <- start_scrape_run "ats_scraper"
                         (Z.of_nat (length (p_companies p))) ;;
                  ret (Some r)
             else ret (p_run_id p))) as Hq
      by (unfold start_scrape_run; quiet).
    specialize (Hq w). by rewrite H1 in Hq. }
  pose proof (quiet_apply_results (p_remaining p) dry_run run_id
                (map scrape (p_remaining p)) (p_state p)
                (set_requests (w_requests w1 ++
                   flat_map fr_requests (map scrape (p_remaining p))) w1)) as Hq3.
  rewrite H3 in Hq3. cbn [snd w_requests set_requests] in Hq3.
  assert (w_requests w4 = w_requests w3) as Hq4.
  { assert (quiet (if negb dry_run then get_job_count ;;; ret tt else ret tt)) as Hq
      by (unfold get_job_count; quiet).
    specialize (Hq w3). by rewrite H4 in Hq. }
  assert (w_requests w5 = w_requests w4) as Hq5.
  { assert (quiet (if negb dry_run && str_truthy run_id
             then finish_scrape_run (default "" run_id) (total_jobs s)
                    (new_jobs s) (error_count s) "completed"
             else ret tt)) as Hq
      by (unfold finish_scrape_run; quiet).
    specialize (Hq w4). by rewrite H5 in Hq. }
  pose proof (quiet_clear_checkpoint w5) as Hq6. rewrite H6 in Hq6.
  cbn [snd] in Hq6. by rewrite Hq6, Hq5, Hq4, Hq3, Hq1.
Qed.

End ResumeFacts.
(** * Further properties *)

(** ** The client singleton *)

Module ClientFacts.
Import StoreFacts.

(** X1.  [get_client] raises exactly when it has to create a client (there
    is none, or the request count has reached the reset threshold) and the
    settings are missing; it then leaves the client and the count as they
    were.  A client that exists keeps serving without the settings. *)
Theorem get_client_raises_iff w :
  let must_create :=
    w_client w = None \/ _MAX_REQUESTS_BEFORE_RESET <= w_request_count w in
  (w_configured w = false /\ must_create ->
   exists e, get_client w = (Raise e, w)) /\
  (w_configured w = true \/ ~ must_create ->
   exists c, fst (get_client w) = Ok c /\ w_client (snd (get_client w)) = Some c).
Proof.
  cbv zeta. unfold _MAX_REQUESTS_BEFORE_RESET. split.
  - intros [Hc Hm]. run_monad. unfold _MAX_REQUESTS_BEFORE_RESET.
    destruct (w_client w) as [c|].
    + destruct Hm as [|Hm]; [done|].
      apply Z.leb_le in Hm. rewrite Hm, Hc. simpl. eauto.
    + rewrite Hc. simpl. eauto.
  - intros H. run_monad. unfold _MAX_REQUESTS_BEFORE_RESET.
    destruct (w_client w) as [c|] eqn:Hcl.
    + destruct (5000 <=? w_request_count w) eqn:Hn.
      * destruct H as [Hc|H]; [rewrite Hc; simpl; eauto|].
        exfalso. apply H. right. by apply Z.leb_le.
      * simpl. eauto.
    + destruct H as [Hc|H]; [rewrite Hc; simpl; eauto|].
      exfalso. apply H. by left.
Qed.

Lemma get_client_serves w :
  serving w ->
  exists c w', get_client w = (Ok c, w') /\ serving w' /\
               served w' = served w + 1.
Proof.
  intros (Hc & Hcl & Hn). unfold served. run_monad.
  unfold _MAX_REQUESTS_BEFORE_RESET. rewrite Hcl.
  destruct (5000 <=? w_request_count w) eqn:Hle.
  - apply Z.leb_le in Hle. rewrite Hc. simpl.
    eexists _, _. split; [reflexivity|]. unfold serving. simpl.
    repeat split; [done|lia|lia|lia].
  - apply Z.leb_gt in Hle. simpl.
    eexists _, _. split; [reflexivity|]. unfold serving. simpl.
    repeat split; [done|done|lia|lia|lia].
Qed.

Lemma get_client_times_serves n : forall w,
  serving w ->
  exists w', get_client_times n w = (Ok tt, w') /\ serving w' /\
             served w' = served w + Z.of_nat n.
Proof.
  induction n as [|n IH]; intros w Hw.
  - exists w. split; [done|]. split; [done|lia].
  - destruct (get_client_serves w Hw) as (c & w1 & H1 & Hw1 & Hs1).
    destruct (IH w1 Hw1) as (w2 & H2 & Hw2 & Hs2).
    exists w2. cbn [get_client_times]. unfold bind. rewrite H1, H2.
    split; [done|]. split; [done|lia].
Qed.

(** X2.  From the state in which the module is loaded, [n >= 1] calls of
    [get_client] with the settings present all return, and a new client is
    made for the first call and after every 5000 calls: there are
    [(n - 1) / 5000 + 1] clients in all, and the current one has served
    [(n - 1) mod 5000 + 1] calls. *)
Theorem get_client_resets_every_5000 n w :
  w_configured w = true -> w_client w = None -> w_request_count w = 0 ->
  w_clients_created w = 0%nat -> (0 < n)%nat ->
  let w' := snd (get_client_times n w) in
  fst (get_client_times n w) = Ok tt /\
  Z.of_nat (w_clients_created w') = (Z.of_nat n - 1) / 5000 + 1 /\
  w_request_count w' = (Z.of_nat n - 1) mod 5000 + 1 /\
  w_client w' = Some (w_clients_created w').
Proof.
  intros Hc Hcl Hn Hcr Hpos. destruct n as [|n]; [lia|].
  assert (exists w1, get_client w = (Ok 1%nat, w1) /\ serving w1 /\ served w1 = 5001)
    as (w1 & H1 & Hw1 & Hs1).
  { run_monad. rewrite Hcl. cbv beta iota. rewrite Hc. cbn. rewrite Hcr.
    eexists. split; [reflexivity|]. unfold serving, served. cbn.
    split; [|done]. split; [done|]. split; [done|lia]. }
  destruct (get_client_times_serves n w1 Hw1) as (w2 & H2 & Hw2 & Hs2).
  assert (get_client_times (S n) w = (Ok tt, w2)) as ->
    by (cbn [get_client_times]; unfold bind; by rewrite H1, H2).
  cbn [fst snd]. split; [done|].
  destruct Hw2 as (_ & Hcl2 & Hn2). rewrite Hs1 in Hs2. unfold served in Hs2.
  assert (Z.of_nat (S n) - 1 =
          5000 * (Z.of_nat (w_clients_created w2) - 1) + (w_request_count w2 - 1))
    as E by lia.
  split; [|split; [|done]].
  - rewrite <- (Z.div_unique_pos _ 5000 (Z.of_nat (w_clients_created w2) - 1)
                 (w_request_count w2 - 1)); lia.
  - rewrite <- (Z.mod_unique_pos _ 5000 (Z.of_nat (w_clients_created w2) - 1)
                 (w_request_count w2 - 1)); lia.
Qed.

Lemma get_client_resets_every_5000_witness :
  let w' := snd (get_client_times 3 (Examples.a_world [])) in
  fst (get_client_times 3 (Examples.a_world [])) = Ok tt /\
  Z.of_nat (w_clients_created w') = 1 /\
  w_request_count w' = 3 /\
  w_client w' = Some (w_clients_created w').
Proof.
  apply (get_client_resets_every_5000 3 (Examples.a_world []));
    [reflexivity..|lia].
Defined.

End ClientFacts.

(** ** The retry wrapper, for every function and every number of attempts *)

Module RetryMore.

Lemma retry_loop_never_none {A} (fn : M A) retries delay k : forall start w,
  retries - start = Z.of_nat (S k) ->
  fst (retry_loop fn retries delay (seqZ start (retries - start)) w) <> Ok None.
Proof.
  induction k as [|k IH]; intros start w Hlen.
  - rewrite Hlen. change (seqZ start (Z.of_nat 1)) with [0 + start].
    cbn [retry_loop]. unfold try_except, bind.
    destruct (fn w) as [[a|e] w1]; [done|].
    assert ((0 + start <? retries - 1) = false) as -> by (apply Z.ltb_ge; lia).
    rewrite andb_false_r. done.
  - rewrite seqZ_cons by lia. cbn [retry_loop]. unfold try_except, bind at 1.
    destruct (fn w) as [[a|e] w1]; [done|].
    destruct (_ && _); [|done].
    unfold bind, sleep, modify. cbn [fst snd].
    replace (Z.pred (retries - start)) with (retries - Z.succ start) by lia.
    apply IH. lia.
Qed.

(** X3.  With at least one attempt allowed, [_retry] never falls off the
    end of its loop: it returns what [fn] returned or raises, whatever
    [fn] does.  (With [retries <= 0] it returns [None] without calling
    [fn].) *)
Theorem retry_returns_or_raises {A} (fn : M A) retries delay w :
  1 <= retries -> fst (_retry fn retries delay w) <> Ok None.
Proof.
  intros Hr. unfold _retry.
  replace (seqZ 0 retries) with (seqZ 0 (retries - 0)) by (f_equal; lia).
  apply (retry_loop_never_none fn retries delay (Z.to_nat (retries - 1))). lia.
Qed.

Lemma retry_returns_or_raises_witness :
  fst (_retry (request (select_job_ids "k")) 3 1
         (set_faults Examples.two_resets (Examples.a_world []))) <> Ok None.
Proof.
  apply (retry_returns_or_raises (request (select_job_ids "k")) 3 1). lia.
Defined.

(** Without an attempt the loop body never runs. *)
Lemma retry_without_attempts {A} (fn : M A) retries delay w :
  retries <= 0 -> _retry fn retries delay w = (Ok None, w).
Proof.
  intros Hr. unfold _retry.
  assert (seqZ 0 retries = []) as -> by (apply seqZ_nil; lia). reflexivity.
Qed.

End RetryMore.
(** ** Identity keys, for every input *)

Section KeyFacts.
Import Py UrlLib UrlShape PyFacts CharFacts.

Variable check_bracketed_netloc : list ascii -> bool.

Lemma drop_while_app_tail p u r :
  forallb p r = true ->
  exists t, drop_while p (u ++ r) = drop_while p u ++ t /\ forallb p t = true.
Proof.
  intros Hr. induction u as [|c u IH]; simpl.
  - exists []. by rewrite (drop_while_all _ _ Hr).
  - destruct (p c); [exact IH|]. by exists r.
Qed.

(** [strip] does not see white space around its argument. *)
Lemma strip_outer l u r :
  forallb is_space l = true -> forallb is_space r = true ->
  strip (l ++ u ++ r) = strip u.
Proof.
  intros Hl Hr. unfold strip, lstrip. rewrite (drop_while_app_all _ _ _ Hl).
  destruct (drop_while_app_tail is_space u r Hr) as (t & -> & Ht).
  by apply rstrip_app_all.
Qed.

(** X4.  White space around a URL does not change its identity key: for
    every [u], also one that does not parse, [hash_url] gives the same
    result with and without it. *)
Theorem hash_url_ignores_outer_space l u r :
  forallb is_space l = true -> forallb is_space r = true ->
  hash_url check_bracketed_netloc (l ++ u ++ r) =
  hash_url check_bracketed_netloc u.
Proof.
  intros Hl Hr. unfold hash_url, normalize_url. by rewrite strip_outer.
Qed.

Lemma scheme_char_plain c :
  is_scheme_char c = true -> is_char "?" c = false /\ is_char "#" c = false.
Proof. by_cases_on c. Qed.

(** [urlunparse] with empty parameters, query and fragment adds nothing
    but slashes and a colon. *)
Lemma urlunparse_none_of (q : ascii -> bool) s h p :
  q "/"%char = false -> q ":"%char = false ->
  none_of q s = true -> none_of q h = true -> none_of q p = true ->
  none_of q (urlunparse s h p [] [] []) = true.
Proof.
  intros Hslash Hcolon Hs Hh Hp. unfold urlunparse, urlunsplit. cbn [truthy].
  assert (none_of q
            (if truthy p && negb (bool_decide (take 1 p = chars "/"))
             then "/"%char :: p else p) = true) as Hp'.
  { destruct (_ && _); [|done]. cbn [none_of forallb]. by rewrite Hslash. }
  destruct (truthy h || _).
  - destruct (truthy s).
    + rewrite none_of_app, Hs. cbn [none_of forallb andb]. rewrite Hcolon.
      cbn [negb andb]. change (forallb (fun c => negb (q c)) ?x) with (none_of q x).
      rewrite !none_of_app, Hh, Hp'. cbn [chars list_ascii_of_string none_of forallb].
      by rewrite Hslash.
    + rewrite !none_of_app, Hh, Hp'. cbn [chars list_ascii_of_string none_of forallb].
      by rewrite Hslash.
  - destruct (truthy s); [|done].
    rewrite none_of_app, Hs. cbn [none_of forallb andb]. rewrite Hcolon.
    exact Hp.
Qed.

(** X5.  Whatever the input, the normal form that [normalize_url]
    returns holds neither a query nor a fragment: there is no [?] and no
    [#] in it. *)
Theorem normalize_url_drops_query_and_fragment u v :
  normalize_url check_bracketed_netloc u = Some v ->
  none_of (is_char "?") v = true /\ none_of (is_char "#") v = true.
Proof.
  rewrite normalize_url_parts.
  destruct (normal_parts check_bracketed_netloc u) as [[[s h] p]|] eqn:E; [|done].
  intros [= <-].
  apply normal_parts_spec in E
    as (Hs & _ & _ & Hdelim & _ & _ & _ & _ & Hq & Hhash & _).
  apply wf_scheme_chars in Hs.
  split; apply urlunparse_none_of; try reflexivity; try assumption.
  - revert Hs. apply none_of_weaken. intros c Hc. by apply scheme_char_plain in Hc as [? _].
  - revert Hdelim. apply none_of_weaken. intros c Hc.
    apply negb_true_iff in Hc. unfold is_netloc_delim in Hc.
    by apply orb_false_elim in Hc as [[_ ?]%orb_false_elim _].
  - revert Hs. apply none_of_weaken. intros c Hc. by apply scheme_char_plain in Hc as [_ ?].
  - revert Hdelim. apply none_of_weaken. intros c Hc.
    apply negb_true_iff in Hc. unfold is_netloc_delim in Hc.
    by apply orb_false_elim in Hc as [_ ?].
Qed.

(** *** The digest *)

Lemma be_bytes_length n x : length (Sha256.be_bytes n x) = n.
Proof.
  revert x. induction n as [|n IH]; intros x; simpl; [done|].
  rewrite length_app, IH. simpl. lia.
Qed.

Lemma be_bytes_range n : forall x b, In b (Sha256.be_bytes n x) -> 0 <= b < 256.
Proof.
  induction n as [|n IH]; intros x b; simpl; [done|].
  rewrite in_app_iff. intros [H|[<-|[]]]; [by eapply IH|].
  apply Z.mod_pos_bound. lia.
Qed.

Lemma round_length s kw : length (Sha256.round s kw) = length s.
Proof.
  unfold Sha256.round.
  do 9 (destruct s as [|? s]; [reflexivity|]). reflexivity.
Qed.

Lemma rounds_length l : forall s, length (fold_left Sha256.round l s) = length s.
Proof.
  induction l as [|kw l IH]; intros s; simpl; [done|].
  by rewrite IH, round_length.
Qed.

Lemma compress_length h block : length (Sha256.compress h block) = length h.
Proof.
  unfold Sha256.compress. rewrite length_map, length_combine, rounds_length. lia.
Qed.

Lemma blocks_length n : forall h bytes,
  length (Sha256.blocks n h bytes) = length h.
Proof.
  induction n as [|n IH]; intros h bytes; simpl; [done|].
  by rewrite IH, compress_length.
Qed.

Lemma digest_length msg : length (Sha256.digest msg) = 32%nat.
Proof.
  unfold Sha256.digest.
  assert (forall l, length (flat_map (Sha256.be_bytes 4) l) = (4 * length l)%nat) as Hflat.
  { induction l as [|x l IH]; [done|]. cbn [flat_map].
    rewrite length_app, IH, be_bytes_length. simpl. lia. }
  rewrite Hflat, blocks_length. reflexivity.
Qed.

Lemma digest_range msg b : In b (Sha256.digest msg) -> 0 <= b < 256.
Proof.
  unfold Sha256.digest. rewrite in_flat_map. intros (x & _ & Hb).
  by eapply be_bytes_range.
Qed.

Lemma hex_digit_is_hex x : 0 <= x < 16 -> is_hex_digit (Sha256.hex_digit x) = true.
Proof.
  intros Hx.
  assert (forallb (fun x => is_hex_digit (Sha256.hex_digit x)) (seqZ 0 16) = true)
    as Hall by (vm_compute; reflexivity).
  rewrite forallb_forall in Hall. apply Hall.
  apply list_elem_of_In, elem_of_seqZ. lia.
Qed.

(** X6.  An identity key is 64 lowercase hexadecimal digits, whatever the
    URL it was computed from. *)
Theorem hash_url_is_64_hex_digits u key :
  hash_url check_bracketed_netloc u = Some key ->
  length key = 64%nat /\ forallb is_hex_digit key = true.
Proof.
  unfold hash_url.
  destruct (normalize_url check_bracketed_netloc u) as [v|]; [|done].
  intros [= <-]. unfold Sha256.hexdigest.
  pose proof (digest_length (utf8_encode v)) as Hlen.
  pose proof (digest_range (utf8_encode v)) as Hrange.
  revert Hlen Hrange. generalize (Sha256.digest (utf8_encode v)) as d.
  intros d Hlen Hrange. split.
  - assert (forall l : list Z,
      length (flat_map (fun b => [Sha256.hex_digit (b / 16);
                                  Sha256.hex_digit (b mod 16)]) l)
      = (2 * length l)%nat) as Hflat.
    { induction l as [|x l IH]; simpl; [done|]. rewrite IH. lia. }
    rewrite Hflat, Hlen. reflexivity.
  - clear Hlen. induction d as [|b d IH]; [done|].
    cbn [flat_map app forallb].
    assert (0 <= b < 256) as Hb by (apply Hrange; by left).
    rewrite !hex_digit_is_hex.
    + apply IH. intros x Hx. apply Hrange. by right.
    + apply Z.mod_pos_bound. lia.
    + split; [apply Z.div_pos; lia|apply Z.div_lt_upper_bound; lia].
Qed.

End KeyFacts.

(** Instances. *)

Lemma hash_url_ignores_outer_space_witness :
  hash_url no_bracket_check
    (Py.chars "  " ++ Py.chars "https://a.com/jobs/1" ++ [ascii_of_N 10]) =
  hash_url no_bracket_check (Py.chars "https://a.com/jobs/1").
Proof.
  apply (hash_url_ignores_outer_space no_bracket_check
           (Py.chars "  ") (Py.chars "https://a.com/jobs/1") [ascii_of_N 10]);
    reflexivity.
Defined.

Lemma normalize_url_drops_query_and_fragment_witness :
  UrlShape.none_of (Py.is_char "?") (Py.chars "https://a.com/x") = true /\
  UrlShape.none_of (Py.is_char "#") (Py.chars "https://a.com/x") = true.
Proof.
  apply (normalize_url_drops_query_and_fragment no_bracket_check
           (Py.chars "HTTPS://A.com/x/?page=2#top")).
  reflexivity.
Defined.

Lemma hash_url_is_64_hex_digits_witness :
  length Examples.posting_key = 64%nat /\
  forallb is_hex_digit Examples.posting_key = true.
Proof.
  apply (hash_url_is_64_hex_digits no_bracket_check
           (Py.chars (a_url Examples.posting))).
  reflexivity.
Defined.

(** ** Store requests and their retries, in every world *)

Module EffectFacts.
Import StoreFacts RetryFacts.

(** A request either fails and leaves the tables alone, or runs once on
    the tables as they are. *)
Lemma request_effect {A} (op : store -> A * store) w r w' :
  request op w = (r, w') ->
  (w_store w' = w_store w /\ exists e, r = Raise e) \/
  (r = Ok (fst (op (w_store w))) /\ w_store w' = snd (op (w_store w))).
Proof.
  unfold request, bind. pose proof (agc_store w) as Hs.
  unfold after_get_client in Hs.
  destruct (get_client w) as [[c|e] w1]; cbn [snd] in Hs.
  - unfold execute. rewrite <- Hs. destruct (w_faults w1) as [|[msg|] rest].
    + destruct (op (w_store w1)) as [a s]. intros [= <- <-]. by right.
    + intros [= <- <-]. left. eauto.
    + destruct (op (w_store w1)) as [a s]. intros [= <- <-]. by right.
  - intros [= <- <-]. left. eauto.
Qed.

(** So does a retried request: the attempts that failed changed nothing. *)
Lemma retry_loop_effect {A} (op : store -> A * store) retries delay attempts :
  forall w r w',
  retry_loop (request op) retries delay attempts w = (r, w') ->
  (w_store w' = w_store w /\ forall a, r <> Ok (Some a)) \/
  (r = Ok (Some (fst (op (w_store w)))) /\ w_store w' = snd (op (w_store w))).
Proof.
  induction attempts as [|k rest IH]; intros w r w'; cbn [retry_loop].
  - intros [= <- <-]. by left.
  - unfold try_except, bind at 1.
    destruct (request op w) as [[a|e] w1] eqn:E;
      apply request_effect in E as [[Hs [e' He]]|[Hr Hs]]; try discriminate.
    + injection Hr as ->. intros [= <- <-]. by right.
    + destruct (_ && _).
      * unfold bind at 1 2, sleep, modify. intros H. apply IH in H.
        cbn [w_store set_request_count set_sleeps] in H. by rewrite Hs in H.
      * intros [= <- <-]. left. split; [done|]. intros a. discriminate.
Qed.

Lemma retry_effect {A} (op : store -> A * store) retries delay w r w' :
  _retry (request op) retries delay w = (r, w') ->
  (w_store w' = w_store w /\ forall a, r <> Ok (Some a)) \/
  (r = Ok (Some (fst (op (w_store w)))) /\ w_store w' = snd (op (w_store w))).
Proof. apply retry_loop_effect. Qed.

(** A caught request never raises. *)
Lemma caught_effect {A B} (op : store -> A * store) (k : A -> B) (b : B) w :
  exists r w', try_except (a <- request op ;; ret (k a)) (fun _ => ret b) w
                 = (Ok r, w') /\
    ((w_store w' = w_store w /\ r = b) \/
     (r = k (fst (op (w_store w))) /\ w_store w' = snd (op (w_store w)))).
Proof.
  unfold try_except, bind.
  destruct (request op w) as [[a|e] w1] eqn:E;
    apply request_effect in E as [[Hs [e' He]]|[Hr Hs]]; try discriminate.
  - injection Hr as ->. eexists _, _. split; [reflexivity|]. by right.
  - eexists _, _. split; [reflexivity|]. by left.
Qed.

End EffectFacts.

(** ** [upsert_job] in every world *)

Section RowsInEveryWorld.
Import StoreFacts RetryFacts RowFacts EffectFacts.

Variable check_bracketed_netloc : list ascii -> bool.
Local Abbreviation upsert := (upsert_job check_bracketed_netloc).
Local Abbreviation key_of := (hash_url check_bracketed_netloc).

(** What a call does to the tables: nothing, one insert of the new row
    for a key that no row has, or one update by the id of a row that has
    the key; and [is_new] is [True] only after the insert. *)
Lemma upsert_job_effect a w r w' :
  upsert a w = (r, w') ->
  let s := w_store w in
  (w_store w' = s /\ forall o, r <> Ok (o, true)) \/
  (exists key,
     key_of (Py.chars (a_url a)) = Some key /\
     rows_with (Py.text key) s = [] /\
     w_store w' = snd (insert_job (new_row a (Py.text key) (w_clock w)) s) /\
     r = Ok (head (fst (insert_job (new_row a (Py.text key) (w_clock w)) s)),
             true)) \/
  (exists key job_id o,
     key_of (Py.chars (a_url a)) = Some key /\
     rows_with (Py.text key) s <> [] /\
     w_store w' = snd (update_job (job_updates a (w_clock w)) job_id s) /\
     r = Ok (o, false)).
Proof.
  unfold upsert_job, hash_url_s.
  destruct (key_of (Py.chars (a_url a))) as [key|] eqn:Hkey;
    [|intros [= <- <-]; left; split; [done|]; intros o; discriminate].
  set (K := Py.text key). rewrite bind_ret. cbv beta.
  rewrite (bind_ok _ _ _ _ _ (eq_refl : get w_clock w = (Ok (w_clock w), w))).
  cbv beta. set (now := w_clock w). unfold bind at 1.
  destruct (_retry (request (select_job_ids K)) 3 1 w) as [[existing|e] w1] eqn:E1;
    apply retry_effect in E1 as [[Hs1 Hn1]|[Hr1 Hs1]]; try discriminate;
    cbn [select_job_ids fst snd] in *.
  - (* the loop fell through *)
    destruct existing as [d|]; [by destruct (Hn1 d)|].
    intros [= <- <-]. left. split; [done|]. intros o. discriminate.
  - injection Hr1 as ->. cbn [data_of]. rewrite bind_ret. cbv beta.
    fold (rows_with K (w_store w)).
    destruct (rows_with K (w_store w)) as [|first others] eqn:Hrows; cbn [map].
    + (* insert *)
      unfold try_except, bind at 1.
      destruct (_retry (request (insert_job (new_row a K now))) 3 1 w1)
        as [[result|e] w2] eqn:E2;
        apply retry_effect in E2 as [[Hs2 Hn2]|[Hr2 Hs2]]; try discriminate.
      * destruct result as [d|]; [by destruct (Hn2 d)|].
        intros [= <- <-]. left. split; [congruence|]. intros o. discriminate.
      * injection Hr2 as ->. rewrite Hs1 in *.
        intros [= <- <-]. right. left. exists key. by rewrite Hs2.
      * intros [= <- <-]. left. split; [congruence|]. intros o. discriminate.
    + (* update *)
      destruct (_ !! "id") as [job_id|] eqn:Hid;
        [|intros [= <- <-]; left; split; [done|]; intros o; discriminate].
      unfold try_except, bind at 1.
      destruct (_retry (request (update_job (job_updates a now) job_id)) 3 1 w1)
        as [[result|e] w2] eqn:E2;
        apply retry_effect in E2 as [[Hs2 Hn2]|[Hr2 Hs2]]; try discriminate.
      * destruct result as [d|]; [by destruct (Hn2 d)|].
        intros [= <- <-]. left. split; [congruence|]. intros o. discriminate.
      * injection Hr2 as ->. rewrite Hs1 in *.
        intros [= <- <-]. right. right. exists key, job_id. eexists.
        split; [done|]. split; [fold K; by rewrite Hrows|].
        split; [done|reflexivity].
      * intros [= <- <-]. left. split; [congruence|]. intros o. discriminate.
  - intros [= <- <-]. left. split; [done|]. intros o. discriminate.
Qed.

Lemma key_cell (row : gmap string value) h :
  cell_is "url_hash" (VStr h) row = true <-> row !! "url_hash" = Some (VStr h).
Proof.
  unfold cell_is. destruct (row !! "url_hash") as [[]|]; cbn [value_eqb];
    try (split; [discriminate|intros [=]]).
  rewrite String.eqb_eq. split; [by intros ->|by intros [= ->]].
Qed.

Lemma job_keys_absent h s : rows_with h s = [] -> h ∉ job_keys s.
Proof.
  unfold rows_with, job_keys. intros Hrows Hin.
  apply list_elem_of_omap in Hin as (row & Hrow & Hk).
  assert (In row (List.filter (cell_is "url_hash" (VStr h)) (s_jobs s))) as Hf.
  { apply filter_In. split; [by apply list_elem_of_In|]. apply key_cell.
    destruct (row !! "url_hash") as [[]|]; try discriminate. by injection Hk as ->. }
  by rewrite Hrows in Hf.
Qed.

Lemma job_keys_insert row h s :
  row !! "url_hash" = Some (VStr h) ->
  job_keys (snd (insert_job row s)) = job_keys s ++ [h].
Proof.
  intros Hrow. unfold job_keys, insert_job. cbn [snd s_jobs with_next_id with_jobs].
  rewrite omap_app. cbn [omap list_omap]. rewrite lookup_insert_ne by discriminate.
  by rewrite Hrow.
Qed.

Lemma omap_map_same {A B} (f : A -> option B) (g : A -> A) l :
  (forall x, f (g x) = f x) -> omap f (map g l) = omap f l.
Proof.
  intros H. induction l as [|x l IH]; [done|].
  change (omap f (g x :: map g l) = omap f (x :: l)).
  change (omap f (?y :: ?t)) with
    (match f y with Some z => z :: omap f t | None => omap f t end).
  by rewrite H, IH.
Qed.

Lemma job_keys_update upd job_id s :
  upd !! "url_hash" = None ->
  job_keys (snd (update_job upd job_id s)) = job_keys s.
Proof.
  intros Hupd. unfold job_keys, update_job. cbn [snd s_jobs with_jobs].
  apply omap_map_same. intros row.
  destruct (cell_is "id" job_id row); [|done].
  by rewrite (lookup_union_r upd row _ Hupd).
Qed.


Lemma lookup_map_row (f : gmap string value -> gmap string value) l (i : nat) :
  map f l !! i = f <$> (l !! i).
Proof.
  revert i. induction l as [|x l IH]; intros [|i]; try done. apply IH.
Qed.

(** X8.  [upsert_job] never deletes or moves a row, and in no row does it
    change a cell other than [last_seen], [is_active], [company_id],
    [salary_min] and [salary_max]: in every world, each row is found at
    its index after the call, with its other cells as they were. *)
Theorem upsert_job_keeps_rows a w (i : nat) row :
  s_jobs (w_store w) !! i = Some row ->
  exists row',
    s_jobs (w_store (snd (upsert a w))) !! i = Some row' /\
    forall k, k ∉ mutable_keys -> row' !! k = row !! k.
Proof.
  intros Hrow. destruct (upsert a w) as [r w'] eqn:E. cbn [snd].
  apply upsert_job_effect in E
    as [[-> _]|[(key & _ & Hrows & -> & _)|(key & job_id & o & _ & _ & -> & _)]].
  - by exists row.
  - exists row. split; [|done]. unfold insert_job.
    cbn [snd s_jobs with_next_id with_jobs]. by apply lookup_app_l_Some.
  - unfold update_job. cbn [snd s_jobs with_jobs].
    rewrite lookup_map_row, Hrow. cbn [fmap option_fmap option_map].
    eexists. split; [reflexivity|]. intros k Hk.
    destruct (cell_is "id" job_id row); [|done].
    apply lookup_union_r. by apply job_updates_only.
Qed.

Lemma length_text l : String.length (Py.text l) = length l.
Proof. unfold Py.text. induction l as [|c l IH]; simpl; [done|]. by rewrite IH. Qed.

Lemma length_chars s : length (Py.chars s) = String.length s.
Proof. unfold Py.chars. induction s as [|c s IH]; simpl; [done|]. by rewrite IH. Qed.

Lemma strip_length l : (length (Py.strip l) <= length l)%nat.
Proof.
  unfold Py.strip, Py.lstrip.
  destruct (PyFacts.rstrip_prefix Py.is_space (Py.drop_while Py.is_space l)) as [t Ht].
  destruct (PyFacts.drop_while_suffix Py.is_space l) as [pre Hpre].
  apply (f_equal (@length ascii)) in Ht, Hpre. rewrite length_app in Ht, Hpre. lia.
Qed.

Lemma strip_s_length s : (String.length (strip_s s) <= String.length s)%nat.
Proof.
  unfold strip_s. rewrite length_text, <- length_chars. apply strip_length.
Qed.

Lemma substring_length m : forall s,
  (String.length (String.substring 0 m s) <= m)%nat.
Proof.
  induction m as [|m IH]; intros [|c s]; simpl; try lia.
  specialize (IH s). lia.
Qed.

Lemma new_row_description a h t v :
  new_row a h t !! "description" = Some v ->
  exists d, v = VStr d /\ (String.length d <= 500)%nat.
Proof.
  unfold new_row. cbv zeta. skip_setters.
  unfold set_str at 1. destruct (a_description a) as [d|].
  - destruct (String.eqb d "").
    + skip_setters. by rewrite !lookup_insert_ne.
    + rewrite lookup_insert_eq. intros [= <-]. eexists. split; [reflexivity|].
      etrans; [apply strip_s_length|apply substring_length].
  - skip_setters. by rewrite !lookup_insert_ne.
Qed.

Lemma new_row_remote_type a h t v :
  new_row a h t !! "remote_type" = Some v ->
  exists x, v = VStr x /\ valid_remote_type x = true.
Proof.
  unfold new_row. cbv zeta. skip_setters.
  unfold set_if at 1. destruct (_ && _) eqn:Hok.
  - rewrite lookup_insert_eq. intros [= <-]. eexists. split; [reflexivity|].
    by apply andb_prop in Hok as [_ ?].
  - skip_setters. by rewrite !lookup_insert_ne.
Qed.

(** X9.  Whenever [upsert_job] adds a row to the jobs table, in whatever
    world, it adds one row at the end and returns it with [is_new = True];
    the row has the identity key of the URL, the id the store gave it,
    [first_seen] and [last_seen] at the time of the call and
    [is_active = True]; its description, if it has one, is at most 500
    characters long, and its remote type, if it has one, is one of
    [remote], [onsite], [hybrid] and [unknown]. *)
Theorem upsert_job_inserted_row a w (i : nat) row :
  (length (s_jobs (w_store w)) <= i)%nat ->
  s_jobs (w_store (snd (upsert a w))) !! i = Some row ->
  i = length (s_jobs (w_store w)) /\
  fst (upsert a w) = Ok (Some row, true) /\
  (exists key, key_of (Py.chars (a_url a)) = Some key /\
               row !! "url_hash" = Some (VStr (Py.text key))) /\
  row !! "id" = Some (VStr (pretty (s_next_id (w_store w)))) /\
  row !! "first_seen" = Some (VTime (w_clock w)) /\
  row !! "last_seen" = Some (VTime (w_clock w)) /\
  row !! "is_active" = Some (VBool true) /\
  (forall v, row !! "description" = Some v ->
             exists d, v = VStr d /\ (String.length d <= 500)%nat) /\
  (forall v, row !! "remote_type" = Some v ->
             exists x, v = VStr x /\ valid_remote_type x = true).
Proof.
  intros Hi. destruct (upsert a w) as [r w'] eqn:E. cbn [fst snd].
  apply upsert_job_effect in E
    as [[-> _]|[(key & Hkey & Hrows & -> & ->)|(key & job_id & o & _ & _ & -> & _)]].
  - intros Hrow. apply lookup_lt_Some in Hrow. lia.
  - unfold insert_job. cbn [fst snd s_jobs with_next_id with_jobs head].
    intros Hrow. rewrite lookup_app_r in Hrow by done.
    apply list_lookup_singleton_Some in Hrow as [Hi' <-].
    split; [lia|]. split; [done|].
    destruct (new_row_cells a (Py.text key) (w_clock w)) as (Hh & _ & _ & Hf & Hl & Ha).
    split; [exists key; split; [done|]; by rewrite lookup_insert_ne|].
    split; [apply lookup_insert_eq|].
    rewrite !lookup_insert_ne by discriminate. do 3 (split; [done|]).
    split; intros v.
    + apply new_row_description.
    + apply new_row_remote_type.
  - unfold update_job. cbn [snd s_jobs with_jobs].
    intros Hrow. apply lookup_lt_Some in Hrow. rewrite length_map in Hrow. lia.
Qed.

End RowsInEveryWorld.

Import Examples.


(** The world after [posting] was stored once. *)
Local Abbreviation stored_once :=
  (snd (upsert_job no_bracket_check posting (a_world []))).

Lemma upsert_job_keeps_rows_witness :
  exists row',
    s_jobs (w_store (snd (upsert_job no_bracket_check posting
                            (set_clock 200 stored_once)))) !! 0%nat = Some row' /\
    row' !! "first_seen" = Some (VTime 100) /\
    row' !! "last_seen" = Some (VTime 200).
Proof.
  assert (s_jobs (w_store (set_clock 200 stored_once)) !! 0%nat =
          Some (<["id" := VStr "0"]> (new_row posting (Py.text posting_key) 100)))
    as Hrow by (vm_compute; reflexivity).
  destruct (upsert_job_keeps_rows no_bracket_check posting
              (set_clock 200 stored_once) 0 _ Hrow) as (row' & Hrow' & Hsame).
  exists row'. split; [exact Hrow'|]. split.
  - rewrite Hsame; [vm_compute; reflexivity|]. RowFacts.not_mutable.
  - vm_compute in Hrow'. injection Hrow' as <-. vm_compute. reflexivity.
Defined.

Lemma upsert_job_inserted_row_witness :
  exists row,
    fst (upsert_job no_bracket_check posting (a_world [])) = Ok (Some row, true) /\
    row !! "url_hash" = Some (VStr (Py.text posting_key)) /\
    row !! "first_seen" = Some (VTime 100).
Proof.
  assert (s_jobs (w_store stored_once) !! 0%nat =
          Some (<["id" := VStr "0"]> (new_row posting (Py.text posting_key) 100)))
    as Hrow by (vm_compute; reflexivity).
  destruct (upsert_job_inserted_row no_bracket_check posting (a_world []) 0 _
              (Nat.le_refl 0) Hrow)
    as (_ & Hr & (key & Hkey & Hh) & _ & Hf & _).
  eexists. split; [exact Hr|]. split; [|exact Hf].
  rewrite Hh. f_equal. f_equal. f_equal.
  assert (hash_url no_bracket_check (Py.chars (a_url posting)) = Some posting_key)
    as Hk by (vm_compute; reflexivity).
  congruence.
Defined.
(** ** Batches *)

Section BatchFacts.
Import StoreFacts RetryFacts RowFacts EffectFacts.

Variable check_bracketed_netloc : list ascii -> bool.
Local Abbreviation upsert := (upsert_job check_bracketed_netloc).
Local Abbreviation key_of := (hash_url check_bracketed_netloc).
Local Abbreviation bulk := (bulk_loop check_bracketed_netloc).

(** One call adds a row exactly when it returns [is_new = True]. *)
Lemma upsert_job_growth a w o is_new w' :
  upsert a w = (Ok (o, is_new), w') ->
  length (s_jobs (w_store w')) =
  (length (s_jobs (w_store w)) + if is_new then 1 else 0)%nat.
Proof.
  intros E. apply upsert_job_effect in E
    as [[-> Hn]|[(key & _ & _ & -> & Hr)|(key & job_id & o' & _ & _ & -> & Hr)]].
  - destruct is_new; [by destruct (Hn o)|lia].
  - injection Hr as -> ->. unfold insert_job.
    cbn [snd s_jobs with_next_id with_jobs]. rewrite length_app. simpl. lia.
  - injection Hr as -> ->. unfold update_job. cbn [snd s_jobs with_jobs].
    rewrite length_map. lia.
Qed.

Lemma bulk_loop_counts jobs : forall nc uc w n u w',
  bulk jobs nc uc w = (Ok (n, u), w') ->
  n + u = nc + uc + Z.of_nat (length jobs) /\ nc <= n /\ uc <= u /\
  Z.of_nat (length (s_jobs (w_store w'))) =
    Z.of_nat (length (s_jobs (w_store w))) + (n - nc).
Proof.
  induction jobs as [|job rest IH]; intros nc uc w n u w'; cbn [bulk_loop].
  - intros [= <- <- <-]. simpl. lia.
  - intros ([o is_new] & w1 & H1 & H)%bind_inv. cbn [snd] in H.
    apply upsert_job_growth in H1.
    destruct is_new; apply IH in H as (? & ? & ? & ?);
      cbn [length]; lia.
Qed.

(** X10.  When [bulk_upsert_jobs] returns, in whatever world, its two
    counts add up to the size of the batch, and [new_count] is exactly the
    number of rows by which the jobs table has grown: a job whose insert
    failed is counted under [updated_count]. *)
Theorem bulk_upsert_jobs_counts jobs w n u w' :
  bulk_upsert_jobs check_bracketed_netloc jobs w = (Ok (n, u), w') ->
  n + u = Z.of_nat (length jobs) /\ 0 <= n /\ 0 <= u /\
  Z.of_nat (length (s_jobs (w_store w'))) =
    Z.of_nat (length (s_jobs (w_store w))) + n.
Proof.
  intros H. apply bulk_loop_counts in H as (? & ? & ? & ?).
  repeat split; lia.
Qed.

(** *** In a world whose store answers *)

Lemma rows_with_key h s :
  rows_with h s <> [] <-> h ∈ job_keys s.
Proof.
  split.
  - intros Hrows. destruct (rows_with h s) as [|row l] eqn:E; [done|].
    assert (In row (rows_with h s)) as Hin by (rewrite E; by left).
    apply filter_In in Hin as [Hin Hcell]. apply key_cell in Hcell.
    unfold job_keys. apply list_elem_of_omap. exists row.
    split; [by apply list_elem_of_In|]. by rewrite Hcell.
  - intros Hin Hrows. by apply (job_keys_absent _ _ Hrows).
Qed.

Lemma whole_world w : set_clock (w_clock w) w = w.
Proof. by destruct w. Qed.

(** A call in a healthy world on a table whose rows have ids. *)
Lemma upsert_job_healthy a key w :
  key_of (Py.chars (a_url a)) = Some key ->
  healthy w -> rows_have_id (w_store w) ->
  let K := Py.text key in
  let s := w_store w in
  exists o w',
    upsert a w = (Ok (o, bool_decide (K ∉ job_keys s)), w') /\
    healthy w' /\ rows_have_id (w_store w') /\
    job_keys (w_store w') =
      if bool_decide (K ∈ job_keys s) then job_keys s else job_keys s ++ [K].
Proof.
  intros Hkey Hw Hids K s.
  unfold upsert_job.
  rewrite (bind_ok _ _ _ _ _ (hash_url_s_ok _ _ _ _ Hkey)); cbv beta.
  rewrite (bind_ok _ _ _ _ _ (eq_refl : get w_clock w = (Ok (w_clock w), w)));
    cbv beta.
  rewrite (bind_ok _ _ _ _ _ (retried_request_healthy _ _ Hw)); cbv beta.
  cbn [select_job_ids fst snd data_of].
  fold K. fold (rows_with K (w_store w)). fold s.
  set (w1 := set_store _ _).
  assert (healthy w1) as Hw1 by (by apply healthy_after_request).
  assert (w_store w1 = s) as Hs1 by (subst w1; by frame).
  destruct (rows_with K s) as [|first others] eqn:Hrows.
  - pose proof (job_keys_absent _ _ Hrows) as Habsent.
    rewrite (bool_decide_eq_true_2 _ Habsent), (bool_decide_eq_false_2 _ Habsent).
    cbn [map]. rewrite bind_ret; cbv beta iota. unfold try_except.
    rewrite (bind_ok _ _ _ _ _ (retried_request_healthy _ _ Hw1)); cbv beta.
    cbn [insert_job fst snd data_of]. rewrite bind_ret; cbv beta iota.
    eexists _, _. split; [reflexivity|].
    split; [by apply healthy_after_request|].
    cbn [w_store set_store]. rewrite Hs1. split.
    + unfold rows_have_id. cbn [s_jobs with_next_id with_jobs].
      apply Forall_app. split; [exact Hids|].
      apply Forall_singleton. rewrite lookup_insert_eq. by eexists.
    + apply (job_keys_insert (new_row a K (w_clock w)) K s), new_row_cells.
  - assert (K ∈ job_keys s) as Hin
      by (apply rows_with_key; by rewrite Hrows).
    assert (~ (K ∉ job_keys s)) as Hnot by (intros H; by apply H).
    rewrite (bool_decide_eq_false_2 _ Hnot), (bool_decide_eq_true_2 _ Hin).
    assert (In first (rows_with K s)) as Hfirst by (rewrite Hrows; by left).
    apply filter_In in Hfirst as [Hfirst _].
    unfold rows_have_id in Hids. rewrite Forall_forall in Hids.
    destruct (Hids first) as [job_id Hid]; [by apply list_elem_of_In|].
    cbn [map]. rewrite Hid. rewrite bind_ret; cbv beta iota.
    rewrite lookup_singleton_eq. unfold try_except.
    rewrite (bind_ok _ _ _ _ _ (retried_request_healthy _ _ Hw1)); cbv beta.
    cbn [fst snd data_of]. rewrite bind_ret; cbv beta iota.
    eexists _, _. split; [reflexivity|].
    split; [by apply healthy_after_request|].
    cbn [w_store set_store]. rewrite Hs1. split.
    + unfold rows_have_id, update_job. cbn [snd s_jobs with_jobs].
      rewrite Forall_forall. intros row (row0 & <- & Hrow0)%list_elem_of_In%in_map_iff.
      destruct (Hids row0) as [v Hv]; [by apply list_elem_of_In|].
      destruct (cell_is "id" job_id row0); [|by eexists].
      exists v. rewrite lookup_union_r; [done|]. apply job_updates_only. not_mutable.
    + apply job_keys_update, job_updates_only. not_mutable.
Qed.

Lemma bulk_loop_healthy jobs : forall keys nc uc w,
  Forall2 (fun job k => option_map Py.text (key_of (Py.chars (a_url job))) = Some k)
    jobs keys ->
  healthy w -> rows_have_id (w_store w) ->
  let added := fresh_keys (job_keys (w_store w)) keys in
  exists n u w',
    bulk jobs nc uc w = (Ok (n, u), w') /\
    n = nc + Z.of_nat (length added) /\
    u = uc + Z.of_nat (length jobs) - Z.of_nat (length added) /\
    job_keys (w_store w') = job_keys (w_store w) ++ added.
Proof.
  induction jobs as [|job rest IH]; intros keys nc uc w Hkeys Hw Hids.
  - apply Forall2_nil_inv_l in Hkeys as ->. cbn.
    exists nc, uc, w. rewrite app_nil_r. split; [done|]. split; [lia|]. split; [lia|done].
  - apply Forall2_cons_inv_l in Hkeys as (k & keys' & Hk & Hkeys & ->).
    destruct (key_of (Py.chars (a_url job))) as [key|] eqn:Hkey; [|done].
    injection Hk as <-.
    destruct (upsert_job_healthy job key w Hkey Hw Hids)
      as (o & w1 & H1 & Hw1 & Hids1 & Hkeys1).
    cbn [bulk_loop fresh_keys]. rewrite (bind_ok _ _ _ _ _ H1). cbn [snd].
    destruct (bool_decide (Py.text key ∈ job_keys (w_store w))) eqn:Hin.
    + apply bool_decide_eq_true in Hin.
      assert (~ (Py.text key ∉ job_keys (w_store w))) as Hnot by (intros H; by apply H).
      rewrite (bool_decide_eq_false_2 _ Hnot).
      destruct (IH keys' nc (uc + 1) w1 Hkeys Hw1 Hids1) as (n & u & w' & -> & Hn & Hu & Hk').
      rewrite Hkeys1 in *. exists n, u, w'. split; [done|].
      cbn [length]. split; [lia|]. split; [lia|done].
    + apply bool_decide_eq_false in Hin.
      rewrite (bool_decide_eq_true_2 _ Hin).
      destruct (IH keys' (nc + 1) uc w1 Hkeys Hw1 Hids1) as (n & u & w' & -> & Hn & Hu & Hk').
      rewrite Hkeys1 in *. exists n, u, w'. split; [done|].
      cbn [length]. split; [lia|]. split; [lia|]. by rewrite Hk', <- app_assoc.
Qed.

(** X11.  In a world whose store answers, on a jobs table whose rows
    have ids, a batch of jobs whose URLs parse is deduplicated by identity
    key: [bulk_upsert_jobs] returns, [new_count] is the number of distinct
    keys of the batch that the table did not hold, exactly these keys are
    added to the table, in the order of their first occurrence, and every
    other job of the batch is counted as updated. *)
Theorem bulk_upsert_jobs_deduplicates jobs keys w :
  Forall2 (fun job k => option_map Py.text (key_of (Py.chars (a_url job))) = Some k)
    jobs keys ->
  healthy w -> rows_have_id (w_store w) ->
  let added := fresh_keys (job_keys (w_store w)) keys in
  exists w',
    bulk_upsert_jobs check_bracketed_netloc jobs w =
      (Ok (Z.of_nat (length added),
           Z.of_nat (length jobs) - Z.of_nat (length added)), w') /\
    job_keys (w_store w') = job_keys (w_store w) ++ added.
Proof.
  intros Hkeys Hw Hids.
  destruct (bulk_loop_healthy jobs keys 0 0 w Hkeys Hw Hids)
    as (n & u & w' & H & -> & -> & Hk).
  exists w'. split; [|exact Hk]. unfold bulk_upsert_jobs. rewrite H.
  do 3 f_equal; lia.
Qed.

End BatchFacts.

Import Examples.

(** The same posting under another spelling of its URL, and a second
    posting. *)
Local Abbreviation posting_again :=
  {| a_url := "HTTPS://Boards.Example.com/acme/jobs/7/#apply";
     a_title := "SRE"; a_ats_source := "greenhouse";
     a_company_name := None; a_company_id := None; a_location := None;
     a_description := None; a_salary_min := None; a_salary_max := None;
     a_remote_type := None; a_seniority := None; a_platform := None;
     a_category := None; a_tags := None; a_easy_apply := false;
     a_posted_at := None; a_raw_data := None |}.

Lemma bulk_upsert_jobs_counts_witness :
  exists w',
    bulk_upsert_jobs no_bracket_check [posting; posting_again]
      (set_faults insert_fails (a_world [])) = (Ok (1, 1), w') /\
    length (s_jobs (w_store w')) = 1%nat.
Proof.
  assert (exists w', bulk_upsert_jobs no_bracket_check [posting; posting_again]
            (set_faults insert_fails (a_world [])) = (Ok (1, 1), w'))
    as [w' H] by (eexists; vm_compute; reflexivity).
  exists w'. split; [exact H|].
  destruct (bulk_upsert_jobs_counts no_bracket_check _ _ _ _ _ H)
    as (_ & _ & _ & Hlen).
  simpl in Hlen. lia.
Defined.

Lemma bulk_upsert_jobs_deduplicates_witness :
  exists w',
    bulk_upsert_jobs no_bracket_check [posting; posting_again; posting]
      (a_world []) = (Ok (1, 2), w') /\
    job_keys (w_store w') = [Py.text posting_key].
Proof.
  apply (bulk_upsert_jobs_deduplicates no_bracket_check
           [posting; posting_again; posting]
           [Py.text posting_key; Py.text posting_key; Py.text posting_key]
           (a_world [])).
  - repeat constructor; vm_compute; reflexivity.
  - split; reflexivity.
  - constructor.
Defined.
(** ** Companies and run log *)

Module TableFacts.
Import StoreFacts RetryFacts EffectFacts.

(** A request whose failure is swallowed never raises. *)
Lemma caught_request {A} (op : store -> A * store) (b : A) w :
  exists r w', try_except (request op) (fun _ => ret b) w = (Ok r, w') /\
    ((w_store w' = w_store w /\ r = b) \/
     (r = fst (op (w_store w)) /\ w_store w' = snd (op (w_store w)))).
Proof.
  unfold try_except.
  destruct (request op w) as [[a|e] w1] eqn:E;
    apply request_effect in E as [[Hs [e' He]]|[Hr Hs]]; try discriminate.
  - injection Hr as ->. eexists _, _. split; [reflexivity|]. by right.
  - eexists _, _. split; [reflexivity|]. by left.
Qed.

Lemma caught_request_at {A} (op : Z -> store -> A * store) (b : A) w :
  exists r w',
    try_except (now <- get w_clock ;; request (op now)) (fun _ => ret b) w
      = (Ok r, w') /\
    ((w_store w' = w_store w /\ r = b) \/
     (r = fst (op (w_clock w) (w_store w)) /\
      w_store w' = snd (op (w_clock w) (w_store w)))).
Proof. exact (caught_request (op (w_clock w)) b w). Qed.

Lemma lookup_map_any {A B} (f : A -> B) l (i : nat) :
  map f l !! i = f <$> (l !! i).
Proof.
  revert i. induction l as [|x l IH]; intros [|i]; try done. apply IH.
Qed.

(** X12.  [update_company], as [run_scraper] calls it, never raises, in
    whatever world (the settings may be missing, the request may fail),
    and it touches nothing but the companies with the given id: jobs and
    runs are as before, every company stays at its index with its id,
    slug, ats, api_url and name, and a company with another id is not
    changed at all. *)
Theorem update_company_is_local company_id t n w :
  exists w',
    update_company company_id t n w = (Ok tt, w') /\
    s_jobs (w_store w') = s_jobs (w_store w) /\
    s_runs (w_store w') = s_runs (w_store w) /\
    forall (i : nat) c, s_companies (w_store w) !! i = Some c ->
      exists c', s_companies (w_store w') !! i = Some c' /\
        c_id c' = c_id c /\ c_slug c' = c_slug c /\ c_ats c' = c_ats c /\
        c_api_url c' = c_api_url c /\ c_name c' = c_name c /\
        (c_id c <> company_id -> c' = c).
Proof.
  unfold update_company.
  match goal with
  | |- context [try_except (request ?op) _] =>
      destruct (caught_request op tt w) as ([] & w' & -> & [[Hs _]|[_ Hs]])
  end.
  - exists w'. rewrite Hs. do 3 (split; [done|]). intros i c Hc. exists c. by repeat split.
  - exists w'. split; [done|]. rewrite Hs.
    cbn [snd s_jobs s_runs s_companies with_companies].
    do 2 (split; [done|]). intros i c Hc.
    rewrite lookup_map_any, Hc. cbn [fmap option_fmap option_map].
    eexists. split; [reflexivity|].
    destruct (String.eqb (c_id c) company_id) eqn:E; cbn.
    + repeat split; try done. intros Hne. by apply String.eqb_eq in E.
    + by repeat split.
Qed.

(** X13.  [finish_scrape_run] never raises, in whatever world, and
    touches nothing but the runs with the given id: jobs and companies
    are as before, every run stays at its index with its id, source,
    start time and company count, and a run with another id is not
    changed at all. *)
Theorem finish_scrape_run_is_local run_id total new errors status w :
  exists w',
    finish_scrape_run run_id total new errors status w = (Ok tt, w') /\
    s_jobs (w_store w') = s_jobs (w_store w) /\
    s_companies (w_store w') = s_companies (w_store w) /\
    forall (i : nat) r, s_runs (w_store w) !! i = Some r ->
      exists r', s_runs (w_store w') !! i = Some r' /\
        r_id r' = r_id r /\ r_source r' = r_source r /\
        r_started_at r' = r_started_at r /\
        r_company_count r' = r_company_count r /\
        (r_id r <> run_id -> r' = r).
Proof.
  unfold finish_scrape_run.
  match goal with
  | |- context [try_except (now <- get w_clock ;; request (@?op now)) _] =>
      pose proof (caught_request_at op tt w) as H; cbv beta in H;
      destruct H as ([] & w' & -> & [[Hs _]|[_ Hs]])
  end.
  - exists w'. rewrite Hs. do 3 (split; [done|]). intros i r Hr. exists r. by repeat split.
  - exists w'. split; [done|]. rewrite Hs.
    cbn [snd s_jobs s_runs s_companies with_runs].
    do 2 (split; [done|]). intros i r Hr.
    rewrite lookup_map_any, Hr. cbn [fmap option_fmap option_map].
    eexists. split; [reflexivity|].
    destruct (String.eqb (r_id r) run_id) eqn:E; cbn.
    + repeat split; try done. intros Hne. by apply String.eqb_eq in E.
    + by repeat split.
Qed.

Lemma map_unchanged {A} (f : A -> A) l :
  Forall (fun x => f x = x) l -> map f l = l.
Proof.
  induction 1 as [|x l Hx _ IH]; [done|]. cbn [map]. by rewrite Hx, IH.
Qed.

(** X14.  Run log round trip: in a world whose store answers, and in
    which the id that the store will give is not the id of an earlier
    run, starting a run and finishing it under the id that was returned
    leaves exactly one more run in the log, with the source and company
    count it was started with, the status and totals it was finished with
    and both timestamps; the earlier runs are as before. *)
Theorem scrape_run_round_trip source cc total new errors status w :
  healthy w ->
  Forall (fun r => r_id r <> pretty (s_next_id (w_store w))) (s_runs (w_store w)) ->
  exists w',
    (run_id <- start_scrape_run source cc ;;
     finish_scrape_run run_id total new errors status ;;;
     ret run_id) w = (Ok (pretty (s_next_id (w_store w))), w') /\
    s_runs (w_store w') =
      s_runs (w_store w) ++
      [{| r_id := pretty (s_next_id (w_store w)); r_source := source;
          r_status := status; r_started_at := w_clock w;
          r_company_count := cc; r_totals := Some (total, new, errors);
          r_finished_at := Some (w_clock w) |}].
Proof.
  intros Hw Hfresh. unfold start_scrape_run.
  unfold bind at 1 2. cbn [get].
  rewrite (request_healthy _ _ Hw). cbn [fst snd].
  set (w1 := set_store _ _).
  assert (healthy w1) as Hw1 by (by apply healthy_after_request).
  assert (w_clock w1 = w_clock w) as Hc1 by (subst w1; by frame).
  unfold finish_scrape_run, try_except, bind. cbn [get].
  rewrite (request_healthy _ _ Hw1). cbn [fst snd ret].
  eexists. split; [reflexivity|].
  subst w1. frame. rewrite map_app. cbn [map r_id].
  rewrite String.eqb_refl. f_equal.
  apply map_unchanged. eapply Forall_impl; [exact Hfresh|]. intros r Hr.
  cbv beta. by apply String.eqb_neq in Hr as ->.
Qed.

Lemma scrape_run_round_trip_witness :
  exists w',
    (run_id <- start_scrape_run "ats_scraper" 10 ;;
     finish_scrape_run run_id 31 5 1 "completed" ;;;
     ret run_id) (Examples.a_world []) = (Ok "0"%string, w') /\
    s_runs (w_store w') =
      [{| r_id := "0"; r_source := "ats_scraper"; r_status := "completed";
          r_started_at := 100; r_company_count := 10;
          r_totals := Some (31, 5, 1); r_finished_at := Some 100 |}].
Proof.
  apply (scrape_run_round_trip "ats_scraper" 10 31 5 1 "completed"
           (Examples.a_world [])).
  - split; reflexivity.
  - constructor.
Defined.

Lemma chars_text l : Py.chars (Py.text l) = l.
Proof. apply list_ascii_of_string_of_list_ascii. Qed.

Lemma lower_s_idem x : lower_s (lower_s x) = lower_s x.
Proof. unfold lower_s. by rewrite chars_text, PyFacts.lower_idem. Qed.

(** X15.  [get_verified_companies] changes no table, and returns exactly
    the companies that are verified and have an [api_url]; with a
    non-empty [ats] argument, exactly those among them whose [ats] equals
    the lowercased argument.  The stored value is compared as it is: a
    company whose stored [ats] is not in lower case is returned for no
    non-empty argument, and an empty argument filters nothing. *)
Theorem get_verified_companies_selects ats w cs w' :
  get_verified_companies ats w = (Ok cs, w') ->
  w_store w' = w_store w /\
  (forall c, c ∈ cs <->
     c ∈ s_companies (w_store w) /\ c_verified c = true /\
     c_api_url c <> None /\
     (str_truthy ats = true -> option_map lower_s ats = Some (c_ats c))) /\
  (str_truthy ats = true -> forall c, c ∈ cs -> lower_s (c_ats c) = c_ats c).
Proof.
  unfold get_verified_companies. intros H.
  apply request_effect in H as [[_ [e He]]|[Hr Hs]]; [discriminate|].
  cbn [fst snd] in *. injection Hr as ->. split; [done|].
  assert (forall c, c ∈ List.filter
            (fun c => c_verified c &&
               match c_api_url c with Some _ => true | None => false end &&
               (if str_truthy ats
                then opt_eqb (option_map lower_s ats) (c_ats c) else true))
            (s_companies (w_store w)) <->
          c ∈ s_companies (w_store w) /\ c_verified c = true /\
          c_api_url c <> None /\
          (str_truthy ats = true -> option_map lower_s ats = Some (c_ats c)))
    as Hmem.
  { intros c. rewrite list_elem_of_In, filter_In, <- list_elem_of_In.
    rewrite !andb_true_iff.
    assert ((if str_truthy ats
             then opt_eqb (option_map lower_s ats) (c_ats c) else true) = true
            <-> (str_truthy ats = true ->
                 option_map lower_s ats = Some (c_ats c))) as ->.
    { destruct (str_truthy ats); [|by split].
      unfold opt_eqb. destruct (option_map lower_s ats) as [x|].
      - rewrite String.eqb_eq. split; [by intros -> _|].
        intros Hx. specialize (Hx eq_refl). by injection Hx.
      - split; [done|]. intros Hx. by specialize (Hx eq_refl). }
    destruct (c_api_url c) as [u|].
    - split; [intros (? & [? ?] & ?)|intros (? & ? & _ & ?)]; by repeat split.
    - split; [intros (_ & [_ [=]] & _)|intros (_ & _ & Hn & _); by destruct Hn]. }
  split; [exact Hmem|].
  intros Hats c (_ & _ & _ & Hc)%Hmem. specialize (Hc Hats).
  destruct ats as [x|]; [|done]. injection Hc as <-. apply lower_s_idem.
Qed.

Lemma get_verified_companies_selects_witness :
  forall c,
    c ∈ [Examples.lever_co] <->
    c ∈ [Examples.lever_co; Examples.no_adapter_co] /\ c_verified c = true /\
    c_api_url c <> None /\
    (str_truthy (Some "LEVER"%string) = true ->
     option_map lower_s (Some "LEVER"%string) = Some (c_ats c)).
Proof.
  apply (get_verified_companies_selects (Some "LEVER"%string)
           (Examples.a_world [Examples.lever_co; Examples.no_adapter_co])
           [Examples.lever_co] _ eq_refl).
Defined.

End TableFacts.
(** ** Cleanup of the jobs table *)

Section CleanupFacts.
Import StoreFacts RetryFacts RowFacts EffectFacts TableFacts.

Variable check_bracketed_netloc : list ascii -> bool.

(** A span that [timedelta] accepts and a time that [datetime] can
    represent. *)
Lemma timedelta_returns us w :
  Z.abs (us / microseconds_per_day) <= 999999999 ->
  timedelta us w = (Ok us, w).
Proof.
  intros Hdays. unfold timedelta.
  set (days := us / microseconds_per_day) in *.
  assert ((days <? - 2 ^ 31) || (2 ^ 31 - 1 <? days) = false) as ->.
  { apply orb_false_intro; apply Z.ltb_ge; lia. }
  by assert ((999999999 <? Z.abs days) = false) as -> by (apply Z.ltb_ge; lia).
Qed.

Lemma datetime_sub_returns now delta w :
  datetime_min <= now - delta <= datetime_max ->
  datetime_sub now delta w = (Ok (now - delta), w).
Proof.
  intros Hrange. unfold datetime_sub.
  assert ((now - delta <? datetime_min) || (datetime_max <? now - delta) = false)
    as -> by (apply orb_false_intro; apply Z.ltb_ge; lia).
  reflexivity.
Qed.

Lemma whole_days days : days * microseconds_per_day / microseconds_per_day = days.
Proof. apply Z.div_mul. discriminate. Qed.

Lemma whole_hours hours :
  hours * microseconds_per_hour / microseconds_per_day = hours / 24.
Proof.
  unfold microseconds_per_day. apply Z.div_mul_cancel_r; discriminate.
Qed.

Lemma filter_split {A} (p : A -> bool) l :
  (length (List.filter p l) + length (List.filter (fun x => negb (p x)) l))%nat
  = length l.
Proof.
  induction l as [|x l IH]; [done|]. cbn [List.filter].
  destruct (p x); cbn [negb length]; lia.
Qed.

(** X16.  For a number of days that [timedelta] accepts and a cutoff
    that [datetime] can represent, [delete_old_jobs] never raises, in
    whatever world; the count it returns is the number of rows that have
    gone (0 when the request failed); it adds no row, touches no other
    table, and keeps every row whose [first_seen] is not before the
    cutoff, and every row without [first_seen]. *)
Theorem delete_old_jobs_keeps_recent days w :
  Z.abs days <= 999999999 ->
  datetime_min <= w_clock w - days * microseconds_per_day <= datetime_max ->
  let cutoff := w_clock w - days * microseconds_per_day in
  exists n w',
    delete_old_jobs days w = (Ok n, w') /\
    Z.of_nat (length (s_jobs (w_store w))) =
      Z.of_nat (length (s_jobs (w_store w'))) + n /\
    0 <= n /\
    s_companies (w_store w') = s_companies (w_store w) /\
    s_runs (w_store w') = s_runs (w_store w) /\
    (forall row, row ∈ s_jobs (w_store w') -> row ∈ s_jobs (w_store w)) /\
    (forall row, row ∈ s_jobs (w_store w) ->
       cell_before "first_seen" cutoff row = false ->
       row ∈ s_jobs (w_store w')).
Proof.
  intros Hdays Hrange cutoff. unfold delete_old_jobs.
  rewrite (bind_ok _ _ _ _ _ (eq_refl : get w_clock w = (Ok (w_clock w), w))).
  cbv beta.
  rewrite (bind_ok _ _ _ _ _ (timedelta_returns _ w
             ltac:(by rewrite whole_days))). cbv beta.
  rewrite (bind_ok _ _ _ _ _ (datetime_sub_returns _ _ w Hrange)). cbv beta.
  fold cutoff.
  destruct (caught_effect (delete_jobs_before cutoff)
              (fun data => Z.of_nat (length data)) 0 w)
    as (n & w' & -> & [[Hs ->]|[-> Hs]]); eexists _, w'; (split; [reflexivity|]);
    rewrite Hs.
  - repeat split; try done; lia.
  - unfold delete_jobs_before. cbn [fst snd s_jobs s_companies s_runs with_jobs].
    pose proof (filter_split (cell_before "first_seen" cutoff)
                  (s_jobs (w_store w))) as Hlen.
    split; [lia|]. split; [lia|]. do 2 (split; [done|]). split.
    + intros row [Hrow _]%list_elem_of_In%filter_In. by apply list_elem_of_In.
    + intros row Hrow Hkeep. apply list_elem_of_In, filter_In.
      split; [by apply list_elem_of_In|]. by rewrite Hkeep.
Qed.

Lemma mark_other cutoff (row : gmap string value) k :
  k <> "is_active"%string -> deactivated cutoff row !! k = row !! k.
Proof.
  intros Hk. unfold deactivated. destruct (is_stale cutoff row); [|done].
  apply lookup_union_r. by apply lookup_singleton_ne.
Qed.

Lemma mark_not_stale cutoff row : is_stale cutoff (deactivated cutoff row) = false.
Proof.
  unfold deactivated. destruct (is_stale cutoff row) eqn:E; [|done].
  unfold is_stale. apply andb_false_intro1. unfold cell_is.
  by rewrite (lookup_union_Some_l _ _ _ _ (lookup_singleton_eq _ _)).
Qed.

Lemma none_stale_after cutoff l :
  List.filter (is_stale cutoff) (map (deactivated cutoff) l) = [].
Proof.
  induction l as [|row l IH]; [done|].
  cbn [map List.filter]. by rewrite mark_not_stale.
Qed.

Lemma mark_active cutoff row :
  cell_is "is_active" (VBool true) (deactivated cutoff row) =
  cell_is "is_active" (VBool true) row && negb (is_stale cutoff row).
Proof.
  unfold deactivated. destruct (is_stale cutoff row) eqn:E.
  - unfold cell_is at 1.
    rewrite (lookup_union_Some_l _ _ _ _ (lookup_singleton_eq _ _)).
    cbn. by rewrite andb_false_r.
  - by rewrite andb_true_r.
Qed.

Lemma active_split cutoff l :
  length (List.filter (cell_is "is_active" (VBool true)) l) =
  (length (List.filter (is_stale cutoff) l) +
   length (List.filter (cell_is "is_active" (VBool true)) (map (deactivated cutoff) l)))%nat.
Proof.
  induction l as [|row l IH]; [done|]. cbn [map List.filter].
  rewrite mark_active. destruct (is_stale cutoff row) eqn:E.
  - pose proof E as [Ha _]%andb_prop. rewrite Ha. cbn [andb negb length]. lia.
  - rewrite andb_true_r.
    destruct (cell_is "is_active" (VBool true) row); cbn [length]; lia.
Qed.

(** X17.  For a number of hours that [timedelta] accepts and a cutoff
    that [datetime] can represent, [mark_inactive_jobs] never raises, in
    whatever world.  It keeps every row at its index and changes no cell
    but [is_active], and that only from [True] to [False] in rows whose
    [last_seen] is before the cutoff; the count it returns is the number
    by which the active rows have gone down (0 when the request
    failed).  Companies and runs are untouched. *)
Theorem mark_inactive_jobs_effect hours w :
  Z.abs (hours / 24) <= 999999999 ->
  datetime_min <= w_clock w - hours * microseconds_per_hour <= datetime_max ->
  let cutoff := w_clock w - hours * microseconds_per_hour in
  let active s :=
    length (List.filter (cell_is "is_active" (VBool true)) (s_jobs s)) in
  exists n w',
    mark_inactive_jobs hours w = (Ok n, w') /\
    Z.of_nat (active (w_store w)) = Z.of_nat (active (w_store w')) + n /\
    0 <= n /\
    length (s_jobs (w_store w')) = length (s_jobs (w_store w)) /\
    s_companies (w_store w') = s_companies (w_store w) /\
    s_runs (w_store w') = s_runs (w_store w) /\
    forall (i : nat) row, s_jobs (w_store w) !! i = Some row ->
      exists row',
        s_jobs (w_store w') !! i = Some row' /\
        (forall k, k <> "is_active"%string -> row' !! k = row !! k) /\
        (row' = row \/
         (row !! "is_active" = Some (VBool true) /\
          cell_before "last_seen" cutoff row = true /\
          row' !! "is_active" = Some (VBool false))).
Proof.
  intros Hdays Hrange cutoff active. unfold mark_inactive_jobs.
  rewrite (bind_ok _ _ _ _ _ (eq_refl : get w_clock w = (Ok (w_clock w), w))).
  cbv beta.
  rewrite (bind_ok _ _ _ _ _ (timedelta_returns _ w
             ltac:(by rewrite whole_hours))). cbv beta.
  rewrite (bind_ok _ _ _ _ _ (datetime_sub_returns _ _ w Hrange)). cbv beta.
  fold cutoff.
  destruct (caught_effect (deactivate_jobs_before cutoff)
              (fun data => Z.of_nat (length data)) 0 w)
    as (n & w' & -> & [[Hs ->]|[-> Hs]]); eexists _, w'; (split; [reflexivity|]);
    subst active; cbv beta; rewrite Hs.
  - split; [lia|]. split; [lia|]. do 3 (split; [done|]).
    intros i row Hrow. exists row. split; [done|]. split; [done|by left].
  - unfold deactivate_jobs_before.
    cbn [fst snd s_jobs s_companies s_runs with_jobs].
    rewrite !length_map.
    pose proof (active_split cutoff (s_jobs (w_store w))) as Hlen.
    split; [lia|]. split; [lia|]. do 3 (split; [done|]).
    intros i row Hrow. rewrite lookup_map_any, Hrow.
    cbn [fmap option_fmap option_map]. eexists. split; [reflexivity|].
    split; [intros k Hk; by apply mark_other|].
    unfold deactivated.
    destruct (is_stale cutoff row) eqn:E; [|by left]. right.
    apply andb_prop in E as [Ha Hb]. split; [|split; [done|]].
    + unfold cell_is in Ha. destruct (row !! "is_active") as [[[]| | | | |]|];
        try discriminate. done.
    + apply lookup_union_Some_l, lookup_singleton_eq.
Qed.

Lemma with_same_jobs s : with_jobs (s_jobs s) s = s.
Proof. by destruct s. Qed.

(** X18.  In a world whose store answers, [mark_inactive_jobs] is
    idempotent at a given time: a second call right after the first
    finds nothing to mark, returns 0 and leaves the tables as the first
    call left them. *)
Theorem mark_inactive_jobs_idempotent hours w :
  healthy w ->
  Z.abs (hours / 24) <= 999999999 ->
  datetime_min <= w_clock w - hours * microseconds_per_hour <= datetime_max ->
  exists n w1 w2,
    mark_inactive_jobs hours w = (Ok n, w1) /\
    mark_inactive_jobs hours w1 = (Ok 0, w2) /\
    w_store w2 = w_store w1.
Proof.
  intros Hw Hdays Hrange.
  set (cutoff := w_clock w - hours * microseconds_per_hour).
  assert (forall w0, healthy w0 -> w_clock w0 = w_clock w ->
    mark_inactive_jobs hours w0 =
    (Ok (Z.of_nat (length (List.filter (is_stale cutoff) (s_jobs (w_store w0))))),
     set_store (with_jobs (map (deactivated cutoff) (s_jobs (w_store w0))) (w_store w0))
       (after_get_client w0))) as Hrun.
  { intros w0 Hw0 Hc0. unfold mark_inactive_jobs.
    rewrite (bind_ok _ _ _ _ _ (eq_refl : get w_clock w0 = (Ok (w_clock w0), w0))).
    cbv beta.
    rewrite (bind_ok _ _ _ _ _ (timedelta_returns _ w0
               ltac:(by rewrite whole_hours))). cbv beta.
    rewrite Hc0.
    rewrite (bind_ok _ _ _ _ _ (datetime_sub_returns _ _ w0 Hrange)). cbv beta.
    fold cutoff. unfold try_except.
    rewrite (bind_ok _ _ _ _ _ (request_healthy _ _ Hw0)). cbv beta.
    unfold deactivate_jobs_before. cbn [fst snd ret]. by rewrite length_map. }
  rewrite (Hrun w Hw eq_refl). eexists _, _, _. split; [reflexivity|].
  set (w1 := set_store _ _).
  assert (healthy w1) as Hw1 by (by apply healthy_after_request).
  assert (w_clock w1 = w_clock w) as Hc1 by (subst w1; by frame).
  rewrite (Hrun w1 Hw1 Hc1).
  assert (s_jobs (w_store w1) = map (deactivated cutoff) (s_jobs (w_store w))) as Hjobs
    by (subst w1; by frame).
  cbn [w_store set_store]. rewrite Hjobs.
  rewrite none_stale_after.
  split; [reflexivity|].
  rewrite (map_unchanged (deactivated cutoff) (map (deactivated cutoff) _)).
  - rewrite <- Hjobs. apply with_same_jobs.
  - apply Forall_forall. intros row' (row & <- & _)%list_elem_of_In%in_map_iff.
    unfold deactivated at 1. by rewrite mark_not_stale.
Qed.

Local Abbreviation upsert := (upsert_job check_bracketed_netloc).

(** X19.  A job that [mark_inactive_jobs] has marked inactive is active
    again as soon as it is observed: in a world whose store answers, with
    one row for the identity key of [a], [upsert_job a] right after
    [mark_inactive_jobs] returns [is_new = False] and leaves that row with
    [is_active = True] and [last_seen] at the time of the call. *)
Theorem upsert_job_reactivates hours a key row i w :
  healthy w ->
  Z.abs (hours / 24) <= 999999999 ->
  datetime_min <= w_clock w - hours * microseconds_per_hour <= datetime_max ->
  hash_url check_bracketed_netloc (Py.chars (a_url a)) = Some key ->
  rows_with (Py.text key) (w_store w) = [row] ->
  row !! "id" = Some (VStr i) ->
  exists n o w' row',
    (n <- mark_inactive_jobs hours ;; r <- upsert a ;; ret (n, r)) w
      = (Ok (n, (o, false)), w') /\
    rows_with (Py.text key) (w_store w') = [row'] /\
    row' !! "is_active" = Some (VBool true) /\
    row' !! "last_seen" = Some (VTime (w_clock w)) /\
    row' !! "first_seen" = row !! "first_seen".
Proof.
  intros Hw Hdays Hrange Hkey Hrows Hid.
  set (cutoff := w_clock w - hours * microseconds_per_hour).
  assert (mark_inactive_jobs hours w =
    (Ok (Z.of_nat (length (List.filter (is_stale cutoff) (s_jobs (w_store w))))),
     set_store (with_jobs (map (deactivated cutoff) (s_jobs (w_store w))) (w_store w))
       (after_get_client w))) as Hmark.
  { unfold mark_inactive_jobs.
    rewrite (bind_ok _ _ _ _ _ (eq_refl : get w_clock w = (Ok (w_clock w), w))).
    cbv beta.
    rewrite (bind_ok _ _ _ _ _ (timedelta_returns _ w
               ltac:(by rewrite whole_hours))). cbv beta.
    rewrite (bind_ok _ _ _ _ _ (datetime_sub_returns _ _ w Hrange)). cbv beta.
    fold cutoff. unfold try_except.
    rewrite (bind_ok _ _ _ _ _ (request_healthy _ _ Hw)). cbv beta.
    unfold deactivate_jobs_before. cbn [fst snd ret]. by rewrite length_map. }
  rewrite (bind_ok _ _ _ _ _ Hmark). cbv beta.
  set (w1 := set_store _ _).
  assert (healthy w1) as Hw1 by (by apply healthy_after_request).
  assert (w_clock w1 = w_clock w) as Hc1 by (subst w1; by frame).
  assert (rows_with (Py.text key) (w_store w1) = [deactivated cutoff row]) as Hrows1.
  { subst w1. unfold rows_with in *. cbn [w_store set_store s_jobs with_jobs].
    rewrite filter_map_commute; [by rewrite Hrows|].
    intros x. unfold cell_is. by rewrite mark_other. }
  assert (deactivated cutoff row !! "id" = Some (VStr i)) as Hid1
    by (by rewrite mark_other).
  destruct (upsert_update check_bracketed_netloc a key Hkey w1 (w_clock w)
              (deactivated cutoff row) i Hw1 Hrows1 Hid1)
    as (o & w' & Hup & _ & _ & Hrows').
  assert (set_clock (w_clock w) w1 = w1) as Hsame
    by (rewrite <- Hc1; by destruct w1).
  rewrite Hsame in Hup. rewrite (bind_ok _ _ _ _ _ Hup). cbn [ret].
  eexists _, o, w', _. split; [reflexivity|]. split; [exact Hrows'|].
  destruct (job_updates_cells a (w_clock w)) as [Hl Ha].
  split; [by apply lookup_union_Some_l|]. split; [by apply lookup_union_Some_l|].
  rewrite lookup_union_r by (apply job_updates_only; not_mutable).
  by apply mark_other.
Qed.

End CleanupFacts.

(** The world ninety-one days after [posting] was stored. *)
Local Abbreviation aged :=
  (set_clock (100 + 91 * microseconds_per_day) stored_once).

Lemma delete_old_jobs_keeps_recent_witness :
  exists n w',
    delete_old_jobs 90 aged = (Ok n, w') /\
    Z.of_nat (length (s_jobs (w_store aged))) =
      Z.of_nat (length (s_jobs (w_store w'))) + n.
Proof.
  destruct (delete_old_jobs_keeps_recent 90 aged) as (n & w' & H & Hlen & _).
  - lia.
  - vm_compute. split; discriminate.
  - exists n, w'. split; [exact H|exact Hlen].
Defined.

Lemma mark_inactive_jobs_effect_witness :
  exists n w',
    mark_inactive_jobs 48 aged = (Ok n, w') /\
    length (s_jobs (w_store w')) = length (s_jobs (w_store aged)).
Proof.
  destruct (mark_inactive_jobs_effect 48 aged) as (n & w' & H & _ & _ & Hlen & _).
  - vm_compute. discriminate.
  - vm_compute. split; discriminate.
  - exists n, w'. split; [exact H|exact Hlen].
Defined.

Lemma mark_inactive_jobs_idempotent_witness :
  exists n w1 w2,
    mark_inactive_jobs 48 aged = (Ok n, w1) /\
    mark_inactive_jobs 48 w1 = (Ok 0, w2) /\
    w_store w2 = w_store w1.
Proof.
  apply (mark_inactive_jobs_idempotent 48 aged).
  - split; reflexivity.
  - vm_compute. discriminate.
  - vm_compute. split; discriminate.
Defined.

Lemma upsert_job_reactivates_witness :
  exists n o w' row',
    (n <- mark_inactive_jobs 48 ;;
     r <- upsert_job no_bracket_check Examples.posting ;;
     ret (n, r)) aged = (Ok (n, (o, false)), w') /\
    rows_with (Py.text Examples.posting_key) (w_store w') = [row'] /\
    row' !! "is_active" = Some (VBool true).
Proof.
  destruct (upsert_job_reactivates no_bracket_check 48 Examples.posting
              Examples.posting_key
              (<["id" := VStr "0"]>
                 (new_row Examples.posting (Py.text Examples.posting_key) 100))
              "0" aged)
    as (n & o & w' & row' & H & Hrows & Hactive & _).
  - split; reflexivity.
  - vm_compute. discriminate.
  - vm_compute. split; discriminate.
  - vm_compute. reflexivity.
  - vm_compute. reflexivity.
  - vm_compute. reflexivity.
  - exists n, o, w', row'. split; [exact H|]. split; [exact Hrows|exact Hactive].
Defined.
(** ** Invariants of the world through the run *)

Section Keeps.
Import StoreFacts RetryFacts.

Variable check_bracketed_netloc : list ascii -> bool.
Variable parse_jobs : string -> json -> string -> string + list ParsedJob.
Variable net : string -> response.

Context (I : world -> Prop) (HI : frame_invariant I).

Lemma keep_ret {A} (a : A) : preserves I (ret a).
Proof. by intros w. Qed.

Lemma keep_raise {A} e : preserves I (@raise A e).
Proof. by intros w. Qed.

Lemma keep_get {A} (f : world -> A) : preserves I (get f).
Proof. by intros w. Qed.

Lemma keep_bind {A B} (m : M A) (k : A -> M B) :
  preserves I m -> (forall a, preserves I (k a)) -> preserves I (bind m k).
Proof.
  intros Hm Hk w Hw. unfold bind. specialize (Hm w Hw).
  destruct (m w) as [[a|e] w']; cbn [snd] in *; [by apply Hk|done].
Qed.

Lemma keep_try {A} (m : M A) (h : string -> M A) :
  preserves I m -> (forall e, preserves I (h e)) -> preserves I (try_except m h).
Proof.
  intros Hm Hh w Hw. unfold try_except. specialize (Hm w Hw).
  destruct (m w) as [[a|e] w']; cbn [snd] in *; [done|by apply Hh].
Qed.

Lemma keep_modify (f : world -> world) :
  (forall w, I w -> I (f w)) -> preserves I (modify f).
Proof. intros Hf w. apply Hf. Qed.

Create HintDb keeps.

Ltac keeps :=
  repeat lazymatch goal with
  | |- preserves _ (ret _) => apply keep_ret
  | |- preserves _ (raise _) => apply keep_raise
  | |- preserves _ (get _) => apply keep_get
  | |- preserves _ (bind _ _) => apply keep_bind; [|intros ?]
  | |- preserves _ (try_except _ _) => apply keep_try; [|intros ?]
  | |- preserves _ (if _ then _ else _) => case_match
  | |- preserves _ (match ?x with _ => _ end) => destruct x
  | |- preserves _ _ => first [assumption | solve [auto with keeps nocore]]
  end.

Lemma keep_get_client : preserves I get_client.
Proof.
  destruct HI as [Hclient Hcount _ _].
  unfold get_client, fresh_client, create_client. keeps.
  all: try (apply keep_modify; intros w; by apply Hcount).
  all: intros w Hw; cbn [snd]; by apply Hclient.
Qed.
#[local] Hint Resolve keep_get_client : keeps.

Lemma same_store w : set_store (w_store w) w = w.
Proof. by destruct w. Qed.

Lemma keep_execute {A} (op : store -> A * store) :
  (forall w, I w -> I (set_store (snd (op (w_store w))) w)) ->
  preserves I (execute op).
Proof.
  intros Hop w Hw. unfold execute.
  destruct (w_faults w) as [|[e|] rest] eqn:Hf.
  - specialize (Hop w Hw). by destruct (op (w_store w)).
  - cbn [snd]. by eapply (fi_fault I HI).
  - specialize (Hop (set_faults rest w) (fi_fault I HI _ _ _ Hf Hw)).
    cbn [w_store set_faults] in Hop. by destruct (op (w_store w)).
Qed.

(** A request that only reads. *)
Lemma keep_read {A} (op : store -> A * store) :
  (forall s, snd (op s) = s) -> preserves I (request op).
Proof.
  intros Hop. unfold request. keeps. apply keep_execute.
  intros w Hw. by rewrite Hop, same_store.
Qed.

(** A request that leaves the run log alone. *)
Lemma keep_write {A} (op : store -> A * store) :
  runs_only I -> (forall s, s_runs (snd (op s)) = s_runs s) ->
  preserves I (request op).
Proof.
  intros Hruns Hop. unfold request. keeps. apply keep_execute.
  intros w Hw. by apply Hruns.
Qed.

Lemma keep_sleep d : preserves I (sleep d).
Proof. apply keep_modify. intros w. apply (fi_sleeps I HI). Qed.
#[local] Hint Resolve keep_sleep : keeps.

Lemma keep_retry_loop {A} (fn : M A) retries delay attempts :
  preserves I fn -> preserves I (retry_loop fn retries delay attempts).
Proof.
  intros Hfn. induction attempts as [|k l IH]; cbn [retry_loop]; keeps.
  apply keep_modify. intros w. apply (fi_count I HI).
Qed.

Lemma keep_retry {A} (fn : M A) retries delay :
  preserves I fn -> preserves I (_retry fn retries delay).
Proof. apply keep_retry_loop. Qed.

Lemma keep_data_of {A} (r : option (list A)) : preserves I (data_of r).
Proof. unfold data_of. keeps. Qed.
#[local] Hint Resolve keep_data_of : keeps.

Lemma keep_load_checkpoint : preserves I load_checkpoint.
Proof. unfold load_checkpoint. keeps. Qed.
#[local] Hint Resolve keep_load_checkpoint : keeps.

Lemma file_free_safe : file_free I -> checkpoint_safe I.
Proof.
  intros Hfile. split; [intros data|]; apply keep_modify; intros w Hw;
    destruct (w_disk w) as [|[] ?]; by apply Hfile.
Qed.

Lemma store_free_runs : store_free I -> runs_only I.
Proof. intros Hfree w s' _. apply Hfree. Qed.

Lemma keep_save_checkpoint data :
  checkpoint_safe I -> preserves I (save_checkpoint data).
Proof. intros [Hsave _]. apply Hsave. Qed.

Lemma keep_clear_checkpoint : checkpoint_safe I -> preserves I clear_checkpoint.
Proof. by intros [_ Hclear]. Qed.

(** Any request, for an invariant that does not look at the store. *)
Lemma keep_request {A} (op : store -> A * store) :
  store_free I -> preserves I (request op).
Proof.
  intros Hfree. unfold request. keeps. apply keep_execute.
  intros w Hw. by apply Hfree.
Qed.

Lemma keep_start_scrape_run source cc :
  store_free I -> preserves I (start_scrape_run source cc).
Proof. intros Hfree. unfold start_scrape_run. keeps. by apply keep_request. Qed.

Lemma keep_finish_scrape_run run_id total new errors status :
  store_free I -> preserves I (finish_scrape_run run_id total new errors status).
Proof. intros Hfree. unfold finish_scrape_run. keeps. by apply keep_request. Qed.

Lemma keep_get_verified_companies ats : preserves I (get_verified_companies ats).
Proof. unfold get_verified_companies. by apply keep_read. Qed.
#[local] Hint Resolve keep_get_verified_companies : keeps.

Lemma keep_get_job_count : preserves I get_job_count.
Proof. unfold get_job_count. by apply keep_read. Qed.
#[local] Hint Resolve keep_get_job_count : keeps.

Lemma keep_gather remaining :
  requests_free I -> preserves I (gather parse_jobs net remaining).
Proof.
  intros Hreq. unfold gather. keeps. apply keep_modify. intros w. apply Hreq.
Qed.

(** The selection of the targets sends one read request; it touches the
    checkpoint file only for a fresh start. *)
Lemma keep_select_targets ck ats_filter company_filter limit fresh :
  (fresh = true -> checkpoint_safe I) ->
  preserves I (select_targets ck ats_filter company_filter limit fresh).
Proof.
  intros Hfile. unfold select_targets. keeps.
  by apply keep_clear_checkpoint, Hfile.
Qed.

(** *** A dry run *)

Lemma keep_apply_result_dry remaining run_id r s :
  preserves I (apply_result check_bracketed_netloc remaining true run_id r s).
Proof. unfold apply_result. keeps. Qed.

Lemma keep_apply_results_dry remaining run_id results : forall s,
  preserves I (apply_results check_bracketed_netloc remaining true run_id results s).
Proof.
  induction results as [|r rest IH]; intros s; cbn [apply_results]; keeps.
  apply keep_apply_result_dry.
Qed.

Lemma keep_run_plan_dry p :
  checkpoint_safe I -> requests_free I ->
  preserves I (run_plan check_bracketed_netloc parse_jobs net true p).
Proof.
  intros Hfile Hreq. unfold run_plan. cbn [negb andb]. keeps.
  - by apply keep_gather.
  - apply keep_apply_results_dry.
  - by apply keep_clear_checkpoint.
Qed.

Lemma keep_run_scraper_dry ats_filter company_filter limit resume fresh :
  checkpoint_safe I -> requests_free I ->
  preserves I (run_scraper check_bracketed_netloc parse_jobs net
                 ats_filter company_filter limit true resume fresh).
Proof.
  intros Hfile Hreq. unfold run_scraper. keeps.
  - by apply keep_select_targets.
  - by apply keep_run_plan_dry.
Qed.

(** *** A run that writes *)

Lemma keep_upsert_job a :
  runs_only I -> preserves I (upsert_job check_bracketed_netloc a).
Proof.
  intros Hruns. unfold upsert_job, hash_url_s. keeps.
  all: apply keep_retry; first [by apply keep_read | by apply keep_write].
Qed.

Lemma keep_upsert_all jobs ats name company_id n w :
  runs_only I -> I w ->
  I (snd (upsert_all check_bracketed_netloc jobs ats name company_id n w)).
Proof.
  intros Hruns. revert n w. induction jobs as [|job jobs IH]; intros n w Hw; [done|].
  cbn [upsert_all].
  pose proof (keep_upsert_job (job_call job ats name company_id) Hruns w Hw) as Hk.
  destruct (upsert_job _ _ w) as [[[o b]|e] w']; cbn [snd] in *; [|done].
  by apply IH.
Qed.

Lemma keep_update_company company_id t n :
  runs_only I -> preserves I (update_company company_id t n).
Proof. intros Hruns. unfold update_company. keeps. by apply keep_write. Qed.

Lemma keep_save_progress run_id s :
  checkpoint_safe I -> preserves I (save_progress run_id s).
Proof. intros Hfile. unfold save_progress. keeps. by apply keep_save_checkpoint. Qed.

Lemma keep_apply_result remaining dry_run run_id r s :
  runs_only I -> checkpoint_safe I ->
  preserves I (apply_result check_bracketed_netloc remaining dry_run run_id r s).
Proof.
  intros Hruns Hfile. unfold apply_result. destruct (str_truthy _); [keeps|].
  destruct (fr_jobs r) as [|job jobs]; [keeps|].
  destruct dry_run; [keeps|].
  intros w Hw.
  pose proof (keep_upsert_all (job :: jobs)
              (ats_source_of (company_info_of remaining (fr_company_id r)))
              (company_name_of (company_info_of remaining (fr_company_id r)))
              (fr_company_id r)
              (new_jobs (add_found (Z.of_nat (length (job :: jobs))) s)) w
              Hruns Hw) as Hk.
  destruct (upsert_all _ _ _ _ _ _ w) as [[n [e|]] w']; cbn [snd] in Hk;
    match goal with |- I (snd (?m _)) =>
      enough (preserves I m) as Hb by (by apply Hb) end;
    keeps;
    first [by apply keep_update_company | by apply keep_save_progress].
Qed.

Lemma keep_apply_results remaining dry_run run_id results : forall s,
  runs_only I -> checkpoint_safe I ->
  preserves I (apply_results check_bracketed_netloc remaining dry_run run_id results s).
Proof.
  induction results as [|r rest IH]; intros s Hruns Hfile; cbn [apply_results];
    keeps.
  by apply keep_apply_result.
Qed.

(** The part of [run_plan] after the fetches. *)
Lemma keep_after_gather remaining dry_run run_id results s0 :
  store_free I -> checkpoint_safe I ->
  preserves I
    (s <- apply_results check_bracketed_netloc remaining dry_run run_id results s0 ;;
     (if negb dry_run then get_job_count ;;; ret tt else ret tt) ;;;
     (if negb dry_run && str_truthy run_id
      then finish_scrape_run (default "" run_id) (total_jobs s) (new_jobs s)
             (error_count s) "completed"
      else ret tt) ;;;
     clear_checkpoint ;;;
     ret s).
Proof.
  intros Hfree Hsafe. keeps.
  - apply keep_apply_results; [by apply store_free_runs|done].
  - by apply keep_finish_scrape_run.
  - by apply keep_clear_checkpoint.
Qed.

End Keeps.
(** ** The checkpoint file *)

Module CheckpointFacts.

(** X20.  Checkpoint round trip: [save_checkpoint] never raises, and a
    [load_checkpoint] right after it returns the dictionary that was
    saved when the write succeeded, the empty dictionary when the write
    failed after the file was truncated, and what the file held before
    when the file could not be opened.  After a [clear_checkpoint] that
    succeeded, [load_checkpoint] returns the empty dictionary. *)
Theorem checkpoint_round_trip data w :
  let saved := snd (save_checkpoint data w) in
  let cleared := snd (clear_checkpoint w) in
  fst (save_checkpoint data w) = Ok tt /\
  fst (load_checkpoint saved) =
    Ok (match w_disk w with
        | [] | DiskOk :: _ => data
        | WriteFails :: _ => empty_checkpoint
        | OpenFails :: _ => match fst (load_checkpoint w) with
                            | Ok c => c
                            | Raise _ => empty_checkpoint
                            end
        end) /\
  fst (clear_checkpoint w) = Ok tt /\
  (match w_disk w with [] | DiskOk :: _ => True | _ => False end ->
   fst (load_checkpoint cleared) = Ok empty_checkpoint) /\
  w_store saved = w_store w /\ w_store cleared = w_store w.
Proof.
  unfold save_checkpoint, clear_checkpoint, load_checkpoint, modify, bind, get.
  cbn [fst snd].
  destruct (w_disk w) as [|[] rest]; cbn [w_file set_file w_store];
    repeat split; try done; by destruct (w_file w).
Qed.

End CheckpointFacts.

(** ** One fetch *)

Section FetchShape.

Variable parse_jobs : string -> json -> string -> string + list ParsedJob.
Variable net : string -> response.
Local Abbreviation scrape := (scrape_company parse_jobs net).

(** A fetch sends at most one request, to the endpoint of the company. *)
Lemma scrape_company_requests c :
  fr_requests (scrape c) = [] \/
  exists u, c_api_url c = Some u /\ fr_requests (scrape c) = [u].
Proof.
  unfold scrape_company.
  destruct (c_api_url c) as [u|]; [|by left].
  destruct (negb (str_truthy (Some u))); [by left|].
  destruct (negb _); [by left|]. right. exists u. split; [done|].
  cbn [default]. destruct (net u) as [status b| | |]; try done;
    repeat (case_match; try done).
Qed.

Lemma scrape_company_requests_le c : (length (fr_requests (scrape c)) <= 1)%nat.
Proof.
  destruct (scrape_company_requests c) as [->|(u & _ & ->)]; simpl; lia.
Qed.

(** X21.  Whatever the company, the network and the adapter, the tuple
    that [scrape_company] returns names the company it was given; it
    never carries records together with an error; its error, when there
    is one, is a non-empty string (so that [run_scraper] counts it); it
    has sent at most one request, to the company's endpoint, and when it
    has sent none the result is an error. *)
Theorem scrape_company_result_shape c :
  let r := scrape c in
  fr_company_id r = c_id c /\ fr_slug r = c_slug c /\
  (fr_jobs r <> [] -> fr_error r = None) /\
  (forall e, fr_error r = Some e -> str_truthy (Some e) = true) /\
  (fr_requests r = [] \/
   exists u, c_api_url c = Some u /\ fr_requests r = [u]) /\
  (fr_requests r = [] -> fr_error r <> None).
Proof.
  cbv zeta. split; [|split; [|split; [|split; [|split]]]].
  5: apply scrape_company_requests.
  all: unfold scrape_company;
    destruct (negb (str_truthy (c_api_url c))); [cbn; try done|];
    try (intros ? [= <-]; done);
    destruct (negb (bool_decide _)); [cbn; try done|];
    try (intros ? [= <-]; done);
    destruct (net _) as [status [d|e0|e0|e0]| | |]; cbn;
    repeat (case_match; cbn); try done;
    try (intros ? [= <-]; done).
Qed.

End FetchShape.

(** ** A resumed run, in a world whose store answers *)

Section ResumedRun.
Import StoreFacts RetryFacts EffectFacts.

Variable check_bracketed_netloc : list ascii -> bool.
Variable parse_jobs : string -> json -> string -> string + list ParsedJob.
Variable net : string -> response.
Local Abbreviation scrape := (scrape_company parse_jobs net).
Local Abbreviation key_of := (hash_url check_bracketed_netloc).

(** A request in a healthy world returns, and leaves the world healthy. *)
Lemma request_returns {A} (op : store -> A * store) w :
  healthy w ->
  exists w',
    request op w = (Ok (fst (op (w_store w))), w') /\
    healthy w' /\ w_store w' = snd (op (w_store w)) /\
    w_requests w' = w_requests w.
Proof.
  intros Hw. eexists. split; [by apply request_healthy|].
  split; [by apply healthy_after_request|]. by frame.
Qed.

(** The selection of the targets from a loaded checkpoint: one read of
    the companies, no HTTP request, and a plan that starts from the
    checkpoint. *)
Lemma select_targets_returns ck ats_filter company_filter limit w :
  healthy w ->
  let ids : gset string := list_to_set (default [] (ck_completed_ids ck)) in
  let companies :=
    selected_companies ats_filter company_filter limit (s_companies (w_store w)) in
  exists w1,
    select_targets ck ats_filter company_filter limit false w =
      (Ok (match companies with
           | [] => None
           | _ :: _ =>
               Some {| p_state := {| completed_ids := ids;
                                     total_jobs := default 0 (ck_total_jobs ck);
                                     new_jobs := default 0 (ck_new_jobs ck);
                                     error_count := default 0 (ck_errors ck);
                                     companies_with_jobs := 0 |};
                       p_run_id := ck_run_id ck;
                       p_companies := companies;
                       p_remaining := not_completed ids companies |}
           end), w1) /\
    healthy w1 /\ w_store w1 = w_store w /\ w_requests w1 = w_requests w.
Proof.
  intros Hw ids companies.
  destruct (request_returns
    (fun s => (List.filter
       (fun c =>
          c_verified c &&
          match c_api_url c with Some _ => true | None => false end &&
          (if str_truthy ats_filter
           then opt_eqb (option_map lower_s ats_filter) (c_ats c)
           else true))
       (s_companies s), s)) w Hw) as (w1 & Hreq & Hw1 & Hs1 & Hq1).
  exists w1. split; [|done].
  unfold select_targets. rewrite bind_ret. unfold get_verified_companies.
  rewrite (bind_ok _ _ _ _ _ Hreq). cbn [fst].
  subst companies. unfold selected_companies.
  by destruct (match limit with Some _ => _ | None => _ end).
Qed.

(** *** The loop returns *)

Lemma upsert_all_returns jobs ats name company_id : forall n w,
  Forall (fun job => is_Some (key_of (Py.chars (url job)))) jobs ->
  healthy w -> rows_have_id (w_store w) ->
  exists n' w',
    upsert_all check_bracketed_netloc jobs ats name company_id n w = (n', None, w') /\
    healthy w' /\ rows_have_id (w_store w').
Proof.
  induction jobs as [|job jobs IH]; intros n w Hjobs Hw Hids; [by eexists _, _|].
  apply Forall_cons in Hjobs as [[key Hkey] Hjobs].
  destruct (upsert_job_healthy check_bracketed_netloc
              (job_call job ats name company_id) key w Hkey Hw Hids)
    as (o & w1 & H1 & Hw1 & Hids1 & _).
  cbn [upsert_all]. rewrite H1. by apply IH.
Qed.

Lemma update_company_returns_healthy company_id t n w :
  healthy w ->
  exists w',
    update_company company_id t n w = (Ok tt, w') /\ healthy w' /\
    s_jobs (w_store w') = s_jobs (w_store w).
Proof.
  intros Hw. unfold update_company, try_except.
  rewrite (request_healthy _ _ Hw). eexists. split; [reflexivity|].
  split; [by apply healthy_after_request|]. by frame.
Qed.

Lemma save_progress_returns run_id s w :
  exists w',
    save_progress run_id s w = (Ok tt, w') /\
    (healthy w -> healthy w') /\ w_store w' = w_store w.
Proof.
  eexists. split; [reflexivity|].
  unfold save_progress, save_checkpoint, bind, get, modify. cbn [snd].
  by destruct (w_disk w) as [|[] ?].
Qed.

Lemma apply_result_returns remaining dry_run run_id r s w :
  healthy w ->
  (dry_run = false ->
   rows_have_id (w_store w) /\
   Forall (fun job => is_Some (key_of (Py.chars (url job)))) (fr_jobs r)) ->
  exists s' w',
    apply_result check_bracketed_netloc remaining dry_run run_id r s w = (Ok s', w') /\
    healthy w' /\ (dry_run = false -> rows_have_id (w_store w')).
Proof.
  intros Hw Hwrite. unfold apply_result.
  destruct (str_truthy (fr_error r)).
  { eexists _, _. split; [reflexivity|]. split; [done|]. intros H. by apply Hwrite. }
  destruct (fr_jobs r) as [|job jobs] eqn:Hjobs.
  { eexists _, _. split; [reflexivity|]. split; [done|]. intros H. by apply Hwrite. }
  destruct dry_run.
  { eexists _, _. split; [reflexivity|]. by split. }
  destruct (Hwrite eq_refl) as [Hids Hkeys].
  destruct (upsert_all_returns (job :: jobs)
              (ats_source_of (company_info_of remaining (fr_company_id r)))
              (company_name_of (company_info_of remaining (fr_company_id r)))
              (fr_company_id r)
              (new_jobs (add_found (Z.of_nat (length (job :: jobs))) s)) w
              Hkeys Hw Hids) as (n & w1 & -> & Hw1 & Hids1).
  unfold bind at 1, get.
  destruct (update_company_returns_healthy (fr_company_id r) (w_clock w1)
              (Z.of_nat (length (job :: jobs))) w1 Hw1) as (w2 & H2 & Hw2 & Hjobs2).
  rewrite (bind_ok _ _ _ _ _ H2).
  assert (rows_have_id (w_store w2)) as Hids2
    by (unfold rows_have_id; by rewrite Hjobs2).
  match goal with |- context [if ?b then _ else _] => destruct b end.
  - match goal with |- context [save_progress ?i ?x] =>
      destruct (save_progress_returns i x w2) as (w3 & H3 & Hw3 & Hs3) end.
    rewrite (bind_ok _ _ _ _ _ H3). eexists _, _. split; [reflexivity|].
    split; [by apply Hw3|]. intros _. by rewrite Hs3.
  - eexists _, _. split; [reflexivity|]. by split.
Qed.

Lemma apply_results_returns remaining dry_run run_id results : forall s w,
  healthy w ->
  (dry_run = false ->
   rows_have_id (w_store w) /\
   Forall (fun r => Forall (fun job => is_Some (key_of (Py.chars (url job))))
                      (fr_jobs r)) results) ->
  exists s' w',
    apply_results check_bracketed_netloc remaining dry_run run_id results s w
      = (Ok s', w') /\
    healthy w'.
Proof.
  induction results as [|r rest IH]; intros s w Hw Hwrite; [by eexists _, _|].
  destruct (apply_result_returns remaining dry_run run_id r s w Hw)
    as (s1 & w1 & H1 & Hw1 & Hids1).
  { intros H. destruct (Hwrite H) as [Hids Hkeys].
    apply Forall_cons in Hkeys as [Hr _]. by split. }
  cbn [apply_results]. rewrite (bind_ok _ _ _ _ _ H1). apply IH; [done|].
  intros H. destruct (Hwrite H) as [_ Hkeys].
  apply Forall_cons in Hkeys as [_ Hrest]. split; [by apply Hids1|done].
Qed.

(** *** The count of new records, in every world *)

Local Abbreviation rows w := (Z.of_nat (length (s_jobs (w_store w)))).

Lemma request_keeps_jobs {A} (op : store -> A * store) w :
  (forall s, s_jobs (snd (op s)) = s_jobs s) ->
  s_jobs (w_store (snd (request op w))) = s_jobs (w_store w).
Proof.
  intros Hop. destruct (request op w) as [r w'] eqn:E.
  apply request_effect in E as [[Hs _]|[_ Hs]]; cbn [snd]; rewrite Hs; [done|apply Hop].
Qed.

Lemma update_company_keeps_jobs company_id t n w :
  s_jobs (w_store (snd (update_company company_id t n w))) = s_jobs (w_store w).
Proof.
  unfold update_company, try_except.
  match goal with |- context [request ?op w] =>
    pose proof (request_keeps_jobs op w (fun _ => eq_refl)) as H;
    destruct (request op w) as [[[]|e] w'] end; exact H.
Qed.

Lemma start_scrape_run_keeps_jobs source cc w :
  s_jobs (w_store (snd (start_scrape_run source cc w))) = s_jobs (w_store w).
Proof.
  unfold start_scrape_run, bind, get.
  match goal with |- context [request ?op w] =>
    exact (request_keeps_jobs op w (fun _ => eq_refl)) end.
Qed.

Lemma finish_scrape_run_keeps_jobs run_id total new errors status w :
  s_jobs (w_store (snd (finish_scrape_run run_id total new errors status w))) =
  s_jobs (w_store w).
Proof.
  unfold finish_scrape_run, try_except, bind, get.
  match goal with |- context [request ?op w] =>
    pose proof (request_keeps_jobs op w (fun _ => eq_refl)) as H;
    destruct (request op w) as [[[]|e] w'] end; exact H.
Qed.

Lemma get_job_count_keeps_jobs w :
  s_jobs (w_store (snd (get_job_count w))) = s_jobs (w_store w).
Proof. unfold get_job_count. by apply request_keeps_jobs. Qed.

Lemma save_progress_keeps_store run_id s w :
  w_store (snd (save_progress run_id s w)) = w_store w.
Proof.
  unfold save_progress, save_checkpoint, bind, get, modify. cbn [snd].
  by destruct (w_disk w) as [|[] ?].
Qed.

Lemma clear_checkpoint_keeps_store w :
  w_store (snd (clear_checkpoint w)) = w_store w.
Proof.
  unfold clear_checkpoint, modify. cbn [snd]. by destruct (w_disk w) as [|[] ?].
Qed.

(** The records counted as new are the rows added to the table. *)
Lemma upsert_all_new jobs ats name company_id : forall n w n' w',
  upsert_all check_bracketed_netloc jobs ats name company_id n w = (n', None, w') ->
  rows w' = rows w + (n' - n).
Proof.
  induction jobs as [|job jobs IH]; intros n w n' w'; cbn [upsert_all].
  - intros [= <- <-]. lia.
  - destruct (upsert_job _ _ w) as [[[o b]|e] w1] eqn:E; [|discriminate].
    apply upsert_job_growth in E. intros H%IH. destruct b; lia.
Qed.

Lemma apply_result_new remaining dry_run run_id r s w s' w' :
  apply_result check_bracketed_netloc remaining dry_run run_id r s w = (Ok s', w') ->
  new_jobs s' =
  new_jobs s + if dry_run then found_in [r] else rows w' - rows w.
Proof.
  unfold apply_result, found_in. cbn [flat_map].
  destruct (str_truthy (fr_error r)) eqn:Herr.
  { intros [= <- <-]. cbn. destruct dry_run; lia. }
  rewrite app_nil_r.
  destruct (fr_jobs r) as [|job jobs] eqn:Hjobs.
  { intros [= <- <-]. cbn. destruct dry_run; lia. }
  destruct dry_run.
  { intros [= <- <-]. cbn -[Z.of_nat]. lia. }
  destruct (upsert_all _ _ _ _ _ _ w) as [[n [e|]] w1] eqn:Eall.
  - unfold bind at 1. rewrite save_progress_ok. discriminate.
  - apply upsert_all_new in Eall.
    intros (now & w2 & [= _ <-] & H)%bind_inv.
    apply bind_inv in H as ([] & w3 & H3 & H).
    apply bind_inv in H as ([] & w4 & H4 & H).
    injection H as <- <-.
    pose proof (update_company_keeps_jobs (fr_company_id r) now
                  (Z.of_nat (length (job :: jobs))) w1) as Hk3.
    rewrite H3 in Hk3. cbn [snd] in Hk3.
    assert (w_store w4 = w_store w3) as Hk4.
    { match type of H4 with
      | (if ?b then _ else _) _ = _ => destruct b
      end.
      - match type of H4 with save_progress ?i ?x _ = _ =>
          pose proof (save_progress_keeps_store i x w3) as Hk end.
        by rewrite H4 in Hk.
      - by injection H4 as <-. }
    rewrite Hk4, Hk3. cbn [new_jobs add_completed set_new_jobs add_found] in *. lia.
Qed.

Lemma apply_results_new remaining dry_run run_id results : forall s w s' w',
  apply_results check_bracketed_netloc remaining dry_run run_id results s w
    = (Ok s', w') ->
  new_jobs s' =
  new_jobs s + if dry_run then found_in results else rows w' - rows w.
Proof.
  induction results as [|r rest IH]; intros s w s' w'; cbn [apply_results].
  - intros [= <- <-]. unfold found_in. cbn. destruct dry_run; lia.
  - intros (s1 & w1 & H1 & H2)%bind_inv.
    apply apply_result_new in H1. apply IH in H2.
    rewrite (found_in_cons r rest). destruct dry_run; lia.
Qed.

(** The same for the whole of [run_plan], whose other steps leave the
    jobs table alone. *)
Lemma run_plan_new dry_run p w s w' :
  run_plan check_bracketed_netloc parse_jobs net dry_run p w = (Ok s, w') ->
  new_jobs s =
  new_jobs (p_state p) +
  if dry_run then found_in (map scrape (p_remaining p)) else rows w' - rows w.
Proof.
  unfold run_plan. intros (run_id & w1 & H1 & H)%bind_inv.
  apply bind_inv in H as (results & w2 & H2 & H).
  apply bind_inv in H as (s1 & w3 & H3 & H).
  apply bind_inv in H as ([] & w4 & H4 & H).
  apply bind_inv in H as ([] & w5 & H5 & H).
  apply bind_inv in H as ([] & w6 & H6 & H).
  injection H as -> ->.
  unfold gather, bind, modify, ret in H2. injection H2 as <- <-.
  apply apply_results_new in H3. cbn [w_store set_requests] in H3.
  assert (s_jobs (w_store w1) = s_jobs (w_store w)) as Hk1.
  { destruct (negb dry_run && negb (str_truthy (p_run_id p))).
    - apply bind_inv in H1 as (r & w0 & H0 & [= _ <-]).
      pose proof (start_scrape_run_keeps_jobs "ats_scraper"
                    (Z.of_nat (length (p_companies p))) w) as Hk.
      by rewrite H0 in Hk.
    - by injection H1 as _ <-. }
  assert (s_jobs (w_store w4) = s_jobs (w_store w3)) as Hk4.
  { destruct (negb dry_run).
    - apply bind_inv in H4 as (n & w0 & H0 & [= <-]).
      pose proof (get_job_count_keeps_jobs w3) as Hk. by rewrite H0 in Hk.
    - by injection H4 as <-. }
  assert (s_jobs (w_store w5) = s_jobs (w_store w4)) as Hk5.
  { destruct (negb dry_run && str_truthy run_id).
    - match type of H5 with finish_scrape_run ?a ?b ?c ?d ?e _ = _ =>
        pose proof (finish_scrape_run_keeps_jobs a b c d e w4) as Hk end.
      by rewrite H5 in Hk.
    - by injection H5 as <-. }
  pose proof (clear_checkpoint_keeps_store w5) as Hk6. rewrite H6 in Hk6.
  cbn [snd] in Hk6. rewrite Hk6, Hk5, Hk4. rewrite Hk1 in H3. exact H3.
Qed.

(** *** The run returns *)

Lemma match_nonempty {A B} (l : list A) (x y : B) :
  l <> [] -> match l with [] => x | _ :: _ => y end = y.
Proof. by destruct l. Qed.

Lemma gather_returns remaining w :
  gather parse_jobs net remaining w =
  (Ok (map scrape remaining),
   set_requests (w_requests w ++ flat_map fr_requests (map scrape remaining)) w).
Proof. reflexivity. Qed.

Lemma run_plan_returns dry_run p w :
  healthy w ->
  (dry_run = false ->
   rows_have_id (w_store w) /\
   Forall (fun r => Forall (fun job => is_Some (key_of (Py.chars (url job))))
                      (fr_jobs r)) (map scrape (p_remaining p))) ->
  exists s w',
    run_plan check_bracketed_netloc parse_jobs net dry_run p w = (Ok s, w').
Proof.
  intros Hw Hwrite. unfold run_plan.
  assert (exists run_id w1,
            (if negb dry_run && negb (str_truthy (p_run_id p))
             then r <- start_scrape_run "ats_scraper"
                         (Z.of_nat (length (p_companies p))) ;;
                  ret (Some r)
             else ret (p_run_id p)) w = (Ok run_id, w1) /\
            healthy w1 /\ s_jobs (w_store w1) = s_jobs (w_store w))
    as (run_id & w1 & H1 & Hw1 & Hjobs1).
  { destruct (negb dry_run && negb (str_truthy (p_run_id p))); [|by eexists _, _].
    unfold start_scrape_run, bind at 1 2, get.
    match goal with |- context [request ?op w] =>
      destruct (request_returns op w Hw) as (w1 & -> & Hw1 & Hs1 & _) end.
    eexists _, _. split; [reflexivity|]. split; [done|]. by rewrite Hs1. }
  rewrite (bind_ok _ _ _ _ _ H1), (bind_ok _ _ _ _ _ (gather_returns _ w1)).
  destruct (apply_results_returns (p_remaining p) dry_run run_id
              (map scrape (p_remaining p)) (p_state p)
              (set_requests (w_requests w1 ++
                 flat_map fr_requests (map scrape (p_remaining p))) w1))
    as (s & w3 & H3 & Hw3).
  { by destruct Hw1. }
  { intros H. destruct (Hwrite H) as [Hids Hkeys]. split; [|done].
    unfold rows_have_id. cbn [w_store set_requests]. by rewrite Hjobs1. }
  rewrite (bind_ok _ _ _ _ _ H3).
  assert (exists w4,
            (if negb dry_run then get_job_count ;;; ret tt else ret tt) w3
            = (Ok tt, w4)) as (w4 & H4).
  { destruct (negb dry_run); [|by eexists].
    unfold get_job_count, bind.
    match goal with |- context [request ?op w3] =>
      destruct (request_returns op w3 Hw3) as (w4 & -> & _) end.
    by eexists. }
  rewrite (bind_ok _ _ _ _ _ H4).
  assert (exists w5,
            (if negb dry_run && str_truthy run_id
             then finish_scrape_run (default "" run_id) (total_jobs s)
                    (new_jobs s) (error_count s) "completed"
             else ret tt) w4 = (Ok tt, w5)) as (w5 & H5).
  { destruct (negb dry_run && str_truthy run_id); [|by eexists].
    unfold finish_scrape_run.
    match goal with |- context [try_except ?m _ w4] =>
      destruct (try_except_returns m tt w4) as ([] & w5 & ->) end.
    by eexists. }
  rewrite (bind_ok _ _ _ _ _ H5). by eexists _, _.
Qed.

(** C7.  A resumed run in a world whose store answers and whose
    checkpoint file holds the dictionary [ck].  [companies] are the
    companies selected from the table and [remaining] those of them whose
    id is not among the checkpoint's completed ids.  Then the set-up
    returns with no HTTP request sent, its list of targets is [remaining]
    and its counters are the checkpoint's (0 for a missing key); and
    [run_scraper] returns, having sent the requests of the remaining
    companies and no other, with all selected and checkpointed ids
    completed and with totals that are the checkpoint's plus what the
    remaining companies brought: their records, their errors, and as new
    records those found (dry run) or the rows added to the jobs table.  A
    run that writes needs a jobs table whose rows have ids and records
    whose URLs can be hashed: otherwise [upsert_job] raises and the run
    aborts. *)
Theorem resume_from_checkpoint
    ats_filter company_filter limit dry_run ck (w : world) :
  let ids : gset string := list_to_set (default [] (ck_completed_ids ck)) in
  let companies :=
    selected_companies ats_filter company_filter limit (s_companies (w_store w)) in
  let remaining := not_completed ids companies in
  let results := map scrape remaining in
  w_file w = Document ck ->
  healthy w ->
  companies <> [] ->
  (dry_run = false ->
   rows_have_id (w_store w) /\
   Forall (fun r => Forall (fun job => is_Some (key_of (Py.chars (url job))))
                      (fr_jobs r)) results) ->
  (exists w1,
     select_targets ck ats_filter company_filter limit false w =
       (Ok (Some {| p_state := {| completed_ids := ids;
                                  total_jobs := default 0 (ck_total_jobs ck);
                                  new_jobs := default 0 (ck_new_jobs ck);
                                  error_count := default 0 (ck_errors ck);
                                  companies_with_jobs := 0 |};
                    p_run_id := ck_run_id ck;
                    p_companies := companies;
                    p_remaining := remaining |}), w1) /\
     w_requests w1 = w_requests w) /\
  exists s w2,
    run_scraper check_bracketed_netloc parse_jobs net
      ats_filter company_filter limit dry_run true false w = (Ok (Some s), w2) /\
    w_requests w2 = w_requests w ++ flat_map fr_requests results /\
    completed_ids s = list_to_set (map c_id remaining) ∪ ids /\
    total_jobs s = default 0 (ck_total_jobs ck) + found_in results /\
    new_jobs s =
      default 0 (ck_new_jobs ck) +
      (if dry_run then found_in results else rows w2 - rows w) /\
    error_count s = default 0 (ck_errors ck) + errors_in results.
Proof.
  intros ids companies remaining results Hfile Hw Hsome Hwrite.
  destruct (select_targets_returns ck ats_filter company_filter limit w Hw)
    as (w1 & Hsel & Hw1 & Hs1 & Hq1).
  fold ids companies in Hsel. fold remaining in Hsel.
  rewrite (match_nonempty companies) in Hsel by done.
  split; [by exists w1|].
  match type of Hsel with _ = (Ok (Some ?x), _) => set (p := x) in * end.
  destruct (run_plan_returns dry_run p w1 Hw1) as (s & w2 & Hrun).
  { intros H. destruct (Hwrite H) as [Hids Hkeys]. split; [by rewrite Hs1|done]. }
  exists s, w2. split.
  { rewrite run_scraper_loaded. unfold loaded_checkpoint. rewrite Hfile.
    cbn [andb negb]. rewrite (bind_ok _ _ _ _ _ Hsel).
    by rewrite (bind_ok _ _ _ _ _ Hrun). }
  pose proof (run_plan_new _ _ _ _ _ Hrun) as Hnew.
  apply run_plan_totals in Hrun as (Hq & Hc & Ht & He).
  cbn [p p_remaining p_state completed_ids total_jobs new_jobs error_count] in *.
  rewrite Hs1 in Hnew. rewrite Hq1 in Hq. by repeat split.
Qed.

End ResumedRun.

(** ** Closed instances *)

Import Py UrlShape.



(** C9, refuted as stated: a host with a doubled [www.] prefix loses one
    prefix on each pass. *)
Lemma normalize_url_not_idempotent :
  normalize_url no_bracket_check (chars "http://www.www.a.com") =
    Some (chars "http://www.a.com") /\
  normalize_url no_bracket_check (chars "http://www.a.com") =
    Some (chars "http://a.com") /\
  chars "http://a.com" <> chars "http://www.a.com".
Proof. split; [reflexivity|split; [reflexivity|discriminate]]. Qed.

Lemma normalize_url_idempotent_on_witness :
  normalize_url no_bracket_check
    (chars "  HTTP://user@www.Example.com:8443/jobs/?a=1#top ") =
    Some (chars "http://example.com/jobs") /\
  normalize_url no_bracket_check (chars "http://example.com/jobs") =
    Some (chars "http://example.com/jobs").
Proof.
  apply (normalize_url_idempotent_on no_bracket_check
           (chars "  HTTP://user@www.Example.com:8443/jobs/?a=1#top ")
           (chars "http") (chars "example.com") (chars "/jobs"));
    [reflexivity|discriminate|reflexivity..].
Defined.

(** The other conditions of the amended C9 are needed as well: an IPv6
    literal loses its brackets and is then read as an empty host with a
    port, ... *)
Example normalize_url_ipv6_literal :
  normalize_url no_bracket_check (chars "http://[::1]/x") =
    Some (chars "http://::1/x") /\
  normalize_url no_bracket_check (chars "http://::1/x") =
    Some (chars "http:///x").
Proof. split; reflexivity. Qed.

(** ... a [;] that a trailing slash kept out of the last segment becomes
    a parameter separator once the slash is gone, ... *)
Example normalize_url_semicolon_segment :
  normalize_url no_bracket_check (chars "http://h/a;b/") =
    Some (chars "http://h/a;b") /\
  normalize_url no_bracket_check (chars "http://h/a;b") =
    Some (chars "http://h/a").
Proof. split; reflexivity. Qed.

(** ... white space before the query ends up at the end of the normal
    form, where [strip] removes it, ... *)
Example normalize_url_space_before_query :
  normalize_url no_bracket_check (chars "http://a.com/b ?q=1") =
    Some (chars "http://a.com/b ") /\
  normalize_url no_bracket_check (chars "http://a.com/b ") =
    Some (chars "http://a.com/b").
Proof. split; reflexivity. Qed.

(** ... and with an empty host a path that starts with two slashes is
    read as a netloc on the second pass. *)
Example normalize_url_empty_host :
  normalize_url no_bracket_check (chars "http:////www.x") =
    Some (chars "http://www.x") /\
  normalize_url no_bracket_check (chars "http://www.x") =
    Some (chars "http://x").
Proof. split; reflexivity. Qed.

Import Examples.

Lemma upsert_job_idempotent_witness :
  hash_url no_bracket_check (chars (a_url posting)) = Some posting_key /\
  healthy (a_world []) /\
  rows_with (text posting_key) (w_store (a_world [])) = [] /\
  map is_new_of
    (fst (upsert_at no_bracket_check posting [100; 200; 300] (a_world []))) =
    [Some true; Some false; Some false] /\
  exists row,
    rows_with (text posting_key)
      (w_store (snd (upsert_at no_bracket_check posting [100; 200; 300]
                       (a_world [])))) = [row] /\
    row !! "first_seen" = Some (VTime 100) /\
    row !! "last_seen" = Some (VTime 300) /\
    row !! "is_active" = Some (VBool true).
Proof.
  assert (hash_url no_bracket_check (chars (a_url posting)) = Some posting_key)
    as Hkey by (vm_compute; reflexivity).
  assert (healthy (a_world [])) as Hw by (split; reflexivity).
  assert (rows_with (text posting_key) (w_store (a_world [])) = [])
    as Hrows by reflexivity.
  split; [exact Hkey|]. split; [exact Hw|]. split; [exact Hrows|].
  destruct (upsert_job_idempotent no_bracket_check posting posting_key Hkey
              (a_world []) 100 [200; 300] Hw Hrows)
    as (Hnew & row & Hrow & Hfirst & Hlast & Hactive & _).
  split; [exact Hnew|]. exists row. repeat split; assumption.
Defined.

Lemma scrape_company_classification_witness :
  let r := scrape_company url_list_adapter net_timeout lever_co in
  fr_jobs r = [] /\ fr_error r = Some "timeout"%string /\
  fr_requests r = ["https://api.lever.co/v0/postings/acme"%string].
Proof.
  destruct (scrape_company_classification url_list_adapter net_timeout lever_co)
    as (_ & _ & _ & _ & H).
  destruct (H "https://api.lever.co/v0/postings/acme"%string eq_refl)
    as (Hreq & _ & _ & _ & _ & _ & _ & _ & _ & Htimeout & _).
  - discriminate.
  - apply list_elem_of_In. simpl. tauto.
  - destruct (Htimeout eq_refl) as [Hjobs Herr]. by repeat split.
Defined.

(** C3, refuted as stated: the endpoint answers 200 and the read of the
    body then times out, or loses the connection.  The result is a JSON
    decode error with the message of that exception, not the timeout
    error and not a connection error. *)
Lemma body_read_failure_is_decode_error :
  let slow := scrape_company url_list_adapter net_slow_body lever_co in
  let cut := scrape_company url_list_adapter net_cut_body lever_co in
  fr_error slow = Some "json decode error: "%string /\
  fr_error slow <> Some "timeout"%string /\
  fr_error cut =
    Some "json decode error: Response payload is not completed"%string /\
  fr_error cut <>
    Some "connection error: Response payload is not completed"%string /\
  fr_requests slow = ["https://api.lever.co/v0/postings/acme"%string] /\
  fr_requests cut = ["https://api.lever.co/v0/postings/acme"%string].
Proof. cbv zeta. repeat split; (reflexivity || discriminate). Qed.

(** C4, refuted as stated: a target without endpoint is reported with
    the error ["no api_url"], sends no request, and is counted. *)
Lemma no_endpoint_counts_as_error :
  let r := scrape_company url_list_adapter net_404 no_endpoint_co in
  fr_error r = Some "no api_url"%string /\ fr_requests r = [] /\
  exists s',
    apply_result no_bracket_check [no_endpoint_co] false None r fresh_state
      (a_world [no_endpoint_co]) = (Ok s', a_world [no_endpoint_co]) /\
    error_count fresh_state = 0 /\ error_count s' = 1.
Proof.
  cbv zeta. split; [reflexivity|]. split; [reflexivity|].
  eexists. split; [reflexivity|]. split; reflexivity.
Qed.

Lemma error_counter_contributions_witness :
  (exists s',
     apply_result no_bracket_check [lever_co] false None
       (scrape_company url_list_adapter net_404 lever_co) fresh_state
       (a_world [lever_co]) = (Ok s', a_world [lever_co]) /\
     error_count s' = error_count fresh_state /\ "c-1"%string ∈ completed_ids s') /\
  (exists s',
     apply_result no_bracket_check [no_adapter_co] false None
       (scrape_company url_list_adapter net_404 no_adapter_co) fresh_state
       (a_world [no_adapter_co]) = (Ok s', a_world [no_adapter_co]) /\
     error_count s' = error_count fresh_state + 1 /\
     "c-3"%string ∈ completed_ids s').
Proof.
  split.
  - destruct (error_counter_contributions no_bracket_check url_list_adapter
                net_404 [lever_co] false None lever_co fresh_state
                (a_world [lever_co])) as (H & _ & _).
    apply (H "https://api.lever.co/v0/postings/acme"%string (NotJson ""));
      [reflexivity|discriminate| |reflexivity].
    apply list_elem_of_In. simpl. tauto.
  - destruct (error_counter_contributions no_bracket_check url_list_adapter
                net_404 [no_adapter_co] false None no_adapter_co fresh_state
                (a_world [no_adapter_co])) as (_ & _ & H).
    apply H; [reflexivity|].
    intros Hin%list_elem_of_In. simpl in Hin.
    repeat (destruct Hin as [Hin|Hin]; [discriminate|]). exact Hin.
Defined.

(** C5, at its failing input.  Ten targets are applied and the tenth is
    rate-limited: all ten are completed, nine records are stored, and no
    checkpoint has been written.  When the tenth succeeds like the
    others, the checkpoint is written. *)
Theorem checkpoint_skipped_when_tenth_target_fails :
  let run net :=
    apply_results no_bracket_check ten_companies false (Some "run-1"%string)
      (map (scrape_company url_list_adapter net) ten_companies)
      fresh_state (a_world ten_companies) in
  (exists s,
     fst (run net_tenth_fails) = Ok s /\
     size (completed_ids s) = 10%nat /\
     total_jobs s = 9 /\ error_count s = 1 /\
     w_file (snd (run net_tenth_fails)) = Absent) /\
  (exists s,
     fst (run net_one_job) = Ok s /\
     size (completed_ids s) = 10%nat /\
     w_file (snd (run net_one_job)) =
       Document (checkpoint_of (Some "run-1"%string) s 100)).
Proof.
  cbv zeta. split.
  - eexists. split; [vm_compute; reflexivity|]. vm_compute. by repeat split.
  - eexists. split; [vm_compute; reflexivity|]. vm_compute. by repeat split.
Qed.



Lemma retry_policy_witness :
  let w := set_faults two_resets (a_world []) in
  let out := _retry (request (select_job_ids "k")) 3 1 w in
  w_configured w = true /\
  w_faults (snd out) = [] /\ w_sleeps (snd out) = [1; 2] /\
  w_clients_created (snd out) = 3%nat /\
  exists a, fst out = Ok (Some a).
Proof.
  cbv zeta. split; [reflexivity|].
  destruct (RetryFacts.retry_policy (select_job_ids "k") 1
              (set_faults two_resets (a_world [])) eq_refl)
    as (_ & Hfaults & Hsleeps & Hclients & Hout).
  split; [exact Hfaults|]. split; [exact Hsleeps|]. split; [exact Hclients|].
  exact Hout.
Defined.

(** C8, refuted as stated: the request fails three times with a
    connection error and would succeed the fourth time.  [_retry] sleeps
    one and two seconds, raises the third error, and the fourth request is
    never sent (its outcome is still in the script): the operation is
    tried three times, that is, retried twice. *)
Lemma retry_stops_after_third_attempt :
  let w := set_faults three_resets (a_world []) in
  let out := _retry (request (select_job_ids "k")) 3 1 w in
  is_connection_error "ConnectionReset by peer" = true /\
  fst out = Raise "ConnectionReset by peer" /\
  w_sleeps (snd out) = [1; 2] /\ w_faults (snd out) = [None] /\
  w_clients_created (snd out) = 3%nat.
Proof. cbv zeta. repeat split; vm_compute; reflexivity. Qed.

(** Ten companies, a checkpoint that holds the first four with the
    counters 31, 5 and 1, and endpoints that list one posting each but for
    the last, which answers 429.  The set-up leaves the six other
    companies and the checkpoint's counters and sends nothing; the run
    then returns after six requests with 36 records seen, 10 new, 2
    errors, and five rows in the jobs table. *)
Lemma resume_from_checkpoint_witness :
  let w := set_file (Document a_checkpoint) [] (a_world ten_companies) in
  w_file w = Document a_checkpoint /\ healthy w /\
  (exists p w1,
     select_targets a_checkpoint None None None false w = (Ok (Some p), w1) /\
     w_requests w1 = [] /\
     map c_id (p_companies p) = map c_id ten_companies /\
     map c_id (p_remaining p) = ["c-4"; "c-5"; "c-6"; "c-7"; "c-8"; "c-9"]%string /\
     total_jobs (p_state p) = 31 /\ new_jobs (p_state p) = 5 /\
     error_count (p_state p) = 1) /\
  exists s w2,
    run_scraper no_bracket_check url_list_adapter net_tenth_fails
      None None None false true false w = (Ok (Some s), w2) /\
    w_requests w2 =
      ["https://api.lever.co/v0/postings/co4";
       "https://api.lever.co/v0/postings/co5";
       "https://api.lever.co/v0/postings/co6";
       "https://api.lever.co/v0/postings/co7";
       "https://api.lever.co/v0/postings/co8";
       "https://api.lever.co/v0/postings/co9"]%string /\
    size (completed_ids s) = 10%nat /\
    total_jobs s = 36 /\ new_jobs s = 10 /\ error_count s = 2 /\
    length (s_jobs (w_store w2)) = 5%nat.
Proof.
  cbv zeta.
  set (w := set_file (Document a_checkpoint) [] (a_world ten_companies)).
  assert (healthy w) as Hw by (split; reflexivity).
  split; [reflexivity|]. split; [exact Hw|].
  destruct (resume_from_checkpoint no_bracket_check url_list_adapter
              net_tenth_fails None None None false a_checkpoint w eq_refl Hw)
    as ((w1 & Hsel & Hq1) & s & w2 & Hrun & Hq & Hc & Ht & Hn & He).
  { vm_compute. discriminate. }
  { intros _. split; [constructor|].
    let v := eval vm_compute in
      (map (scrape_company url_list_adapter net_tenth_fails)
         (not_completed (list_to_set (default [] (ck_completed_ids a_checkpoint)))
            (selected_companies None None None (s_companies (w_store w))))) in
    replace (map (scrape_company url_list_adapter net_tenth_fails)
         (not_completed (list_to_set (default [] (ck_completed_ids a_checkpoint)))
            (selected_companies None None None (s_companies (w_store w)))))
      with v by (vm_compute; reflexivity).
    repeat (constructor; cbn [fr_jobs]); eexists; vm_compute; reflexivity. }
  assert (length (s_jobs (w_store w2)) = 5%nat) as Hrows.
  { change w2 with (snd (Ok (Some s), w2)). rewrite <- Hrun.
    vm_compute. reflexivity. }
  split.
  - eexists _, w1. split; [exact Hsel|]. split; [exact Hq1|].
    cbn [p_companies p_remaining p_state total_jobs new_jobs error_count].
    repeat split; vm_compute; reflexivity.
  - exists s, w2. split; [exact Hrun|].
    split; [rewrite Hq; vm_compute; reflexivity|].
    split; [rewrite Hc; vm_compute; reflexivity|].
    split; [rewrite Ht; vm_compute; reflexivity|].
    split; [rewrite Hn, Hrows; vm_compute; reflexivity|].
    split; [rewrite He; vm_compute; reflexivity|exact Hrows].
Defined.

Lemma checkpoint_write_failure_is_swallowed_witness :
  let w1 := a_world ten_companies in
  let w2 := set_file Absent [WriteFails; OpenFails] (a_world ten_companies) in
  same_but_disk w1 w2 /\ w_file w1 = w_file w2 /\
  fst (run_scraper no_bracket_check url_list_adapter net_one_job
         None None None false false false w1) =
  fst (run_scraper no_bracket_check url_list_adapter net_one_job
         None None None false false false w2) /\
  same_but_disk
    (snd (run_scraper no_bracket_check url_list_adapter net_one_job
            None None None false false false w1))
    (snd (run_scraper no_bracket_check url_list_adapter net_one_job
            None None None false false false w2)).
Proof.
  cbv zeta. split; [reflexivity|]. split; [reflexivity|].
  apply (checkpoint_write_failure_is_swallowed no_bracket_check
           url_list_adapter net_one_job None None None false false false
           (a_world ten_companies)
           (set_file Absent [WriteFails; OpenFails] (a_world ten_companies)));
    reflexivity.
Defined.
